(** * Mercado bursatil argentino: yfinance client and market analytics

    A shallow embedding of [main.py] (the [ClienteYFinanceMCP] client: symbol
    resolution, normalisation of provider frames, historical / latest / batch
    retrieval, instrument lookup with its cache, search, and the
    dictionaries of [ActivoFinanciero]), of [utilidades_mcp.py] (the
    [AnalizadorMercadoArgentino] analytics: returns, comparison, beta,
    correlation matrix, ratios) and of the [/historico] endpoint of
    [server.py], followed by the properties established about them.

    Conventions of the embedding.
    - Python [str] is [string]; an f-string is a concatenation with [+:+].
    - A [dict] is a [gmap]; [SIMBOLOS_MAPPING] and the instrument cache are
      [gmap string _].
    - A [float] is an [f64]: a real number, an infinity or NaN, with unsigned
      zeros. The operations of [f64] do not round; what is stated with them
      is what rounding leaves as it is (a NaN, an exact zero, a sign, an
      order). Where the number itself is the result, as in [calcular_beta],
      the arithmetic is a parameter ([Aritmetica]).
    - The provider (yfinance) is outside the program: it is a record of
      operations over an abstract provider state, each of which may raise.
      Calls are threaded through a world that also logs every request.
    - [logging] calls are not modelled. *)

From Stdlib Require Import Reals Lra Sorted.
From stdpp Require Import gmap strings list fin_maps.

(* ===================================================================== *)
(** * Part I: definitions *)
(* ===================================================================== *)

(** ** Enumerations of [main.py] *)

Inductive TipoActivo := ACCION | CEDEAR | BONO | ETF | OPCION | FUTURO.
Inductive PanelMercado := LIDER | GENERAL | PYMES | BONOS | LETRAS.
Inductive Mercado := BYMA | MAE | MAV | ROFEX | NYSE | NASDAQ.
Inductive Moneda := ARS | USD | USD_LINKED | EUR.
Inductive Intervalo :=
  | MINUTO_1 | MINUTO_2 | MINUTO_5 | MINUTO_15 | MINUTO_30 | MINUTO_60
  | MINUTO_90 | HORA_1 | DIA_1 | DIA_5 | SEMANA_1 | MES_1 | MES_3.
Inductive EstadoRespuesta := OK | ERROR.
Inductive CodigoError := DATA_001 | DATA_002 | DATA_003 | PARAM_001.

#[global] Instance TipoActivo_eq_dec : EqDecision TipoActivo.
Proof. solve_decision. Defined.
#[global] Instance Mercado_eq_dec : EqDecision Mercado.
Proof. solve_decision. Defined.
#[global] Instance Moneda_eq_dec : EqDecision Moneda.
Proof. solve_decision. Defined.
#[global] Instance EstadoRespuesta_eq_dec : EqDecision EstadoRespuesta.
Proof. solve_decision. Defined.
#[global] Instance CodigoError_eq_dec : EqDecision CodigoError.
Proof. solve_decision. Defined.

(** [Intervalo.value]: the token handed to the provider. *)
Definition Intervalo_value (i : Intervalo) : string :=
  match i with
  | MINUTO_1 => "1m" | MINUTO_2 => "2m" | MINUTO_5 => "5m"
  | MINUTO_15 => "15m" | MINUTO_30 => "30m" | MINUTO_60 => "60m"
  | MINUTO_90 => "90m" | HORA_1 => "1h" | DIA_1 => "1d" | DIA_5 => "5d"
  | SEMANA_1 => "1wk" | MES_1 => "1mo" | MES_3 => "3mo"
  end.

(** ** Python string primitives *)

(** [s.endswith(suf)]: [s] is [suf], or the tail of [s] ends with [suf]. *)
Fixpoint endswith (s suf : string) : bool :=
  String.eqb s suf ||
  match s with
  | EmptyString => false
  | String _ s' => endswith s' suf
  end.

(** [s.startswith(pre)]. *)
Definition startswith (s pre : string) : bool := String.prefix pre s.

(** [sub in s] on strings: [sub] occurs in [s] as a contiguous block. *)
Fixpoint contains (sub s : string) : bool :=
  String.prefix sub s ||
  match s with
  | EmptyString => false
  | String _ s' => contains sub s'
  end.

(** The relations the three tests decide. *)
Definition has_suffix (suf s : string) : Prop := ∃ p, s = p +:+ suf.
Definition has_prefix (pre s : string) : Prop := ∃ q, s = pre +:+ q.
Definition occurs_in (sub s : string) : Prop := ∃ p q, s = p +:+ sub +:+ q.

(** ** Floats *)

(** A float64 value: NaN, an infinity with its sign, or a finite real. *)
Inductive f64 := NaN | Inf (negative : bool) | Fin (r : R).

#[global] Instance f64_eq_dec : EqDecision f64.
Proof.
  intros x y. unfold Decision.
  destruct x as [| s | a], y as [| s' | b]; try (right; congruence).
  - by left.
  - destruct (decide (s = s')) as [-> | Hs]; [by left | right; congruence].
  - destruct (Req_dec_T a b) as [-> | Hab]; [by left | right; congruence].
Defined.

Definition Rneg (r : R) : bool := if Rlt_dec r 0 then true else false.
Definition Rzero (r : R) : bool := if Req_dec_T r 0 then true else false.

(** [pd.isna] on a float cell. *)
Definition isna (x : f64) : bool :=
  match x with NaN => true | _ => false end.

(** A value is absent when it is NaN. *)
Definition ausente (x : f64) : Prop := x = NaN.

#[global] Instance ausente_dec x : Decision (ausente x).
Proof.
  refine (match x with NaN => left _ | _ => right _ end);
    unfold ausente; congruence.
Defined.

Definition fopp (x : f64) : f64 :=
  match x with
  | NaN => NaN
  | Inf s => Inf (negb s)
  | Fin r => Fin (- r)
  end.

Definition fadd (x y : f64) : f64 :=
  match x, y with
  | NaN, _ | _, NaN => NaN
  | Inf s, Inf s' => if Bool.eqb s s' then Inf s else NaN
  | Inf s, Fin _ | Fin _, Inf s => Inf s
  | Fin a, Fin b => Fin (a + b)
  end.

Definition fsub (x y : f64) : f64 := fadd x (fopp y).

Definition fmul (x y : f64) : f64 :=
  match x, y with
  | NaN, _ | _, NaN => NaN
  | Inf s, Inf s' => Inf (xorb s s')
  | Inf s, Fin r | Fin r, Inf s =>
      if Rzero r then NaN else Inf (xorb s (Rneg r))
  | Fin a, Fin b => Fin (a * b)
  end.

(** numpy division: [x/0] is an infinity, [0/0] is NaN. *)
Definition fdiv (x y : f64) : f64 :=
  match x, y with
  | NaN, _ | _, NaN => NaN
  | Inf _, Inf _ => NaN
  | Inf s, Fin r => Inf (xorb s (Rneg r))
  | Fin _, Inf _ => Fin 0
  | Fin a, Fin b =>
      if Rzero b then (if Rzero a then NaN else Inf (Rneg a))
      else Fin (a / b)
  end.

Definition fsqrt (x : f64) : f64 :=
  match x with
  | NaN => NaN
  | Inf s => if s then NaN else Inf false
  | Fin r => if Rneg r then NaN else Fin (sqrt r)
  end.

(** The real [e] is an integer, and an odd one. *)
Definition Rentero (e : R) : bool :=
  if Req_dec_T e (IZR (Int_part e)) then true else false.
Definition Rimpar (e : R) : bool := Rentero e && Z.odd (Int_part e).

(** [x ** y] on floats, as C's [pow]. The exponent this program raises to is
    [365/dias], a finite number; infinite and NaN exponents are not
    distinguished. *)
Definition fpow (x y : f64) : f64 :=
  match y with
  | Fin e =>
      if Rzero e then Fin 1
      else
        match x with
        | NaN => NaN
        | Inf s =>
            if Rneg e then Fin 0
            else if s && Rimpar e then Inf true else Inf false
        | Fin b =>
            if Rlt_dec 0 b then Fin (Rpower b e)
            else if Rzero b then (if Rneg e then Inf false else Fin 0)
            else if Rimpar e then Fin (- Rpower (- b) e)
            else if Rentero e then Fin (Rpower (- b) e)
            else NaN
        end
  | _ => NaN
  end.

(** [x == 0] on floats (false on NaN and on the infinities). *)
Definition feq0 (x : f64) : bool :=
  match x with Fin r => Rzero r | _ => false end.

Definition fnat (n : nat) : f64 := Fin (INR n).
Definition fZ (z : Z) : f64 := Fin (IZR z).

(** ** Dates *)

(** A [datetime] / pandas [Timestamp]: nanoseconds since the epoch. *)
Definition datetime := Z.
Definition ns_per_day : Z := 86400000000000.
(** [timedelta(days=n)] and [(a - b).days]. *)
Definition timedelta_days (n : Z) : Z := (n * ns_per_day)%Z.
Definition days_between (a b : datetime) : Z := ((a - b) `div` ns_per_day)%Z.
(** [d.strftime('%Y-%m-%d')]: the calendar day, as a day number. *)
Definition fecha_de (d : datetime) : Z := (d `div` ns_per_day)%Z.
(** [Timestamp.to_pydatetime()]: a Python [datetime] counts whole
    microseconds, so what the label holds below the microsecond is dropped. *)
Definition to_pydatetime (t : datetime) : datetime := (t `div` 1000 * 1000)%Z.

(** ** The static symbol table *)

Definition SIMBOLOS_TABLA : list (string * string) :=
  [ ("GGAL", "GGAL.BA"); ("PAMP", "PAMP.BA"); ("YPF", "YPFD.BA");
    ("YPFD", "YPFD.BA"); ("TXAR", "TXAR.BA"); ("BYMA", "BYMA.BA");
    ("BBAR", "BBAR.BA"); ("CEPU", "CEPU.BA"); ("TRAN", "TRAN.BA");
    ("TGNO4", "TGNO4.BA"); ("TGSU2", "TGSU2.BA"); ("LOMA", "LOMA.BA");
    ("BMA", "BMA.BA"); ("SUPV", "SUPV.BA"); ("CRES", "CRES.BA");
    ("ALUA", "ALUA.BA"); ("COME", "COME.BA"); ("MIRG", "MIRG.BA");
    ("HARG", "HARG.BA"); ("VALO", "VALO.BA");
    ("GGAL.ADR", "GGAL"); ("YPF.ADR", "YPF"); ("BMA.ADR", "BMA");
    ("SUPV.ADR", "SUPV"); ("LOMA.ADR", "LOMA"); ("BBAR.ADR", "BBAR");
    ("PAM.ADR", "PAM"); ("TEO.ADR", "TEO"); ("TGS.ADR", "TGS");
    ("ARGT", "ARGT");
    ("MERVAL", "^MERV") ].

Definition SIMBOLOS_MAPPING : gmap string string := list_to_map SIMBOLOS_TABLA.

(** ** [ClienteYFinanceMCP._get_yahoo_symbol] *)

Definition _get_yahoo_symbol (simbolo : string) : string :=
  match SIMBOLOS_MAPPING !! simbolo with
  | Some yahoo => yahoo
  | None =>
      if negb (endswith simbolo ".BA") && negb (endswith simbolo ".ADR")
      then simbolo +:+ ".BA"
      else simbolo
  end.

(** ** Records of [main.py] *)

Module ActivoFinanciero.
Record t := mk {
  simbolo : string;
  tipo : TipoActivo;
  denominacion : string;
  panel : PanelMercado;
  mercado : Mercado;
  moneda : Moneda;
  codigo_isin : option string;
  codigo_cfi : option string;
  simbolo_yahoo : option string }.
End ActivoFinanciero.

Module Cotizacion.
Record t := mk {
  simbolo : string;
  timestamp : datetime;
  apertura : f64;
  maximo : f64;
  minimo : f64;
  cierre : f64;
  volumen_nominal : f64;
  volumen_monto : f64;
  cantidad_operaciones : Z;
  ajustado : bool }.
End Cotizacion.

Module SolicitudHistorico.
Record t := mk {
  simbolo : string;
  desde : option datetime;
  hasta : option datetime;
  intervalo : Intervalo;
  ajustado : bool }.
End SolicitudHistorico.

Module MetadataHistorico.
Record t := mk {
  simbolo : string;
  desde : datetime;
  hasta : datetime;
  intervalo : string;
  registros : nat;
  ajustado : bool }.
End MetadataHistorico.

Module RespuestaHistorico.
Record t := mk {
  estado : EstadoRespuesta;
  datos : list Cotizacion.t;
  metadata : option MetadataHistorico.t;
  mensaje : option string;
  codigo_error : option CodigoError }.
End RespuestaHistorico.

(** ** The provider *)

(** A row of the frame [Ticker.history] returns: the timestamp that indexes it
    and the price columns, a missing value being NaN. The [Volume] column is
    looked up with ['Volume' in row], so it may be absent. *)
Record RawRow := {
  Index : datetime;
  Open : f64;
  High : f64;
  Low : f64;
  Close : f64;
  Volume : option f64 }.

Abbreviation DataFrame := (list RawRow).

(** [df.empty]: the frame has no row. *)
Definition df_empty (df : DataFrame) : bool :=
  match df with [] => true | _ => false end.

(** The arguments of one [Ticker.history] request: [period=...], or
    [start, end, interval, auto_adjust]. *)
Inductive HistoryArgs :=
  | Periodo (period : string)
  | Rango (start end_ : Z) (interval : string) (auto_adjust : bool).

(** [Ticker.info]: a dictionary of descriptive fields. *)
Definition Info := gmap string string.

(** The text of a raised exception, [str(e)]. *)
Definition Exc := string.

(** What the program reads from outside: the provider's two operations, either
    of which may raise and may change the provider's state, and the clock. *)
Record Entorno (W : Type) := {
  history : string → HistoryArgs → W → (Exc + DataFrame) * W;
  info : string → W → (Exc + Info) * W;
  now : W → datetime }.
Arguments history {W}.
Arguments info {W}.
Arguments now {W}.

(** A request sent to the provider. *)
Inductive Llamada :=
  | LlHistory (simbolo_yahoo : string) (args : HistoryArgs)
  | LlInfo (simbolo_yahoo : string).

(** The world a method runs in: the provider's state and the requests sent
    so far, oldest first. *)
Record Mundo (W : Type) := { estado : W; llamadas : list Llamada }.
Arguments estado {W}.
Arguments llamadas {W}.

(** ** [ClienteYFinanceMCP] *)

(** The row test of the normaliser: some of open/high/low/close is NaN. *)
Definition fila_incompleta (row : RawRow) : bool :=
  isna (Open row) || isna (High row) || isna (Low row) || isna (Close row).

(** The [Cotizacion] built from a row that passed the test. *)
Definition cotizacion_de_fila (simbolo : string) (row : RawRow)
    : Cotizacion.t :=
  {| Cotizacion.simbolo := simbolo;
     Cotizacion.timestamp := to_pydatetime (Index row);
     Cotizacion.apertura := Open row;
     Cotizacion.maximo := High row;
     Cotizacion.minimo := Low row;
     Cotizacion.cierre := Close row;
     Cotizacion.volumen_nominal :=
       match Volume row with
       | Some v => if isna v then Fin 0 else v
       | None => Fin 0
       end;
     Cotizacion.volumen_monto := Fin 0;
     Cotizacion.cantidad_operaciones := 0;
     Cotizacion.ajustado := true |}.

(** [_convert_yf_history_to_cotizaciones]: the loop over [df.iterrows()],
    appending to [cotizaciones]. *)
Definition _convert_yf_history_to_cotizaciones
    (df : DataFrame) (simbolo : string) : list Cotizacion.t :=
  if df_empty df then []
  else
    foldl (λ cotizaciones row,
             if fila_incompleta row then cotizaciones
             else cotizaciones ++ [cotizacion_de_fila simbolo row])
          [] df.

(** The correction applied in [obtener_ultima_cotizacion] after resolving. *)
Definition ajuste_ypf (simbolo simbolo_yahoo : string) : string :=
  if String.eqb simbolo "YPF" && String.eqb simbolo_yahoo "YPF.BA"
  then "YPFD.BA" else simbolo_yahoo.

Definition respuesta_error (mensaje : string) (codigo : CodigoError)
    : RespuestaHistorico.t :=
  {| RespuestaHistorico.estado := ERROR;
     RespuestaHistorico.datos := [];
     RespuestaHistorico.metadata := None;
     RespuestaHistorico.mensaje := Some mensaje;
     RespuestaHistorico.codigo_error := Some codigo |}.

Section Cliente.
Context {W : Type} (yf : Entorno W).

(** [ticker = yf.Ticker(s); ticker.history(...)], logged. *)
Definition ticker_history (simbolo_yahoo : string) (args : HistoryArgs)
    (m : Mundo W) : (Exc + DataFrame) * Mundo W :=
  let '(r, e) := history yf simbolo_yahoo args (estado m) in
  (r, {| estado := e;
         llamadas := llamadas m ++ [LlHistory simbolo_yahoo args] |}).

(** [ticker.info], logged. *)
Definition ticker_info (simbolo_yahoo : string) (m : Mundo W)
    : (Exc + Info) * Mundo W :=
  let '(r, e) := info yf simbolo_yahoo (estado m) in
  (r, {| estado := e; llamadas := llamadas m ++ [LlInfo simbolo_yahoo] |}).

(** [obtener_historico]. Between the provider call and the result nothing
    raises on well-typed data, so the outermost handler is never entered. *)
Definition obtener_historico (solicitud : SolicitudHistorico.t) (m : Mundo W)
    : RespuestaHistorico.t * Mundo W :=
  let simbolo := SolicitudHistorico.simbolo solicitud in
  let simbolo_yahoo := _get_yahoo_symbol simbolo in
  let desde :=
    match SolicitudHistorico.desde solicitud with
    | Some d => d
    | None => (now yf (estado m) - timedelta_days 365)%Z
    end in
  let hasta :=
    match SolicitudHistorico.hasta solicitud with
    | Some h => h
    | None => now yf (estado m)
    end in
  let intervalo := Intervalo_value (SolicitudHistorico.intervalo solicitud) in
  match ticker_history simbolo_yahoo
          (Rango (fecha_de desde) (fecha_de hasta) intervalo
                 (SolicitudHistorico.ajustado solicitud)) m with
  | (inl ticker_error, m') =>
      (respuesta_error
         ("Error al obtener datos de Yahoo Finance para el símbolo "
            +:+ simbolo_yahoo +:+ ": " +:+ ticker_error)
         DATA_003, m')
  | (inr df, m') =>
      if df_empty df then
        (respuesta_error
           ("No se encontraron datos para el símbolo " +:+ simbolo
              +:+ " (" +:+ simbolo_yahoo +:+ ") en el período solicitado")
           DATA_002, m')
      else
        match _convert_yf_history_to_cotizaciones df simbolo with
        | [] =>
            (respuesta_error
               ("Los datos obtenidos para " +:+ simbolo +:+ " ("
                  +:+ simbolo_yahoo +:+ ") no pudieron ser procesados")
               DATA_003, m')
        | (primera :: _) as cotizaciones =>
            let metadata :=
              {| MetadataHistorico.simbolo := simbolo;
                 MetadataHistorico.desde := Cotizacion.timestamp primera;
                 MetadataHistorico.hasta :=
                   Cotizacion.timestamp (List.last cotizaciones primera);
                 MetadataHistorico.intervalo := intervalo;
                 MetadataHistorico.registros := length cotizaciones;
                 MetadataHistorico.ajustado :=
                   SolicitudHistorico.ajustado solicitud |} in
            ({| RespuestaHistorico.estado := OK;
                RespuestaHistorico.datos := cotizaciones;
                RespuestaHistorico.metadata := Some metadata;
                RespuestaHistorico.mensaje := None;
                RespuestaHistorico.codigo_error := None |}, m')
        end
  end.

(** The tail of [obtener_ultima_cotizacion], after the frame is chosen:
    [if df.empty: return None], convert, return [cotizaciones[0]]. *)
Definition primera_cotizacion (df : DataFrame) (simbolo : string)
    : option Cotizacion.t :=
  if df_empty df then None
  else
    match _convert_yf_history_to_cotizaciones df simbolo with
    | [] => None
    | c :: _ => Some c
    end.

(** The body of [obtener_ultima_cotizacion] for a provider symbol. An
    exception of any of the provider calls is caught and gives [None]. *)
Definition ultima_cotizacion_con (simbolo_yahoo simbolo : string)
    (m : Mundo W) : option Cotizacion.t * Mundo W :=
  match ticker_history simbolo_yahoo (Periodo "1d") m with
  | (inl _, m1) => (None, m1)
  | (inr df, m1) =>
      if df_empty df then
        match ticker_history simbolo_yahoo (Periodo "5d") m1 with
        | (inl _, m2) => (None, m2)
        | (inr df, m2) =>
            if df_empty df then
              match ticker_history simbolo_yahoo (Periodo "1mo") m2 with
              | (inl _, m3) => (None, m3)
              | (inr df, m3) => (primera_cotizacion df simbolo, m3)
              end
            else (primera_cotizacion df simbolo, m2)
        end
      else (primera_cotizacion df simbolo, m1)
  end.

(** [obtener_ultima_cotizacion]. *)
Definition obtener_ultima_cotizacion (simbolo : string) (m : Mundo W)
    : option Cotizacion.t * Mundo W :=
  let simbolo_yahoo := _get_yahoo_symbol simbolo in
  let simbolo_yahoo := ajuste_ypf simbolo simbolo_yahoo in
  ultima_cotizacion_con simbolo_yahoo simbolo m.

(** [obtener_cotizaciones_multiples]: one iteration per element of
    [simbolos], each writing its key of [resultado]. The handler of the
    loop body is never entered, [obtener_ultima_cotizacion] returning
    [None] where it fails. *)
Definition obtener_cotizaciones_multiples (simbolos : list string)
    (m : Mundo W) : gmap string (option Cotizacion.t) * Mundo W :=
  foldl (λ '(resultado, m) simbolo,
           let '(ultima_cotizacion, m') :=
             obtener_ultima_cotizacion simbolo m in
           (<[simbolo := ultima_cotizacion]> resultado, m'))
        (∅, m) simbolos.
End Cliente.

(** ** [ClienteYFinanceMCP.obtener_activo] *)

(** The client object: its instrument cache and the world it runs in. *)
Record Cliente (W : Type) := {
  _activos_cache : gmap string ActivoFinanciero.t;
  mundo : Mundo W }.
Arguments _activos_cache {W}.
Arguments mundo {W}.

(** Truth value of a string: it is not empty. *)
Definition truthy (s : string) : bool := negb (String.eqb s "").

(** "Determinar tipo de activo". *)
Definition tipo_de (simbolo simbolo_yahoo : string) : TipoActivo :=
  if String.eqb simbolo_yahoo "^MERV" then BONO
  else if String.eqb simbolo_yahoo "ARGT" then ETF
  else if endswith simbolo ".ADR" then CEDEAR
  else ACCION.

(** "Determinar mercado". *)
Definition mercado_de (simbolo_yahoo : string) : Mercado :=
  if endswith simbolo_yahoo ".BA" then BYMA
  else if negb (contains "." simbolo_yahoo) || startswith simbolo_yahoo "^"
  then NYSE
  else BYMA.

(** "Determinar moneda". *)
Definition moneda_de (mercado : Mercado) : Moneda :=
  if bool_decide (mercado ≠ BYMA) then USD else ARS.

(** "Obtener denominación". *)
Definition denominacion_de (simbolo : string) (info : Info) : string :=
  if bool_decide (info = ∅) then simbolo
  else
    match info !! "longName" with
    | Some largo =>
        if truthy largo then largo
        else
          match info !! "shortName" with
          | Some corto => if truthy corto then corto else simbolo
          | None => simbolo
          end
    | None =>
        match info !! "shortName" with
        | Some corto => if truthy corto then corto else simbolo
        | None => simbolo
        end
    end.

Section Activo.
Context {W : Type} (yf : Entorno W).

(** The instrument built at the end of [obtener_activo]. *)
Definition crear_activo (simbolo simbolo_yahoo : string) (info : Info)
    : ActivoFinanciero.t :=
  let mercado := mercado_de simbolo_yahoo in
  {| ActivoFinanciero.simbolo := simbolo;
     ActivoFinanciero.tipo := tipo_de simbolo simbolo_yahoo;
     ActivoFinanciero.denominacion := denominacion_de simbolo info;
     ActivoFinanciero.panel := LIDER;
     ActivoFinanciero.mercado := mercado;
     ActivoFinanciero.moneda := moneda_de mercado;
     ActivoFinanciero.codigo_isin := None;
     ActivoFinanciero.codigo_cfi := None;
     ActivoFinanciero.simbolo_yahoo := Some simbolo_yahoo |}.

(** [obtener_activo]. [confirmar] is the handler of the inner [try]: it is
    entered when [ticker.info] raises and when the 1-day request made for
    an empty [info] raises; an exception inside it, its own included, is
    caught by the enclosing handler, which returns [None]. *)
Definition obtener_activo (simbolo : string) (c : Cliente W)
    : option ActivoFinanciero.t * Cliente W :=
  match _activos_cache c !! simbolo with
  | Some activo => (Some activo, c)
  | None =>
      let simbolo_yahoo := _get_yahoo_symbol simbolo in
      let crear (info : Info) (m : Mundo W) :=
        let activo := crear_activo simbolo simbolo_yahoo info in
        (Some activo,
         {| _activos_cache := <[simbolo := activo]> (_activos_cache c);
            mundo := m |}) in
      let fallar (m : Mundo W) :=
        (None, {| _activos_cache := _activos_cache c; mundo := m |}) in
      let confirmar (m : Mundo W) :=
        match ticker_history yf simbolo_yahoo (Periodo "1d") m with
        | (inl _, m') => fallar m'
        | (inr df, m') =>
            if df_empty df then fallar m'
            else crear {[ "shortName" := simbolo_yahoo ]} m'
        end in
      match ticker_info yf simbolo_yahoo (mundo c) with
      | (inl _, m1) => confirmar m1
      | (inr info, m1) =>
          if bool_decide (info = ∅) then
            match ticker_history yf simbolo_yahoo (Periodo "1d") m1 with
            | (inl _, m2) => confirmar m2
            | (inr df, m2) =>
                if df_empty df then fallar m2
                else crear {[ "shortName" := simbolo_yahoo ]} m2
            end
          else crear info m1
      end
  end.

(** The states a client can be in: it starts with an empty cache; the cache
    is written by [obtener_activo] only (callers leave it and the instruments
    it holds alone), every other method and the provider itself changing at
    most the world. *)
Inductive alcanzable : Cliente W → Prop :=
  | alc_inicio m : alcanzable {| _activos_cache := ∅; mundo := m |}
  | alc_activo c simbolo :
      alcanzable c → alcanzable (obtener_activo simbolo c).2
  | alc_mundo c m :
      alcanzable c →
      alcanzable {| _activos_cache := _activos_cache c; mundo := m |}.

(** Every cached instrument is the one [obtener_activo] builds for its key. *)
Definition cache_clasificado (c : Cliente W) : Prop :=
  ∀ simbolo activo,
    _activos_cache c !! simbolo = Some activo →
    ∃ info, activo = crear_activo simbolo (_get_yahoo_symbol simbolo) info.
End Activo.

(** ** pandas: series and their statistics *)

(** A [Series] of floats: its values in index order, each with its label. *)
Abbreviation Serie := (list (datetime * f64)).

(** [ffill]: a missing value takes the last value before it. *)
Fixpoint ffill_desde (previo : f64) (l : list f64) : list f64 :=
  match l with
  | [] => []
  | x :: l' =>
      let y := if isna x then previo else x in
      y :: ffill_desde y l'
  end.

(** [data / data.shift(1) - 1], the value before the first being missing. *)
Fixpoint cambios_desde (previo : f64) (l : list f64) : list f64 :=
  match l with
  | [] => []
  | x :: l' => fsub (fdiv x previo) (Fin 1) :: cambios_desde x l'
  end.

(** [pct_change()]. Up to pandas 2 the default [fill_method='pad'] fills the
    missing values forward first ([relleno = true]); pandas 3 does not. *)
Definition pct_change (relleno : bool) (l : list f64) : list f64 :=
  cambios_desde NaN (if relleno then ffill_desde NaN l else l).

(** The values a statistic with [skipna] reads. *)
Definition validos (l : list f64) : list f64 := filter (λ x, ¬ ausente x) l.

Definition fsum (l : list f64) : f64 := foldr fadd (Fin 0) l.

Definition media (l : list f64) : f64 := fdiv (fsum l) (fnat (length l)).

(** Sum of the products of the deviations of two samples from [mx], [my]. *)
Definition suma_desvios (mx my : f64) (pares : list (f64 * f64)) : f64 :=
  fsum ((λ '(x, y), fmul (fsub x mx) (fsub y my)) <$> pares).

(** [Series.var()]: sample variance ([ddof=1]) of the present values, NaN
    when there are fewer than two. *)
Definition var (l : list f64) : f64 :=
  let v := validos l in
  let n := length v in
  if n <=? 1 then NaN
  else fdiv (suma_desvios (media v) (media v) (zip v v)) (fnat (n - 1)).

(** [Series.std()]. *)
Definition std (l : list f64) : f64 := fsqrt (var l).

(** [serie.dropna()]. *)
Definition dropna (s : Serie) : Serie := filter (λ p, ¬ ausente p.2) s.

(** [serie[t]] for a label of the index (the first row that carries it). *)
Fixpoint buscar (t : datetime) (s : Serie) : option f64 :=
  match s with
  | [] => None
  | (t', x) :: s' => if decide (t' = t) then Some x else buscar t s'
  end.

(** Both values of a pair are present. *)
Definition presentes (p : f64 * f64) : Prop := ¬ ausente p.1 ∧ ¬ ausente p.2.

#[global] Instance presentes_dec p : Decision (presentes p).
Proof. unfold presentes. apply _. Defined.

(** The pairs two series hold at their common labels, with both values
    present: what [a.cov(b)] reads. *)
Definition alinear (a b : Serie) : list (f64 * f64) :=
  filter presentes (omap (λ '(t, x), y ← buscar t b; Some (x, y)) a).

(** [np.isfinite] on a float cell. *)
Definition isfinite (x : f64) : bool :=
  match x with Fin _ => true | _ => false end.

(** Both values of a pair are finite. *)
Definition finitos (p : f64 * f64) : Prop := isfinite p.1 ∧ isfinite p.2.

#[global] Instance finitos_dec p : Decision (finitos p).
Proof. unfold finitos. apply _. Defined.

(** Pearson correlation of two columns of equal length, on the rows where
    both are finite ([DataFrame.corr], [min_periods=1]): a row in which
    either is NaN or an infinity is masked. *)
Definition pearson (x y : list f64) : f64 :=
  let pares := filter finitos (zip x y) in
  if length pares <? 1 then NaN
  else
    let mx := media pares.*1 in
    let my := media pares.*2 in
    let ssqdx := suma_desvios mx mx (zip pares.*1 pares.*1) in
    let ssqdy := suma_desvios my my (zip pares.*2 pares.*2) in
    let covxy := suma_desvios mx my pares in
    let divisor := fsqrt (fmul ssqdx ssqdy) in
    if feq0 divisor then NaN else fdiv covxy divisor.

(** [Index.intersection]: the labels of [a] that are labels of [b], each once,
    in the order of [a]. *)
Definition interseccion (a b : list datetime) : list datetime :=
  remove_dups (filter (λ t, t ∈ b) a).

(** ** pandas: frames of several columns *)

(** A frame with one float column per symbol over a shared index. *)
Record Tabla := {
  indice : list datetime;
  columnas : list (string * list f64) }.

Definition tabla_vacia : Tabla := {| indice := []; columnas := [] |}.

(** [tabla.empty]: no row or no column. *)
Definition tabla_empty (t : Tabla) : bool :=
  match indice t, columnas t with
  | [], _ | _, [] => true
  | _, _ => false
  end.

(** Write a column under [nombre]: in place when the name exists, at the
    end otherwise. *)
Fixpoint poner_columna (nombre : string) (valores : list f64)
    (cols : list (string * list f64)) : list (string * list f64) :=
  match cols with
  | [] => [(nombre, valores)]
  | (n, v) :: resto =>
      if String.eqb n nombre then (nombre, valores) :: resto
      else (n, v) :: poner_columna nombre valores resto
  end.

(** [tabla[nombre] = serie]. A frame that has no row yet takes the index of a
    non-empty series (its former columns become missing over it); otherwise
    the series is reindexed to the index of the frame, labels it lacks being
    missing and labels outside the index dropped. Series are taken to have
    no repeated label, as the provider's have. *)
Definition asignar_columna (t : Tabla) (nombre : string) (serie : Serie)
    : Tabla :=
  match indice t, serie with
  | [], _ :: _ =>
      {| indice := serie.*1;
         columnas :=
           poner_columna nombre serie.*2
             ((λ '(n, _), (n, replicate (length serie) NaN)) <$> columnas t) |}
  | idx, _ =>
      {| indice := idx;
         columnas :=
           poner_columna nombre
             ((λ fecha, default NaN (buscar fecha serie)) <$> idx)
             (columnas t) |}
  end.

(** Keep the elements of [l] at the positions where [mascara] holds. *)
Fixpoint filtrar_mascara {A} (mascara : list bool) (l : list A) : list A :=
  match mascara, l with
  | b :: mascara', x :: l' =>
      if b then x :: filtrar_mascara mascara' l'
      else filtrar_mascara mascara' l'
  | _, _ => []
  end.

(** The rows in which no column is missing. *)
Definition filas_presentes (t : Tabla) : list bool :=
  foldr (λ col mascara, zip_with andb (negb ∘ isna <$> col.2) mascara)
        (replicate (length (indice t)) true) (columnas t).

(** [tabla.pct_change()], column by column. *)
Definition tabla_pct_change (relleno : bool) (t : Tabla) : Tabla :=
  {| indice := indice t;
     columnas := (λ '(n, v), (n, pct_change relleno v)) <$> columnas t |}.

(** [tabla.dropna()]: drop the rows in which some column is missing. *)
Definition tabla_dropna (t : Tabla) : Tabla :=
  let mascara := filas_presentes t in
  {| indice := filtrar_mascara mascara (indice t);
     columnas := (λ '(n, v), (n, filtrar_mascara mascara v)) <$> columnas t |}.

(** A square frame of floats labelled by symbols on both axes. *)
Abbreviation Matriz := (list (string * list (string * f64))).

(** [tabla.corr()]. *)
Definition corr (t : Tabla) : Matriz :=
  (λ '(a, x), (a, (λ '(b, y), (b, pearson x y)) <$> columnas t))
    <$> columnas t.

(** Lookup by label in a labelled list, and [matriz.loc[a, b]]. *)
Fixpoint asociado {A} (nombre : string) (l : list (string * A)) : option A :=
  match l with
  | [] => None
  | (n, v) :: resto =>
      if String.eqb n nombre then Some v else asociado nombre resto
  end.

Definition entrada (matriz : Matriz) (a b : string) : option f64 :=
  fila ← asociado a matriz; asociado b fila.

(** ** Arithmetic as the machine rounds it *)

(** Where the result of an analysis is a number that depends on rounding,
    the operations that produce it are a parameter of the analysis: the
    float64 quotient and difference (the exact result rounded to a float64,
    an infinity, or NaN), and the sample variance and covariance of pandas
    on the values they are left with once the missing ones are masked, whose
    sums pandas and numpy accumulate in an order of their own. *)
Record Aritmetica := {
  division : f64 → f64 → f64;
  resta : f64 → f64 → f64;
  varianza_muestral : list f64 → f64;
  covarianza_muestral : list (f64 * f64) → f64 }.

(** [x / y] and [x - y]: NaN when either operand is NaN. *)
Definition dividir (A : Aritmetica) (x y : f64) : f64 :=
  if isna x || isna y then NaN else division A x y.

Definition restar (A : Aritmetica) (x y : f64) : f64 :=
  if isna x || isna y then NaN else resta A x y.

Module Redondeo.
(** [data / data.shift(1) - 1], the value before the first being missing. *)
Fixpoint cambios_desde (A : Aritmetica) (previo : f64) (l : list f64)
    : list f64 :=
  match l with
  | [] => []
  | x :: l' => restar A (dividir A x previo) (Fin 1) :: cambios_desde A x l'
  end.

(** [pct_change()], with the forward fill of pandas up to version 2 when
    [relleno] is set. *)
Definition pct_change (A : Aritmetica) (relleno : bool) (l : list f64)
    : list f64 :=
  cambios_desde A NaN (if relleno then ffill_desde NaN l else l).

(** [serie.pct_change()], the labels kept. *)
Definition serie_pct_change (A : Aritmetica) (relleno : bool) (s : Serie)
    : Serie :=
  zip s.*1 (pct_change A relleno s.*2).

(** [Series.var()]: the sample variance of the present values. *)
Definition var (A : Aritmetica) (l : list f64) : f64 :=
  varianza_muestral A (validos l).

(** [a.cov(b)]: the sample covariance of the pairs the two series hold at
    their common labels with both values present. *)
Definition cov (A : Aritmetica) (a b : Serie) : f64 :=
  covarianza_muestral A (alinear a b).
End Redondeo.


(** ** [AnalizadorMercadoArgentino] *)

(** A row of the frame [obtener_dataframe_historico] builds, indexed by
    [fecha]. *)
Module Registro.
Record t := mk {
  fecha : datetime;
  simbolo : string;
  apertura : f64;
  maximo : f64;
  minimo : f64;
  cierre : f64;
  volumen : f64 }.
End Registro.

Abbreviation Historico := (list Registro.t).

Definition registro_de (cotizacion : Cotizacion.t) : Registro.t :=
  {| Registro.fecha := Cotizacion.timestamp cotizacion;
     Registro.simbolo := Cotizacion.simbolo cotizacion;
     Registro.apertura := Cotizacion.apertura cotizacion;
     Registro.maximo := Cotizacion.maximo cotizacion;
     Registro.minimo := Cotizacion.minimo cotizacion;
     Registro.cierre := Cotizacion.cierre cotizacion;
     Registro.volumen := Cotizacion.volumen_nominal cotizacion |}.

(** [df['cierre']]. *)
Definition serie_cierre (df : Historico) : Serie :=
  (λ r, (Registro.fecha r, Registro.cierre r)) <$> df.

(** [serie.pct_change()], the labels kept. *)
Definition serie_pct_change (relleno : bool) (s : Serie) : Serie :=
  zip s.*1 (pct_change relleno s.*2).

(** [df.loc[fechas]]: for each label in turn, the rows that carry it. *)
Definition loc (df : Historico) (fechas : list datetime) : Historico :=
  fechas ≫= λ t, filter (λ r, Registro.fecha r = t) df.

Section Analizador.
Context {W : Type} (yf : Entorno W) (relleno : bool) (A : Aritmetica).

(** [obtener_dataframe_historico]. *)
Definition obtener_dataframe_historico (simbolo : string) (desde : datetime)
    (hasta : option datetime) (intervalo : Intervalo) (m : Mundo W)
    : option Historico * Mundo W :=
  let hasta := default (now yf (estado m)) hasta in
  let solicitud :=
    {| SolicitudHistorico.simbolo := simbolo;
       SolicitudHistorico.desde := Some desde;
       SolicitudHistorico.hasta := Some hasta;
       SolicitudHistorico.intervalo := intervalo;
       SolicitudHistorico.ajustado := true |} in
  let '(respuesta, m') := obtener_historico yf solicitud m in
  if bool_decide (RespuestaHistorico.estado respuesta ≠ OK)
     || bool_decide (RespuestaHistorico.datos respuesta = [])
  then (None, m')
  else (Some (registro_de <$> RespuestaHistorico.datos respuesta), m').

(** [calcular_rendimiento]: total return, annualised return, volatility. *)
Definition calcular_rendimiento (df : option Historico) : f64 * f64 * f64 :=
  match df with
  | None | Some [] => (Fin 0, Fin 0, Fin 0)
  | Some ((primera :: _) as filas) =>
      let ultima := List.last filas primera in
      let primer_precio := Registro.cierre primera in
      let ultimo_precio := Registro.cierre ultima in
      let rendimiento_total :=
        fmul (fdiv (fsub ultimo_precio primer_precio) primer_precio)
             (Fin 100) in
      let dias :=
        days_between (Registro.fecha ultima) (Registro.fecha primera) in
      let rendimiento_anualizado :=
        if (0 <? dias)%Z then
          fmul (fsub (fpow (fadd (Fin 1) (fdiv rendimiento_total (Fin 100)))
                           (fdiv (Fin 365) (fZ dias)))
                     (Fin 1))
               (Fin 100)
        else Fin 0 in
      let rendimientos_diarios :=
        (λ x, fmul x (Fin 100))
          <$> pct_change relleno (Registro.cierre <$> filas) in
      let volatilidad := std rendimientos_diarios in
      (rendimiento_total, rendimiento_anualizado, volatilidad)
  end.

(** The loop of [calcular_matriz_correlacion] that fills
    [datos_combinados]. *)
Definition combinar (simbolos : list string) (desde : datetime)
    (hasta : datetime) (m : Mundo W) : Tabla * Mundo W :=
  foldl (λ '(datos_combinados, m) simbolo,
           let '(df, m') :=
             obtener_dataframe_historico simbolo desde (Some hasta) DIA_1 m in
           match df with
           | Some df =>
               (asignar_columna datos_combinados simbolo (serie_cierre df), m')
           | None => (datos_combinados, m')
           end)
        (tabla_vacia, m) simbolos.

(** [calcular_matriz_correlacion]. *)
Definition calcular_matriz_correlacion (simbolos : list string)
    (desde : datetime) (hasta : option datetime) (m : Mundo W)
    : option Matriz * Mundo W :=
  let hasta := default (now yf (estado m)) hasta in
  let '(datos_combinados, m') := combinar simbolos desde hasta m in
  if tabla_empty datos_combinados then (None, m')
  else
    let rendimientos :=
      tabla_dropna (tabla_pct_change relleno datos_combinados) in
    (Some (corr rendimientos), m').

(** [calcular_beta] ([indice] is "MERVAL" when the caller omits it). *)
Definition calcular_beta (simbolo indice : string)
    (desde hasta : option datetime) (m : Mundo W) : option f64 * Mundo W :=
  let desde := default (now yf (estado m) - timedelta_days 365)%Z desde in
  let hasta := default (now yf (estado m)) hasta in
  let '(df_activo, m1) :=
    obtener_dataframe_historico simbolo desde (Some hasta) DIA_1 m in
  let '(df_indice, m2) :=
    obtener_dataframe_historico indice desde (Some hasta) DIA_1 m1 in
  match df_activo, df_indice with
  | Some df_activo, Some df_indice =>
      let fechas_comunes :=
        interseccion (Registro.fecha <$> df_activo)
                     (Registro.fecha <$> df_indice) in
      if length fechas_comunes <? 30 then (None, m2)
      else
        let df_activo := loc df_activo fechas_comunes in
        let df_indice := loc df_indice fechas_comunes in
        let rendimientos_activo :=
          dropna (Redondeo.serie_pct_change A relleno (serie_cierre df_activo)) in
        let rendimientos_indice :=
          dropna (Redondeo.serie_pct_change A relleno (serie_cierre df_indice)) in
        let covarianza :=
          Redondeo.cov A rendimientos_activo rendimientos_indice in
        let varianza := Redondeo.var A rendimientos_indice.*2 in
        if feq0 varianza then (None, m2)
        else (Some (dividir A covarianza varianza), m2)
  | _, _ => (None, m2)
  end.
End Analizador.

(** ** Reference definitions for the client *)

(** A row is complete when none of its open/high/low/close is absent. *)
Definition completa (row : RawRow) : Prop :=
  ¬ ausente (Open row) ∧ ¬ ausente (High row) ∧
  ¬ ausente (Low row) ∧ ¬ ausente (Close row).

#[global] Instance completa_dec row : Decision (completa row).
Proof. unfold completa. apply _. Defined.

(** The lookback windows of [obtener_ultima_cotizacion], in source order. *)
Definition VENTANAS : list string := ["1d"; "5d"; "1mo"].

(** How a walk over the windows ends: a provider call raised, every window
    was empty, or a window gave the frame [df]. *)
Inductive Ventana := VFallo | VVacio | VMarco (df : DataFrame).

Section ClienteReferencia.
Context {W : Type} (yf : Entorno W).

(** Try the windows in order and stop at the first whose frame has a row. *)
Fixpoint escalar (ventanas : list string) (simbolo_yahoo : string)
    (m : Mundo W) : Ventana * Mundo W :=
  match ventanas with
  | [] => (VVacio, m)
  | p :: resto =>
      match ticker_history yf simbolo_yahoo (Periodo p) m with
      | (inl _, m') => (VFallo, m')
      | (inr df, m') =>
          if df_empty df then escalar resto simbolo_yahoo m'
          else (VMarco df, m')
      end
  end.

(** The latest-bar query as the specification words it: try the windows in
    order and stop at the first that yields a bar after normalisation. *)
Fixpoint ultima_segun_enunciado (ventanas : list string)
    (simbolo_yahoo simbolo : string) (m : Mundo W)
    : option Cotizacion.t * Mundo W :=
  match ventanas with
  | [] => (None, m)
  | p :: resto =>
      match ticker_history yf simbolo_yahoo (Periodo p) m with
      | (inl _, m') => (None, m')
      | (inr df, m') =>
          match _convert_yf_history_to_cotizaciones df simbolo with
          | [] => ultima_segun_enunciado resto simbolo_yahoo simbolo m'
          | c :: _ => (Some c, m')
          end
      end
  end.

(** [obtener_ultima_cotizacion] with the "YPF" correction left out. *)
Definition obtener_ultima_cotizacion_sin_ajuste (simbolo : string)
    (m : Mundo W) : option Cotizacion.t * Mundo W :=
  ultima_cotizacion_con yf (_get_yahoo_symbol simbolo) simbolo m.
End ClienteReferencia.

Section HistoricoReferencia.
Context {W : Type} (yf : Entorno W).

(** The request [obtener_historico] sends for [solicitud]: the bounds of the
    request, a year back from now and now when they are omitted. *)
Definition rango_solicitado (solicitud : SolicitudHistorico.t) (m : Mundo W)
    : HistoryArgs :=
  Rango
    (fecha_de (default (now yf (estado m) - timedelta_days 365)%Z
                       (SolicitudHistorico.desde solicitud)))
    (fecha_de (default (now yf (estado m))
                       (SolicitudHistorico.hasta solicitud)))
    (Intervalo_value (SolicitudHistorico.intervalo solicitud))
    (SolicitudHistorico.ajustado solicitud).
End HistoricoReferencia.

(** The failure modes of a historical query, by what the provider did. *)
Inductive ModoFallo := ProviderError | NoDataInRange | NormalizationFailure.

#[global] Instance ModoFallo_eq_dec : EqDecision ModoFallo.
Proof. solve_decision. Defined.

(** The code [obtener_historico] reports for each failure mode. *)
Definition codigo_de_fallo (modo : ModoFallo) : CodigoError :=
  match modo with
  | ProviderError => DATA_003
  | NoDataInRange => DATA_002
  | NormalizationFailure => DATA_003
  end.



(** Sum, mean, and sum of products of deviations over the reals. *)
Definition Rsuma (l : list R) : R := foldr Rplus 0%R l.
Definition Rmedia (l : list R) : R := (Rsuma l / INR (length l))%R.
Definition Rdesvios (pares : list (R * R)) : R :=
  Rsuma ((λ '(x, y), ((x - Rmedia pares.*1) * (y - Rmedia pares.*2))%R)
           <$> pares).

Section CorrelacionReferencia.
Context {W : Type} (yf : Entorno W) (relleno : bool).

(** What each symbol's retrieval gave, in the order of the loop of
    [calcular_matriz_correlacion]. *)
Fixpoint descargas (simbolos : list string) (desde hasta : datetime)
    (m : Mundo W) : list (option Historico) :=
  match simbolos with
  | [] => []
  | simbolo :: resto =>
      let '(df, m') :=
        obtener_dataframe_historico yf simbolo desde (Some hasta) DIA_1 m in
      df :: descargas resto desde hasta m'
  end.

End CorrelacionReferencia.

(** ** Concrete providers *)

Definition fila (t : datetime) (o h l c : f64) (v : option f64) : RawRow :=
  {| Index := t; Open := o; High := h; Low := l; Close := c; Volume := v |}.

Definition mundo_inicial : Mundo unit := {| estado := (); llamadas := [] |}.

(** A session in which the instrument did not trade: the row is there, its
    prices are missing. *)
Definition fila_sin_precio (t : datetime) : RawRow :=
  fila t NaN NaN NaN NaN (Some (Fin 0)).
Definition fila_buena (t : datetime) (c : R) : RawRow :=
  fila t (Fin c) (Fin c) (Fin c) (Fin c) (Some (Fin 1000)).

(** The last session has no prices yet: it is the only row of the 1-day
    window, and the 5-day window holds a priced session before it. *)
Definition proveedor_sin_precio_hoy : Entorno unit :=
  {| history := λ _ args w,
       match args with
       | Periodo p =>
           if String.eqb p "1d"
           then (inr [fila_sin_precio (timedelta_days 5)], w)
           else if String.eqb p "5d"
           then (inr [fila_buena (timedelta_days 4) 100;
                      fila_sin_precio (timedelta_days 5)], w)
           else (inr [], w)
       | Rango _ _ _ _ => (inr [fila_sin_precio (timedelta_days 5)], w)
       end;
     info := λ _ w, (inr ∅, w);
     now := λ _, 0%Z |}.

(** Every request raises. *)
Definition proveedor_caido : Entorno unit :=
  {| history := λ _ _ w, (inl "timeout", w);
     info := λ _ w, (inl "timeout", w);
     now := λ _, 0%Z |}.

(** Every request is answered with an empty frame. *)
Definition proveedor_vacio : Entorno unit :=
  {| history := λ _ _ w, (inr [], w);
     info := λ _ w, (inr ∅, w);
     now := λ _, 0%Z |}.

(** "A" is unknown to the provider, every other symbol has one good row. *)
Definition proveedor_parcial : Entorno unit :=
  {| history := λ sy _ w,
       if String.eqb sy "A.BA" then (inl "No data found", w)
       else (inr [fila_buena (timedelta_days 7) 50], w);
     info := λ _ w, (inr ∅, w);
     now := λ _, 0%Z |}.

(** The provider describes every symbol with a long name. *)
Definition proveedor_con_info : Entorno unit :=
  {| history := λ _ _ w, (inr [fila_buena (timedelta_days 7) 50], w);
     info := λ _ w, (inr {[ "longName" := "S&P MERVAL" ]}, w);
     now := λ _, 0%Z |}.

Definition cliente_inicial : Cliente unit :=
  {| _activos_cache := ∅; mundo := mundo_inicial |}.

(** A one-bar series: a single session closing at 100. *)
Definition registro_unico : Registro.t :=
  {| Registro.fecha := timedelta_days 19000;
     Registro.simbolo := "GGAL";
     Registro.apertura := Fin 98;
     Registro.maximo := Fin 101;
     Registro.minimo := Fin 97;
     Registro.cierre := Fin 100;
     Registro.volumen := Fin 1000 |}.

(** A bar of "GGAL" closing at [c] on day [dia]. *)
Definition barra (dia : Z) (c : R) : Registro.t :=
  registro_de (cotizacion_de_fila "GGAL" (fila_buena (timedelta_days dia) c)).

(** Every symbol has two sessions, closing at 100 and at 110. *)
Definition proveedor_dos_dias : Entorno unit :=
  {| history := λ _ _ w,
       (inr [fila_buena (timedelta_days 1) 100;
             fila_buena (timedelta_days 2) 110], w);
     info := λ _ w, (inr ∅, w);
     now := λ _, timedelta_days 30 |}.




(** Every symbol has the same 31 daily sessions, all closing at 100. *)
Definition sesiones_planas : list RawRow :=
  (λ k, fila_buena (timedelta_days (Z.of_nat k)) 100) <$> seq 1 31.



Definition historico_plano (simbolo : string) : Historico :=
  registro_de <$> (cotizacion_de_fila simbolo <$> sesiones_planas).


(** The 1-day window is empty, the 5-day window has one bar, and the 1-month
    window, were it asked, another. *)
Definition proveedor_cinco_dias : Entorno unit :=
  {| history := λ _ args w,
       match args with
       | Periodo p =>
           if String.eqb p "1d" then (inr [], w)
           else if String.eqb p "5d"
           then (inr [fila_buena (timedelta_days 4) 100], w)
           else (inr [fila_buena (timedelta_days 2) 90;
                      fila_buena (timedelta_days 4) 100], w)
       | Rango _ _ _ _ => (inr [], w)
       end;
     info := λ _ w, (inr ∅, w);
     now := λ _, timedelta_days 5 |}.

Definition solicitud_de (simbolo : string) : SolicitudHistorico.t :=
  {| SolicitudHistorico.simbolo := simbolo;
     SolicitudHistorico.desde := Some 0%Z;
     SolicitudHistorico.hasta := Some (timedelta_days 30);
     SolicitudHistorico.intervalo := DIA_1;
     SolicitudHistorico.ajustado := true |}.

(** ** Predicates and providers for the properties of the client *)

(** A bar is priced when none of its four prices is missing. *)
Definition con_precios (c : Cotizacion.t) : Prop :=
  ¬ ausente (Cotizacion.apertura c) ∧ ¬ ausente (Cotizacion.maximo c) ∧
  ¬ ausente (Cotizacion.minimo c) ∧ ¬ ausente (Cotizacion.cierre c).

(** The 1-day window is empty; the longer windows hold a session without
    prices and three priced sessions after it, oldest first. *)
Definition proveedor_semana : Entorno unit :=
  {| history := λ _ args w,
       match args with
       | Periodo p =>
           if String.eqb p "1d" then (inr [], w)
           else (inr [fila_sin_precio (timedelta_days 1);
                      fila_buena (timedelta_days 2) 90;
                      fila_buena (timedelta_days 3) 95;
                      fila_buena (timedelta_days 4) 100], w)
       | Rango _ _ _ _ => (inr [], w)
       end;
     info := λ _ w, (inr ∅, w);
     now := λ _, timedelta_days 5 |}.

Section ActivoSigue.
Context {W : Type} (yf : Entorno W).

(** The states a client can be in after it was in [c]: [obtener_activo]
    calls and changes of the world, as for [alcanzable]. *)
Inductive sigue (c : Cliente W) : Cliente W → Prop :=
  | sigue_aqui : sigue c c
  | sigue_activo c' simbolo :
      sigue c c' → sigue c (obtener_activo yf simbolo c').2
  | sigue_mundo c' m :
      sigue c c' →
      sigue c {| _activos_cache := _activos_cache c'; mundo := m |}.

(** The requests of an uncached [obtener_activo], in the order it can send
    them. *)
Definition solicitudes_activo (simbolo_yahoo : string) : list Llamada :=
  [LlInfo simbolo_yahoo; LlHistory simbolo_yahoo (Periodo "1d");
   LlHistory simbolo_yahoo (Periodo "1d")].
End ActivoSigue.

(** ** [ActivoFinanciero.to_dict] and [ActivoFinanciero.from_dict] *)

Definition TipoActivo_value (t : TipoActivo) : string :=
  match t with
  | ACCION => "ACCION" | CEDEAR => "CEDEAR" | BONO => "BONO" | ETF => "ETF"
  | OPCION => "OPCION" | FUTURO => "FUTURO"
  end.

Definition PanelMercado_value (p : PanelMercado) : string :=
  match p with
  | LIDER => "LIDER" | GENERAL => "GENERAL" | PYMES => "PYMES"
  | BONOS => "BONOS" | LETRAS => "LETRAS"
  end.

Definition Mercado_value (m : Mercado) : string :=
  match m with
  | BYMA => "BYMA" | MAE => "MAE" | MAV => "MAV" | ROFEX => "ROFEX"
  | NYSE => "NYSE" | NASDAQ => "NASDAQ"
  end.

Definition Moneda_value (m : Moneda) : string :=
  match m with
  | ARS => "ARS" | USD => "USD" | USD_LINKED => "USD-LINKED" | EUR => "EUR"
  end.

(** The members of each enumeration, in the order of their definition. *)
Definition TipoActivo_miembros : list TipoActivo :=
  [ACCION; CEDEAR; BONO; ETF; OPCION; FUTURO].
Definition PanelMercado_miembros : list PanelMercado :=
  [LIDER; GENERAL; PYMES; BONOS; LETRAS].
Definition Mercado_miembros : list Mercado :=
  [BYMA; MAE; MAV; ROFEX; NYSE; NASDAQ].
Definition Moneda_miembros : list Moneda := [ARS; USD; USD_LINKED; EUR].

(** The dictionaries [to_dict] writes and [from_dict] reads: every value is
    a string or [None]. *)
Abbreviation Dict := (gmap string (option string)).

Inductive Excepcion :=
  | KeyError (clave : string)
  | ValueError (valor : option string).

(** [data[clave]]. *)
Definition item (data : Dict) (clave : string) : Excepcion + option string :=
  match data !! clave with
  | Some v => inr v
  | None => inl (KeyError clave)
  end.

(** [E(valor)] for an enumeration [E]: the member whose value is [valor]. *)
Definition miembro {E : Type} (value : E → string) (miembros : list E)
    (valor : option string) : Excepcion + E :=
  match valor with
  | Some s =>
      match List.find (λ e, String.eqb (value e) s) miembros with
      | Some e => inr e
      | None => inl (ValueError valor)
      end
  | None => inl (ValueError None)
  end.

(** [E(data[clave]) if clave in data else omision]. *)
Definition miembro_o {E : Type} (value : E → string) (miembros : list E)
    (data : Dict) (clave : string) (omision : E) : Excepcion + E :=
  match data !! clave with
  | Some valor => miembro value miembros valor
  | None => inr omision
  end.

(** [data.get(clave)]. *)
Definition get (data : Dict) (clave : string) : option string :=
  default None (data !! clave).

(** What a call does: it returns, it raises, or it builds an object with
    [None] in a field declared [str], which the records here do not hold. *)
Inductive Resultado (A : Type) :=
  | Devuelve (a : A)
  | Lanza (e : Excepcion)
  | FueraDeTipo.
Arguments Devuelve {A}.
Arguments Lanza {A}.
Arguments FueraDeTipo {A}.

Definition ActivoFinanciero_to_dict (self : ActivoFinanciero.t) : Dict :=
  list_to_map
    [ ("simbolo", Some (ActivoFinanciero.simbolo self));
      ("tipo", Some (TipoActivo_value (ActivoFinanciero.tipo self)));
      ("denominacion", Some (ActivoFinanciero.denominacion self));
      ("panel", Some (PanelMercado_value (ActivoFinanciero.panel self)));
      ("mercado", Some (Mercado_value (ActivoFinanciero.mercado self)));
      ("moneda", Some (Moneda_value (ActivoFinanciero.moneda self)));
      ("codigoISIN", ActivoFinanciero.codigo_isin self);
      ("codigoCFI", ActivoFinanciero.codigo_cfi self);
      ("simboloYahoo", ActivoFinanciero.simbolo_yahoo self) ].

(** The arguments of the constructor are evaluated in the order they are
    written, so the first that raises decides the exception. *)
Definition ActivoFinanciero_from_dict (data : Dict)
    : Resultado ActivoFinanciero.t :=
  match item data "simbolo" with
  | inl e => Lanza e
  | inr simbolo =>
  match item data "tipo" with
  | inl e => Lanza e
  | inr tipo =>
  match miembro TipoActivo_value TipoActivo_miembros tipo with
  | inl e => Lanza e
  | inr tipo =>
  match item data "denominacion" with
  | inl e => Lanza e
  | inr denominacion =>
  match miembro_o PanelMercado_value PanelMercado_miembros data "panel" LIDER
  with
  | inl e => Lanza e
  | inr panel =>
  match miembro_o Mercado_value Mercado_miembros data "mercado" BYMA with
  | inl e => Lanza e
  | inr mercado =>
  match miembro_o Moneda_value Moneda_miembros data "moneda" ARS with
  | inl e => Lanza e
  | inr moneda =>
  match simbolo, denominacion with
  | Some simbolo, Some denominacion =>
      Devuelve
        {| ActivoFinanciero.simbolo := simbolo;
           ActivoFinanciero.tipo := tipo;
           ActivoFinanciero.denominacion := denominacion;
           ActivoFinanciero.panel := panel;
           ActivoFinanciero.mercado := mercado;
           ActivoFinanciero.moneda := moneda;
           ActivoFinanciero.codigo_isin := get data "codigoISIN";
           ActivoFinanciero.codigo_cfi := get data "codigoCFI";
           ActivoFinanciero.simbolo_yahoo := get data "simboloYahoo" |}
  | _, _ => FueraDeTipo
  end end end end end end end end.

(** ** [ClienteYFinanceMCP.buscar_activos] *)

(** [next((k for k, v in simbolos_mapping.items() if v == ticker_symbol),
    ticker_symbol)]: the first key of the table, in its order, that maps to
    the provider symbol. *)
Definition simbolo_original (ticker_symbol : string) : string :=
  match List.find (λ kv, String.eqb kv.2 ticker_symbol) SIMBOLOS_TABLA with
  | Some kv => kv.1
  | None => ticker_symbol
  end.

(** ['.BA' in ticker_symbol or ticker_symbol in simbolos_mapping.values()]. *)
Definition es_argentino (ticker_symbol : string) : bool :=
  contains ".BA" ticker_symbol
  || bool_decide (ticker_symbol ∈ SIMBOLOS_TABLA.*2).

(** The instrument built for one search hit. *)
Definition activo_de_resultado (ticker_info : Info) : ActivoFinanciero.t :=
  let ticker_symbol := default "" (ticker_info !! "symbol") in
  {| ActivoFinanciero.simbolo := simbolo_original ticker_symbol;
     ActivoFinanciero.tipo := ACCION;
     ActivoFinanciero.denominacion :=
       default ticker_symbol (ticker_info !! "shortName");
     ActivoFinanciero.panel := LIDER;
     ActivoFinanciero.mercado :=
       if contains ".BA" ticker_symbol then BYMA else NYSE;
     ActivoFinanciero.moneda :=
       if contains ".BA" ticker_symbol then ARS else USD;
     ActivoFinanciero.codigo_isin := None;
     ActivoFinanciero.codigo_cfi := None;
     ActivoFinanciero.simbolo_yahoo := Some ticker_symbol |}.

Section Busqueda.
Context {W : Type}.
(** [yf.Tickers.search]: the hits for a query, or an exception. *)
Context (search : string → W → (Exc + list Info) * W).

Definition buscar_activos (query : string) (w : W)
    : list ActivoFinanciero.t * W :=
  match search query w with
  | (inl _, w') => ([], w')
  | (inr tickers, w') =>
      (foldl (λ resultados ticker_info,
                let ticker_symbol := default "" (ticker_info !! "symbol") in
                if es_argentino ticker_symbol
                then resultados ++ [activo_de_resultado ticker_info]
                else resultados)
             [] (take 10 tickers), w')
  end.
End Busqueda.

Definition buscador_ejemplo : string → unit → (Exc + list Info) * unit :=
  λ _ w,
    (inr [ {[ "symbol" := "YPFD.BA"; "shortName" := "YPF" ]};
           {[ "symbol" := "AAPL" ]};
           {[ "symbol" := "GGAL" ]} ], w).

(** ** [server.py]: the [/historico] endpoint *)

(** The request model of the endpoint. *)
Module HistoricoRequest.
Record t := mk {
  simbolo : string;
  desde : option datetime;
  hasta : option datetime;
  intervalo : Intervalo }.
End HistoricoRequest.

(** What [obtener_historico] reads of its argument. Python looks an
    attribute up by name when the expression that reads it is evaluated, and
    an object without it raises AttributeError there. *)
Module Atributos.
Record t := mk {
  simbolo : Exc + string;
  desde : Exc + option datetime;
  hasta : Exc + option datetime;
  intervalo : Exc + Intervalo;
  ajustado : Exc + bool }.
End Atributos.

Definition atributos_de_solicitud (solicitud : SolicitudHistorico.t)
    : Atributos.t :=
  {| Atributos.simbolo := inr (SolicitudHistorico.simbolo solicitud);
     Atributos.desde := inr (SolicitudHistorico.desde solicitud);
     Atributos.hasta := inr (SolicitudHistorico.hasta solicitud);
     Atributos.intervalo := inr (SolicitudHistorico.intervalo solicitud);
     Atributos.ajustado := inr (SolicitudHistorico.ajustado solicitud) |}.

(** A [HistoricoRequest] has no field [ajustado]. *)
Definition atributos_de_request (req : HistoricoRequest.t) : Atributos.t :=
  {| Atributos.simbolo := inr (HistoricoRequest.simbolo req);
     Atributos.desde := inr (HistoricoRequest.desde req);
     Atributos.hasta := inr (HistoricoRequest.hasta req);
     Atributos.intervalo := inr (HistoricoRequest.intervalo req);
     Atributos.ajustado :=
       inl "'HistoricoRequest' object has no attribute 'ajustado'" |}.

Section Servidor.
Context {W : Type} (yf : Entorno W).

(** [ClienteYFinanceMCP.obtener_historico] on an argument of any class.
    [simbolo], [desde], [hasta] and [intervalo] are read under the outer
    [try]; [ajustado] is first read among the arguments of
    [ticker.history], under the inner [try], after [yf.Ticker] has built its
    handle (which asks the provider nothing) and before the call is made.
    Once all five are read the method goes on as [obtener_historico]. *)
Definition obtener_historico_de (solicitud : Atributos.t) (m : Mundo W)
    : RespuestaHistorico.t * Mundo W :=
  let error_general (e : Exc) :=
    (respuesta_error ("Error en la obtención de datos: " +:+ e) DATA_003, m) in
  match Atributos.simbolo solicitud with
  | inl e => error_general e
  | inr simbolo =>
  let simbolo_yahoo := _get_yahoo_symbol simbolo in
  match Atributos.desde solicitud with
  | inl e => error_general e
  | inr desde =>
  match Atributos.hasta solicitud with
  | inl e => error_general e
  | inr hasta =>
  match Atributos.intervalo solicitud with
  | inl e => error_general e
  | inr intervalo =>
  match Atributos.ajustado solicitud with
  | inl ticker_error =>
      (respuesta_error
         ("Error al obtener datos de Yahoo Finance para el símbolo "
            +:+ simbolo_yahoo +:+ ": " +:+ ticker_error)
         DATA_003, m)
  | inr ajustado =>
      obtener_historico yf
        {| SolicitudHistorico.simbolo := simbolo;
           SolicitudHistorico.desde := desde;
           SolicitudHistorico.hasta := hasta;
           SolicitudHistorico.intervalo := intervalo;
           SolicitudHistorico.ajustado := ajustado |} m
  end end end end end.

(** The handler of [POST /historico], before [respuesta.to_dict()]. *)
Definition endpoint_historico (req : HistoricoRequest.t) (m : Mundo W)
    : RespuestaHistorico.t * Mundo W :=
  obtener_historico_de (atributos_de_request req) m.
End Servidor.

(** ** Further definitions for the analytics *)

Section Marco.
Context {W : Type} (yf : Entorno W).

(** The request [obtener_dataframe_historico] builds. *)
Definition solicitud_marco (simbolo : string) (desde : datetime)
    (hasta : option datetime) (intervalo : Intervalo) (m : Mundo W)
    : SolicitudHistorico.t :=
  {| SolicitudHistorico.simbolo := simbolo;
     SolicitudHistorico.desde := Some desde;
     SolicitudHistorico.hasta := Some (default (now yf (estado m)) hasta);
     SolicitudHistorico.intervalo := intervalo;
     SolicitudHistorico.ajustado := true |}.

(** The symbols of [simbolos] whose retrieval, in the order of the loop of
    [calcular_matriz_correlacion], gave data. *)
Definition con_datos (simbolos : list string) (desde hasta : datetime)
    (m : Mundo W) (simbolo : string) : Prop :=
  ∃ i df, simbolos !! i = Some simbolo ∧
          descargas yf simbolos desde hasta m !! i = Some (Some df).
End Marco.

(** A price: a finite, positive float. *)
Definition precio (x : f64) : Prop := ∃ p, x = Fin p ∧ (0 < p)%R.

(** The changes [x / previo - 1] along a series of reals. *)
Fixpoint Rcambios (previo : R) (l : list R) : list R :=
  match l with
  | [] => []
  | x :: l' => (x / previo - 1)%R :: Rcambios x l'
  end.

(** ** pandas: more statistics of a series *)

(** [serie.mean()]: the mean of the present values, NaN when there is
    none. *)
Definition mean (l : list f64) : f64 := media (validos l).

(** [x < 0] and [x != 0] on floats (NaN is not below zero and differs from
    zero). *)
Definition flt0 (x : f64) : bool :=
  match x with
  | NaN => false
  | Inf s => s
  | Fin r => Rneg r
  end.
Definition fne0 (x : f64) : bool := negb (feq0 x).

(** [np.maximum] and [np.minimum] on values that are not NaN. *)
Definition fmax (x y : f64) : f64 :=
  match x, y with
  | NaN, _ | _, NaN => NaN
  | Inf false, _ | _, Inf false => Inf false
  | Inf true, z | z, Inf true => z
  | Fin a, Fin b => Fin (Rmax a b)
  end.

Definition fmin (x y : f64) : f64 :=
  match x, y with
  | NaN, _ | _, NaN => NaN
  | Inf true, _ | _, Inf true => Inf true
  | Inf false, z | z, Inf false => z
  | Fin a, Fin b => Fin (Rmin a b)
  end.

(** [serie.cumprod()] and [serie.cummax()]: a missing value stays missing
    and does not enter the running product or maximum. *)
Fixpoint cumprod_desde (acumulado : f64) (l : list f64) : list f64 :=
  match l with
  | [] => []
  | x :: l' =>
      if isna x then NaN :: cumprod_desde acumulado l'
      else
        let acumulado := fmul acumulado x in
        acumulado :: cumprod_desde acumulado l'
  end.
Definition cumprod (l : list f64) : list f64 := cumprod_desde (Fin 1) l.

Fixpoint cummax_desde (maximo : f64) (l : list f64) : list f64 :=
  match l with
  | [] => []
  | x :: l' =>
      if isna x then NaN :: cummax_desde maximo l'
      else
        let maximo := fmax maximo x in
        maximo :: cummax_desde maximo l'
  end.
Definition cummax (l : list f64) : list f64 := cummax_desde (Inf true) l.

(** [serie.min()]: the least present value, NaN when there is none. *)
Definition serie_min (l : list f64) : f64 :=
  match validos l with
  | [] => NaN
  | x :: resto => foldl fmin x resto
  end.

(** ** [AnalizadorMercadoArgentino.calcular_ratios] *)

(** The dictionary [calcular_ratios] returns when it has data. *)
Record Ratios := {
  rendimiento_anualizado : f64;
  volatilidad_anualizada : f64;
  ratio_sharpe : f64;
  ratio_sortino : f64;
  maximo_drawdown : f64 }.

(** [df['cierre'].pct_change().dropna()]. *)
Definition rendimientos_diarios (relleno : bool) (df : Historico) : list f64 :=
  validos (pct_change relleno (Registro.cierre <$> df)).

(** The body of [calcular_ratios] once the frame is there. *)
Definition ratios_de (relleno : bool) (tasa_libre_riesgo : f64)
    (df : Historico) : Ratios :=
  let rendimientos_diarios := rendimientos_diarios relleno df in
  let rendimiento_anualizado :=
    fsub (fpow (fadd (Fin 1) (mean rendimientos_diarios)) (Fin 252)) (Fin 1) in
  let volatilidad_anualizada :=
    fmul (std rendimientos_diarios) (Fin (sqrt 252)) in
  let sharpe :=
    if fne0 volatilidad_anualizada
    then fdiv (fsub rendimiento_anualizado tasa_libre_riesgo)
              volatilidad_anualizada
    else Fin 0 in
  let rendimientos_negativos := filter (λ x, flt0 x) rendimientos_diarios in
  let volatilidad_downside :=
    if bool_decide (rendimientos_negativos ≠ [])
    then fmul (std rendimientos_negativos) (Fin (sqrt 252))
    else volatilidad_anualizada in
  let sortino :=
    if fne0 volatilidad_downside
    then fdiv (fsub rendimiento_anualizado tasa_libre_riesgo)
              volatilidad_downside
    else Fin 0 in
  let acumulado := cumprod (fadd (Fin 1) <$> rendimientos_diarios) in
  let maximo_valor := cummax acumulado in
  let drawdown :=
    zip_with (λ a mx, fdiv (fsub a mx) mx) acumulado maximo_valor in
  let max_drawdown := fmul (serie_min drawdown) (Fin 100) in
  {| rendimiento_anualizado := fmul rendimiento_anualizado (Fin 100);
     volatilidad_anualizada := fmul volatilidad_anualizada (Fin 100);
     ratio_sharpe := sharpe;
     ratio_sortino := sortino;
     maximo_drawdown := max_drawdown |}.

Section Ratios.
Context {W : Type} (yf : Entorno W) (relleno : bool).

(** [calcular_ratios]; the empty dictionary it returns without data is
    [None]. *)
Definition calcular_ratios (simbolo : string) (tasa_libre_riesgo : f64)
    (desde hasta : option datetime) (m : Mundo W) : option Ratios * Mundo W :=
  let desde := default (now yf (estado m) - timedelta_days 365)%Z desde in
  let hasta := default (now yf (estado m)) hasta in
  let '(df, m') :=
    obtener_dataframe_historico yf simbolo desde (Some hasta) DIA_1 m in
  match df with
  | None => (None, m')
  | Some df => (Some (ratios_de relleno tasa_libre_riesgo df), m')
  end.
End Ratios.

(** [serie.max()]: the greatest present value, NaN when there is none. *)
Definition serie_max (l : list f64) : f64 :=
  match validos l with
  | [] => NaN
  | x :: resto => foldl fmax x resto
  end.

(** [x <= y] on floats: false when either is NaN. *)
Definition fle (x y : f64) : Prop :=
  match x, y with
  | NaN, _ | _, NaN => False
  | Inf true, _ | _, Inf false => True
  | Fin a, Fin b => (a <= b)%R
  | _, _ => False
  end.

(** ** [AnalizadorMercadoArgentino.comparar_activos] *)

(** The entry of one symbol; the four keys that describe the instrument are
    there when its lookup succeeded. *)
Module Comparacion.
Record t := mk {
  rendimiento_total : f64;
  rendimiento_anualizado : f64;
  volatilidad : f64;
  precio_maximo : f64;
  precio_minimo : f64;
  precio_actual : f64;
  volumen_promedio : f64;
  cantidad_datos : nat;
  denominacion : option string;
  tipo : option string;
  mercado : option string;
  moneda : option string }.
End Comparacion.

(** The entry as it is first written; [df['cierre'].iloc[-1]] raises
    IndexError on a frame without rows. *)
Definition indicadores (relleno : bool) (df : Historico)
    : option Comparacion.t :=
  let '(rendimiento_total, rendimiento_anualizado, volatilidad) :=
    calcular_rendimiento relleno (Some df) in
  match df with
  | [] => None
  | primera :: _ =>
      Some
        {| Comparacion.rendimiento_total := rendimiento_total;
           Comparacion.rendimiento_anualizado := rendimiento_anualizado;
           Comparacion.volatilidad := volatilidad;
           Comparacion.precio_maximo := serie_max (Registro.cierre <$> df);
           Comparacion.precio_minimo := serie_min (Registro.cierre <$> df);
           Comparacion.precio_actual :=
             Registro.cierre (List.last df primera);
           Comparacion.volumen_promedio := mean (Registro.volumen <$> df);
           Comparacion.cantidad_datos := length df;
           Comparacion.denominacion := None;
           Comparacion.tipo := None;
           Comparacion.mercado := None;
           Comparacion.moneda := None |}
  end.

(** [if activo: resultados[simbolo][...] = ...]. *)
Definition describir (entrada : Comparacion.t)
    (activo : option ActivoFinanciero.t) : Comparacion.t :=
  match activo with
  | None => entrada
  | Some activo =>
      {| Comparacion.rendimiento_total := Comparacion.rendimiento_total entrada;
         Comparacion.rendimiento_anualizado :=
           Comparacion.rendimiento_anualizado entrada;
         Comparacion.volatilidad := Comparacion.volatilidad entrada;
         Comparacion.precio_maximo := Comparacion.precio_maximo entrada;
         Comparacion.precio_minimo := Comparacion.precio_minimo entrada;
         Comparacion.precio_actual := Comparacion.precio_actual entrada;
         Comparacion.volumen_promedio := Comparacion.volumen_promedio entrada;
         Comparacion.cantidad_datos := Comparacion.cantidad_datos entrada;
         Comparacion.denominacion :=
           Some (ActivoFinanciero.denominacion activo);
         Comparacion.tipo :=
           Some (TipoActivo_value (ActivoFinanciero.tipo activo));
         Comparacion.mercado :=
           Some (Mercado_value (ActivoFinanciero.mercado activo));
         Comparacion.moneda :=
           Some (Moneda_value (ActivoFinanciero.moneda activo)) |}
  end.

Section Comparar.
Context {W : Type} (yf : Entorno W) (relleno : bool).

(** The loop of [comparar_activos] from [resultados] on; [None] when an
    iteration raises. *)
Fixpoint comparar_desde (simbolos : list string) (desde hasta : datetime)
    (resultados : gmap string Comparacion.t) (c : Cliente W)
    : option (gmap string Comparacion.t * Cliente W) :=
  match simbolos with
  | [] => Some (resultados, c)
  | simbolo :: resto =>
      let '(df, m') :=
        obtener_dataframe_historico yf simbolo desde (Some hasta) DIA_1
          (mundo c) in
      let c := {| _activos_cache := _activos_cache c; mundo := m' |} in
      match df with
      | Some df =>
          match indicadores relleno df with
          | None => None
          | Some entrada =>
              let '(activo, c) := obtener_activo yf simbolo c in
              comparar_desde resto desde hasta
                (<[simbolo := describir entrada activo]> resultados) c
          end
      | None => comparar_desde resto desde hasta resultados c
      end
  end.

(** [comparar_activos]. *)
Definition comparar_activos (simbolos : list string) (desde : datetime)
    (hasta : option datetime) (c : Cliente W)
    : option (gmap string Comparacion.t * Cliente W) :=
  let hasta := default (now yf (estado (mundo c))) hasta in
  comparar_desde simbolos desde hasta ∅ c.
End Comparar.

(** A relative fall from a running maximum: finite, above -1, at most 0. *)
Definition caida (x : f64) : Prop := ∃ d, x = Fin d ∧ (-1 < d <= 0)%R.

(** What an entry of [comparar_activos] keeps: at least one row was read,
    the last close lies between the least and the greatest, and the keys
    that describe the instrument are all there or all missing. *)
Definition entrada_coherente (e : Comparacion.t) : Prop :=
  1 ≤ Comparacion.cantidad_datos e ∧
  fle (Comparacion.precio_minimo e) (Comparacion.precio_actual e) ∧
  fle (Comparacion.precio_actual e) (Comparacion.precio_maximo e) ∧
  (Comparacion.denominacion e = None ∧ Comparacion.tipo e = None ∧
   Comparacion.mercado e = None ∧ Comparacion.moneda e = None
   ∨ is_Some (Comparacion.denominacion e) ∧ is_Some (Comparacion.tipo e) ∧
     is_Some (Comparacion.mercado e) ∧ is_Some (Comparacion.moneda e)).

(** The request of a daily frame of [simbolo] over a range. *)
Definition solicitud_diaria (desde hasta : datetime) (simbolo : string)
    : Llamada :=
  LlHistory (_get_yahoo_symbol simbolo)
            (Rango (fecha_de desde) (fecha_de hasta) "1d" true).

(** Three sessions closing at 100, 110 and 132. *)
Definition historico_tres_dias : Historico :=
  [barra 1 100; barra 2 110; barra 3 132].

(* ===================================================================== *)
(** * Part II: properties *)
(* ===================================================================== *)

(** ** String primitives decide their relations *)

Lemma endswith_spec s suf : endswith s suf = true ↔ has_suffix suf s.
Proof.
  unfold has_suffix. induction s as [|c s IH]; cbn [endswith].
  - rewrite orb_false_r, String.eqb_eq. split.
    + intros <-. by exists "".
    + intros [p Hp]. destruct p; simpl in Hp; [done | discriminate].
  - rewrite orb_true_iff, String.eqb_eq, IH. split.
    + intros [<- | [p ->]]; [by exists "" | by exists (String c p)].
    + intros [[|c' p] Hp]; simpl in Hp; [by left |].
      injection Hp as -> ->. right. by exists p.
Qed.

Lemma prefix_app pre q : String.prefix pre (pre +:+ q) = true.
Proof.
  induction pre as [|c pre IH]; simpl; [by destruct q |].
  destruct (Ascii.ascii_dec c c); [done | congruence].
Qed.

Lemma prefix_spec pre s : String.prefix pre s = true ↔ has_prefix pre s.
Proof.
  unfold has_prefix. split.
  - revert s. induction pre as [|c pre IH]; intros s H.
    + by exists s.
    + destruct s as [|c' s]; simpl in H; [done |].
      destruct (Ascii.ascii_dec c c') as [<- |]; [| done].
      destruct (IH _ H) as [q ->]. by exists q.
  - intros [q ->]. apply prefix_app.
Qed.

Lemma contains_spec sub s : contains sub s = true ↔ occurs_in sub s.
Proof.
  unfold occurs_in. induction s as [|c s IH]; cbn [contains].
  - rewrite orb_false_r, prefix_spec. split.
    + intros [q Hq]. by exists "", q.
    + intros [[|c p] [q Hq]]; simpl in Hq; [by exists q | discriminate].
  - rewrite orb_true_iff, prefix_spec, IH. split.
    + intros [[q Hq] | (p & q & ->)]; [by exists "", q | by exists (String c p), q].
    + intros [[|c' p] [q Hq]]; simpl in Hq; [left; by exists q |].
      injection Hq as -> ->. right. by exists p, q.
Qed.

(** ** The symbol resolver *)

Lemma SIMBOLOS_TABLA_NoDup : NoDup (SIMBOLOS_TABLA.*1).
Proof. by apply (bool_decide_unpack _); vm_compute. Qed.

Lemma SIMBOLOS_MAPPING_lookup s y :
  SIMBOLOS_MAPPING !! s = Some y ↔ (s, y) ∈ SIMBOLOS_TABLA.
Proof.
  unfold SIMBOLOS_MAPPING. symmetry.
  apply elem_of_list_to_map, SIMBOLOS_TABLA_NoDup.
Qed.

Lemma SIMBOLOS_MAPPING_None s :
  SIMBOLOS_MAPPING !! s = None ↔ s ∉ SIMBOLOS_TABLA.*1.
Proof. unfold SIMBOLOS_MAPPING. symmetry. apply not_elem_of_list_to_map. Qed.

(** C8. [_get_yahoo_symbol] is a total function from strings to strings. A
    symbol listed in the static table resolves to its table entry; an unlisted
    symbol that ends neither in ".BA" nor in ".ADR" resolves to the symbol
    with ".BA" appended, so "UNKNOWN123" resolves to "UNKNOWN123.BA"; any
    other unlisted symbol resolves to itself. *)
Theorem get_yahoo_symbol_resolves (simbolo : string) :
  (∀ yahoo, (simbolo, yahoo) ∈ SIMBOLOS_TABLA →
     _get_yahoo_symbol simbolo = yahoo) ∧
  (simbolo ∉ SIMBOLOS_TABLA.*1 →
     ¬ has_suffix ".BA" simbolo → ¬ has_suffix ".ADR" simbolo →
     _get_yahoo_symbol simbolo = simbolo +:+ ".BA") ∧
  (simbolo ∉ SIMBOLOS_TABLA.*1 →
     has_suffix ".BA" simbolo ∨ has_suffix ".ADR" simbolo →
     _get_yahoo_symbol simbolo = simbolo) ∧
  _get_yahoo_symbol "UNKNOWN123" = "UNKNOWN123.BA".
Proof.
  unfold _get_yahoo_symbol. repeat split.
  - intros yahoo Hin. apply SIMBOLOS_MAPPING_lookup in Hin. by rewrite Hin.
  - intros Hout Hba Hadr. apply SIMBOLOS_MAPPING_None in Hout. rewrite Hout.
    rewrite <- endswith_spec in Hba, Hadr.
    apply not_true_is_false in Hba, Hadr. by rewrite Hba, Hadr.
  - intros Hout Hsuf. apply SIMBOLOS_MAPPING_None in Hout. rewrite Hout.
    rewrite <- !endswith_spec in Hsuf.
    destruct Hsuf as [-> | ->]; [done | by rewrite andb_false_r].
Qed.

(** The four cases of [get_yahoo_symbol_resolves] on a listed symbol, an
    unlisted one, and unlisted ones that carry each suffix. *)
Lemma get_yahoo_symbol_resolves_witness :
  _get_yahoo_symbol "GGAL" = "GGAL.BA" ∧
  _get_yahoo_symbol "TSLA" = "TSLA.BA" ∧
  _get_yahoo_symbol "MELI.BA" = "MELI.BA" ∧
  _get_yahoo_symbol "MELI.ADR" = "MELI.ADR".
Proof.
  assert (Hno : ∀ s, bool_decide (s ∉ SIMBOLOS_TABLA.*1) = true →
                     s ∉ SIMBOLOS_TABLA.*1)
    by (intros s; apply bool_decide_eq_true_1).
  assert (Hsuf : ∀ suf s, endswith s suf = false → ¬ has_suffix suf s).
  { intros suf s E H. apply endswith_spec in H. congruence. }
  split_and!.
  - apply (proj1 (get_yahoo_symbol_resolves "GGAL")), list_elem_of_here.
  - apply (proj1 (proj2 (get_yahoo_symbol_resolves "TSLA")));
      [by apply Hno; vm_compute | by apply Hsuf; vm_compute ..].
  - apply (proj1 (proj2 (proj2 (get_yahoo_symbol_resolves "MELI.BA"))));
      [by apply Hno; vm_compute | left; by exists "MELI"].
  - apply (proj1 (proj2 (proj2 (get_yahoo_symbol_resolves "MELI.ADR"))));
      [by apply Hno; vm_compute | right; by exists "MELI"].
Defined.

(** ** The normaliser *)

Lemma fila_incompleta_spec row : fila_incompleta row = false ↔ completa row.
Proof.
  unfold fila_incompleta, completa, ausente.
  destruct (Open row), (High row), (Low row), (Close row); simpl;
    split; intros H; try discriminate; try done; try (repeat split; congruence);
    by destruct H as (? & ? & ? & ?).
Qed.

Lemma convert_foldl simbolo (df : DataFrame) (acc : list Cotizacion.t) :
  foldl (λ cotizaciones row,
           if fila_incompleta row then cotizaciones
           else cotizaciones ++ [cotizacion_de_fila simbolo row]) acc df
  = acc ++ (cotizacion_de_fila simbolo <$> filter completa df).
Proof.
  revert acc. induction df as [|row df IH]; intros acc; cbn [foldl].
  - by rewrite app_nil_r.
  - rewrite IH, filter_cons. destruct (fila_incompleta row) eqn:E.
    + rewrite decide_False; [done |].
      rewrite <- fila_incompleta_spec. congruence.
    + rewrite decide_True by by apply fila_incompleta_spec.
      by rewrite fmap_cons, <- app_assoc.
Qed.

Lemma convert_filter df simbolo :
  _convert_yf_history_to_cotizaciones df simbolo
  = cotizacion_de_fila simbolo <$> filter completa df.
Proof.
  unfold _convert_yf_history_to_cotizaciones.
  destruct df as [|row df]; [done |].
  cbn [df_empty]. apply (convert_foldl simbolo (row :: df) []).
Qed.

(** C3. The normaliser emits one bar for each row whose open, high, low and
    close are all present and none for any other row, in the order of the
    rows. Each bar carries the queried symbol, the row's timestamp (as the
    Python [datetime] of the label) and prices, [ajustado = true], and the
    row's volume, or 0 when the volume column or its value is absent. Hence N rows of which M miss a price give N - M bars,
    and an empty frame gives the empty list. *)
Theorem convert_yf_history_normaliza (df : DataFrame) (simbolo : string) :
  let barras := _convert_yf_history_to_cotizaciones df simbolo in
  barras = cotizacion_de_fila simbolo <$> filter completa df ∧
  length barras + length (filter (λ row, ¬ completa row) df) = length df ∧
  Forall (λ c, Cotizacion.ajustado c = true ∧ Cotizacion.simbolo c = simbolo)
         barras ∧
  (∀ row, let c := cotizacion_de_fila simbolo row in
     Cotizacion.timestamp c = to_pydatetime (Index row) ∧
     Cotizacion.apertura c = Open row ∧ Cotizacion.maximo c = High row ∧
     Cotizacion.minimo c = Low row ∧ Cotizacion.cierre c = Close row ∧
     Cotizacion.volumen_nominal c =
       match Volume row with
       | Some v => if decide (ausente v) then Fin 0 else v
       | None => Fin 0
       end) ∧
  _convert_yf_history_to_cotizaciones [] simbolo = [].
Proof.
  cbv zeta. rewrite convert_filter. repeat split.
  - rewrite length_fmap. induction df as [|row df IH]; [done |].
    rewrite !filter_cons. simpl.
    destruct (decide (completa row)).
    + rewrite decide_False by tauto. simpl. lia.
    + rewrite decide_True by tauto. simpl. lia.
  - apply Forall_fmap, Forall_forall. by intros row _.
  - simpl. destruct (Volume row) as [[| |]|]; done.
Qed.

(** Three rows of which the second misses its prices and the third has no
    volume column: two bars, in row order, the second with volume 0. *)
Example convert_yf_history_ejemplo :
  _convert_yf_history_to_cotizaciones
    [fila_buena (timedelta_days 1) 100;
     fila_sin_precio (timedelta_days 2);
     fila (timedelta_days 3) (Fin 101) (Fin 104) (Fin 99) (Fin 102) None]
    "GGAL"
  = [ Cotizacion.mk "GGAL" (timedelta_days 1) (Fin 100) (Fin 100) (Fin 100)
        (Fin 100) (Fin 1000) (Fin 0) 0 true;
      Cotizacion.mk "GGAL" (timedelta_days 3) (Fin 101) (Fin 104) (Fin 99)
        (Fin 102) (Fin 0) (Fin 0) 0 true ].
Proof. reflexivity. Qed.

(** ** The latest bar *)

Lemma ajuste_ypf_id simbolo :
  ajuste_ypf simbolo (_get_yahoo_symbol simbolo) = _get_yahoo_symbol simbolo.
Proof.
  unfold ajuste_ypf. destruct (String.eqb simbolo "YPF") eqn:E; [| done].
  apply String.eqb_eq in E. by subst.
Qed.

Section ClienteTeoremas.
Context {W : Type} (yf : Entorno W).

Lemma ticker_history_llamadas sy args (m : Mundo W) :
  llamadas (ticker_history yf sy args m).2 = llamadas m ++ [LlHistory sy args].
Proof. unfold ticker_history. by destruct (history yf sy args (estado m)). Qed.

(** The requests sent by a walk over the windows are the windows it tried:
    a prefix of the list, one request each, in order. *)
Lemma escalar_llamadas ventanas sy (m : Mundo W) :
  ∃ k, (ventanas = [] ∨ 1 ≤ k) ∧ k ≤ length ventanas ∧
       llamadas (escalar yf ventanas sy m).2
       = llamadas m ++ (LlHistory sy ∘ Periodo <$> take k ventanas).
Proof.
  revert m. induction ventanas as [|p resto IH]; intros m; simpl.
  - exists 0. rewrite app_nil_r. auto.
  - pose proof (ticker_history_llamadas sy (Periodo p) m) as Hll.
    destruct (ticker_history yf sy (Periodo p) m) as [[e|df] m'];
      simpl in Hll.
    + exists 1. simpl. split_and!; [right; lia | lia | by rewrite Hll].
    + destruct (df_empty df).
      * destruct (IH m') as (k & _ & Hk & ->). exists (S k).
        rewrite Hll, <- app_assoc. simpl. split_and!; [right; lia | lia | done].
      * exists 1. simpl. split_and!; [right; lia | lia | by rewrite Hll].
Qed.

Lemma ultima_cotizacion_con_escalar sy simbolo (m : Mundo W) :
  ultima_cotizacion_con yf sy simbolo m
  = (match (escalar yf VENTANAS sy m).1 with
     | VMarco df => head (_convert_yf_history_to_cotizaciones df simbolo)
     | _ => None
     end, (escalar yf VENTANAS sy m).2).
Proof.
  assert (Hprim : ∀ df, df_empty df = false →
            primera_cotizacion df simbolo
            = head (_convert_yf_history_to_cotizaciones df simbolo)).
  { intros df Hdf. unfold primera_cotizacion. rewrite Hdf.
    by destruct (_convert_yf_history_to_cotizaciones df simbolo). }
  unfold ultima_cotizacion_con, VENTANAS. simpl.
  destruct (ticker_history yf sy (Periodo "1d") m) as [[e|df1] m1]; [done |].
  destruct (df_empty df1) eqn:E1; [| by rewrite Hprim].
  destruct (ticker_history yf sy (Periodo "5d") m1) as [[e|df2] m2]; [done |].
  destruct (df_empty df2) eqn:E2; [| by rewrite Hprim].
  destruct (ticker_history yf sy (Periodo "1mo") m2) as [[e|df3] m3]; [done |].
  destruct (df_empty df3) eqn:E3; [| by rewrite Hprim].
  simpl. unfold primera_cotizacion. by rewrite E3.
Qed.

(** C1, as amended. [obtener_ultima_cotizacion] queries the provider symbol
    [_get_yahoo_symbol simbolo] at the windows 1 day, 5 days, 1 month, in
    that order and one request each, and stops at the first window whose
    frame has a row (or at the first request that raises). It returns bar 0
    of that frame's normalised sequence, and absent when a request raised,
    when all three frames were empty, or when the chosen frame has no bar
    after normalisation. *)
Theorem obtener_ultima_cotizacion_escala (simbolo : string) (m : Mundo W) :
  let sy := _get_yahoo_symbol simbolo in
  let fin := escalar yf VENTANAS sy m in
  obtener_ultima_cotizacion yf simbolo m
  = (match fin.1 with
     | VMarco df => head (_convert_yf_history_to_cotizaciones df simbolo)
     | VVacio | VFallo => None
     end, fin.2) ∧
  ∃ k, 1 ≤ k ≤ 3 ∧
       llamadas fin.2
       = llamadas m ++ (LlHistory sy ∘ Periodo <$> take k VENTANAS).
Proof.
  cbv zeta. split.
  - unfold obtener_ultima_cotizacion. rewrite ajuste_ypf_id.
    rewrite ultima_cotizacion_con_escalar.
    by destruct (escalar yf VENTANAS (_get_yahoo_symbol simbolo) m).1.
  - destruct (escalar_llamadas VENTANAS (_get_yahoo_symbol simbolo) m)
      as (k & [? | ?] & ? & ?); [done |].
    exists k. simpl in *. split; [lia | done].
Qed.

(** C10. The provider symbol [obtener_ultima_cotizacion] queries is
    [_get_yahoo_symbol] of its argument: the "YPF" correction never changes
    it, the table already sending "YPF" to "YPFD.BA". The method equals the
    one without the correction, on every symbol and world, and every request
    it sends carries that symbol. *)
Theorem obtener_ultima_cotizacion_ajuste_inerte (simbolo : string)
    (m : Mundo W) :
  ajuste_ypf simbolo (_get_yahoo_symbol simbolo) = _get_yahoo_symbol simbolo ∧
  _get_yahoo_symbol "YPF" = "YPFD.BA" ∧
  obtener_ultima_cotizacion yf simbolo m
  = obtener_ultima_cotizacion_sin_ajuste yf simbolo m ∧
  Forall (λ llamada, ∃ p, llamada
                          = LlHistory (_get_yahoo_symbol simbolo) (Periodo p))
         (drop (length (llamadas m))
               (llamadas (obtener_ultima_cotizacion yf simbolo m).2)).
Proof.
  split_and!; [apply ajuste_ypf_id | done | |].
  - unfold obtener_ultima_cotizacion, obtener_ultima_cotizacion_sin_ajuste.
    by rewrite ajuste_ypf_id.
  - unfold obtener_ultima_cotizacion. rewrite ajuste_ypf_id.
    rewrite ultima_cotizacion_con_escalar. cbn [snd].
    destruct (escalar_llamadas VENTANAS (_get_yahoo_symbol simbolo) m)
      as (k & _ & _ & ->).
    rewrite drop_app_length. apply Forall_fmap, Forall_forall.
    intros p _. by exists p.
Qed.
End ClienteTeoremas.

(** The escalation stops at the first success: with an empty 1-day window
    and one bar in the 5-day window, that bar is returned and the 1-month
    window is not requested. *)
Example obtener_ultima_cotizacion_cinco_dias :
  obtener_ultima_cotizacion proveedor_cinco_dias "GGAL" mundo_inicial
  = (Some (cotizacion_de_fila "GGAL" (fila_buena (timedelta_days 4) 100)),
     {| estado := ();
        llamadas := [LlHistory "GGAL.BA" (Periodo "1d");
                     LlHistory "GGAL.BA" (Periodo "5d")] |}).
Proof. reflexivity. Qed.

(** No window has data: three requests, absent. The provider is down: one
    request, absent. *)
Example obtener_ultima_cotizacion_sin_datos :
  obtener_ultima_cotizacion proveedor_vacio "GGAL" mundo_inicial
  = (None,
     {| estado := ();
        llamadas := [LlHistory "GGAL.BA" (Periodo "1d");
                     LlHistory "GGAL.BA" (Periodo "5d");
                     LlHistory "GGAL.BA" (Periodo "1mo")] |}) ∧
  obtener_ultima_cotizacion proveedor_caido "GGAL" mundo_inicial
  = (None,
     {| estado := (); llamadas := [LlHistory "GGAL.BA" (Periodo "1d")] |}).
Proof. split; reflexivity. Qed.

(** C1, as stated, fails: the 1-day frame has a row without prices, so the
    method stops there and returns absent, although the 5-day window yields a
    bar after normalisation, which the stated rule would return. *)
Lemma obtener_ultima_cotizacion_no_escala_tras_normalizar :
  _convert_yf_history_to_cotizaciones [fila_sin_precio (timedelta_days 5)]
    "GGAL" = [] ∧
  (obtener_ultima_cotizacion proveedor_sin_precio_hoy "GGAL" mundo_inicial).1
    = None ∧
  llamadas
    (obtener_ultima_cotizacion proveedor_sin_precio_hoy "GGAL" mundo_inicial).2
    = [LlHistory "GGAL.BA" (Periodo "1d")] ∧
  (ultima_segun_enunciado proveedor_sin_precio_hoy VENTANAS "GGAL.BA" "GGAL"
     mundo_inicial).1
    = Some (cotizacion_de_fila "GGAL" (fila_buena (timedelta_days 4) 100)) ∧
  (obtener_ultima_cotizacion proveedor_sin_precio_hoy "GGAL" mundo_inicial).1
    ≠ (ultima_segun_enunciado proveedor_sin_precio_hoy VENTANAS "GGAL.BA"
         "GGAL" mundo_inicial).1.
Proof. split_and!; [reflexivity .. | discriminate]. Qed.

(** ** The batch query *)

Section LoteTeoremas.
Context {W : Type} (yf : Entorno W).

(** One iteration of the loop of [obtener_cotizaciones_multiples]. *)
Local Abbreviation paso :=
  (λ '(resultado, m) simbolo,
     let '(ultima_cotizacion, m') := obtener_ultima_cotizacion yf simbolo m in
     (<[simbolo := ultima_cotizacion]> resultado, m')).

Lemma multiples_snoc simbolos simbolo (m : Mundo W) :
  obtener_cotizaciones_multiples yf (simbolos ++ [simbolo]) m
  = let previo := obtener_cotizaciones_multiples yf simbolos m in
    (<[simbolo := (obtener_ultima_cotizacion yf simbolo previo.2).1]> previo.1,
     (obtener_ultima_cotizacion yf simbolo previo.2).2).
Proof.
  unfold obtener_cotizaciones_multiples. rewrite foldl_snoc. cbv zeta.
  destruct (foldl paso (∅, m) simbolos) as [resultado m1]. simpl.
  by destruct (obtener_ultima_cotizacion yf simbolo m1).
Qed.

Lemma multiples_mundo simbolos (m : Mundo W) :
  (obtener_cotizaciones_multiples yf simbolos m).2
  = foldl (λ m simbolo, (obtener_ultima_cotizacion yf simbolo m).2) m simbolos.
Proof.
  induction simbolos as [|simbolo simbolos IH] using rev_ind; [done |].
  by rewrite multiples_snoc, foldl_snoc, <- IH.
Qed.

Lemma multiples_dom simbolos (m : Mundo W) :
  dom (obtener_cotizaciones_multiples yf simbolos m).1
  = (list_to_set simbolos : gset string).
Proof.
  induction simbolos as [|simbolo simbolos IH] using rev_ind.
  - unfold obtener_cotizaciones_multiples. simpl. by rewrite dom_empty_L.
  - rewrite multiples_snoc. cbv zeta. cbn [fst].
    rewrite dom_insert_L, IH, list_to_set_app_L. simpl.
    by rewrite (right_id_L ∅ (∪)), (comm_L (∪)).
Qed.

Lemma multiples_app_lookup previos simbolo resto (m : Mundo W) :
  simbolo ∉ resto →
  (obtener_cotizaciones_multiples yf (previos ++ simbolo :: resto) m).1
    !! simbolo
  = Some (obtener_ultima_cotizacion yf simbolo
            (obtener_cotizaciones_multiples yf previos m).2).1.
Proof.
  induction resto as [|otro resto IH] using rev_ind; intros Hnotin.
  - rewrite multiples_snoc. cbv zeta. cbn [fst]. by rewrite lookup_insert_eq.
  - rewrite not_elem_of_app, list_elem_of_singleton in Hnotin.
    destruct Hnotin as [Hresto Hotro].
    rewrite app_comm_cons, app_assoc, multiples_snoc. cbv zeta. cbn [fst].
    rewrite lookup_insert_ne by done. by apply IH.
Qed.

(** C5. [obtener_cotizaciones_multiples] runs [obtener_ultima_cotizacion]
    once for each element of the input, in order, and returns a mapping
    whose keys are exactly the input symbols. The entry of a symbol is the
    outcome of its own (last) query, absent when that query failed and its
    bar when it succeeded, whatever happened to the symbols before and
    after it. The method is a total function: it never raises. *)
Theorem obtener_cotizaciones_multiples_aisla (simbolos : list string)
    (m : Mundo W) :
  let lote := obtener_cotizaciones_multiples yf simbolos m in
  dom lote.1 = (list_to_set simbolos : gset string) ∧
  lote.2
    = foldl (λ m simbolo, (obtener_ultima_cotizacion yf simbolo m).2)
            m simbolos ∧
  (∀ previos simbolo resto,
     simbolos = previos ++ simbolo :: resto → simbolo ∉ resto →
     lote.1 !! simbolo
     = Some (obtener_ultima_cotizacion yf simbolo
               (obtener_cotizaciones_multiples yf previos m).2).1).
Proof.
  cbv zeta. split_and!.
  - apply multiples_dom.
  - apply multiples_mundo.
  - intros previos simbolo resto -> Hnotin. by apply multiples_app_lookup.
Qed.
End LoteTeoremas.

(** The batch of the specification's example, to which
    [obtener_cotizaciones_multiples_aisla] applies: "A" fails at the
    provider and "B" succeeds; "A" is mapped to absent and "B" to its bar. *)
Lemma obtener_cotizaciones_multiples_aisla_witness :
  let lote :=
    (obtener_cotizaciones_multiples proveedor_parcial ["A"; "B"]
       mundo_inicial).1 in
  dom lote = ({[ "A"; "B" ]} : gset string) ∧
  lote !! "A" = Some None ∧
  lote !! "B"
  = Some (Some (cotizacion_de_fila "B" (fila_buena (timedelta_days 7) 50))).
Proof.
  cbv zeta.
  destruct (obtener_cotizaciones_multiples_aisla proveedor_parcial
              ["A"; "B"] mundo_inicial) as (Hdom & _ & Hcada).
  split_and!.
  - rewrite Hdom. simpl. by rewrite (right_id_L ∅ (∪)).
  - rewrite (Hcada [] "A" ["B"] eq_refl); [reflexivity |].
    by apply (bool_decide_unpack _); vm_compute.
  - rewrite (Hcada ["A"] "B" [] eq_refl); [reflexivity |].
    apply not_elem_of_nil.
Defined.

(** ** The historical query *)

Lemma occurs_in_middle p sub q : occurs_in sub (p +:+ sub +:+ q).
Proof. by exists p, q. Qed.

Lemma string_app_cons c (a b : string) : String c a +:+ b = String c (a +:+ b).
Proof. reflexivity. Qed.

Lemma string_app_assoc (a b c : string) : a +:+ b +:+ c = (a +:+ b) +:+ c.
Proof.
  induction a as [|x a IH]; [done |]. rewrite !string_app_cons. by f_equal.
Qed.

Lemma occurs_in_app_l p sub s : occurs_in sub s → occurs_in sub (p +:+ s).
Proof.
  intros (p' & q & ->). exists (p +:+ p'), q. apply string_app_assoc.
Qed.

Section HistoricoTeoremas.
Context {W : Type} (yf : Entorno W).

(** C4, as amended. The three failure modes of [obtener_historico] are
    reported with two codes: DATA_003 when the provider call raised,
    DATA_002 when the provider returned an empty frame, and DATA_003 again
    when the frame had rows of which none survived normalisation. The
    message of the last two carries the domain symbol and the resolved
    provider symbol; the message of the first carries the resolved provider
    symbol, followed by the text of the exception. A frame with a complete
    row gives an OK response. *)
Theorem obtener_historico_fallos (solicitud : SolicitudHistorico.t)
    (m : Mundo W) :
  let simbolo := SolicitudHistorico.simbolo solicitud in
  let sy := _get_yahoo_symbol simbolo in
  let r := (obtener_historico yf solicitud m).1 in
  let error modo :=
    RespuestaHistorico.estado r = ERROR ∧
    RespuestaHistorico.codigo_error r = Some (codigo_de_fallo modo) in
  let lleva texto :=
    ∃ msg, RespuestaHistorico.mensaje r = Some msg ∧ occurs_in texto msg in
  match (ticker_history yf sy (rango_solicitado yf solicitud m) m).1 with
  | inl e =>
      error ProviderError ∧ lleva sy ∧
      RespuestaHistorico.mensaje r
      = Some ("Error al obtener datos de Yahoo Finance para el símbolo "
                +:+ sy +:+ ": " +:+ e)
  | inr df =>
      if decide (df = []) then
        error NoDataInRange ∧ lleva simbolo ∧ lleva sy
      else if decide (filter completa df = []) then
        error NormalizationFailure ∧ lleva simbolo ∧ lleva sy
      else
        RespuestaHistorico.estado r = OK ∧
        RespuestaHistorico.datos r
        = _convert_yf_history_to_cotizaciones df simbolo
  end.
Proof.
  cbv zeta. unfold obtener_historico, rango_solicitado, default.
  destruct (ticker_history yf _ _ m) as [[e|df] m'] eqn:E; cbn [fst].
  - split_and!; [done | done | | done].
    eexists. split; [done |]. apply occurs_in_middle.
  - destruct df as [|row df]; cbn [df_empty].
    + rewrite decide_True by done. split_and!; [done | done | |].
      * eexists. split; [done |]. apply occurs_in_middle.
      * eexists. split; [done |]. do 2 apply occurs_in_app_l.
        apply occurs_in_middle.
    + rewrite decide_False by done. rewrite convert_filter.
      destruct (filter completa (row :: df)) as [|row' filas] eqn:F.
      * rewrite decide_True by done. cbn [fmap list_fmap].
        split_and!; [done | done | |].
        -- eexists. split; [done |]. apply occurs_in_middle.
        -- eexists. split; [done |]. do 2 apply occurs_in_app_l.
           apply occurs_in_middle.
      * rewrite decide_False by done. by cbn [fmap list_fmap fst].
Qed.
End HistoricoTeoremas.

(** A successful query: the metadata carries the timestamps of the first and
    last bar and their count. *)
Example obtener_historico_ok :
  let r :=
    (obtener_historico proveedor_dos_dias (solicitud_de "GGAL")
       mundo_inicial).1 in
  RespuestaHistorico.estado r = OK ∧
  length (RespuestaHistorico.datos r) = 2 ∧
  RespuestaHistorico.metadata r
  = Some (MetadataHistorico.mk "GGAL" (timedelta_days 1) (timedelta_days 2)
            "1d" 2 true).
Proof. split_and!; reflexivity. Qed.

(** C4, as stated, fails: a provider call that raises and a frame of which no
    row survives normalisation are both reported as DATA_003, and the message
    for the raised call names "^MERV" but not the domain symbol "MERVAL". *)
Lemma obtener_historico_fallos_no_distintos :
  let caido :=
    (obtener_historico proveedor_caido (solicitud_de "MERVAL") mundo_inicial).1 in
  let sin_precio :=
    (obtener_historico proveedor_sin_precio_hoy (solicitud_de "MERVAL")
       mundo_inicial).1 in
  RespuestaHistorico.codigo_error caido = Some DATA_003 ∧
  RespuestaHistorico.codigo_error sin_precio = Some DATA_003 ∧
  RespuestaHistorico.mensaje sin_precio
  = Some "Los datos obtenidos para MERVAL (^MERV) no pudieron ser procesados" ∧
  RespuestaHistorico.mensaje caido
  = Some "Error al obtener datos de Yahoo Finance para el símbolo ^MERV: timeout" ∧
  ¬ occurs_in "MERVAL"
      "Error al obtener datos de Yahoo Finance para el símbolo ^MERV: timeout".
Proof.
  cbv zeta. split_and!; try reflexivity.
  rewrite <- contains_spec. by vm_compute.
Qed.

(** ** Instrument lookup *)

Section ActivoTeoremas.
Context {W : Type} (yf : Entorno W).

Lemma obtener_activo_cache (simbolo : string) (c : Cliente W) :
  cache_clasificado c →
  cache_clasificado (obtener_activo yf simbolo c).2 ∧
  ∀ activo, (obtener_activo yf simbolo c).1 = Some activo →
    ∃ info, activo = crear_activo simbolo (_get_yahoo_symbol simbolo) info.
Proof.
  intros Hc.
  assert (Hcrear : ∀ info (m : Mundo W),
    cache_clasificado
      {| _activos_cache :=
           <[simbolo := crear_activo simbolo (_get_yahoo_symbol simbolo) info]>
             (_activos_cache c);
         mundo := m |}).
  { intros info m s a. cbn [_activos_cache].
    rewrite lookup_insert. case_decide as Hs.
    - subst s. intros [= <-]. by exists info.
    - apply Hc. }
  assert (Hfallar : ∀ m : Mundo W,
    cache_clasificado {| _activos_cache := _activos_cache c; mundo := m |}).
  { intros m s a. apply Hc. }
  unfold obtener_activo.
  destruct (_activos_cache c !! simbolo) as [activo|] eqn:Hcache.
  { split; [done |]. intros a [= <-]. by apply Hc. }
  assert (Hconfirmar : ∀ m,
    let r :=
      match ticker_history yf (_get_yahoo_symbol simbolo) (Periodo "1d") m with
      | (inl _, m') =>
          (None, {| _activos_cache := _activos_cache c; mundo := m' |})
      | (inr df, m') =>
          if df_empty df
          then (None, {| _activos_cache := _activos_cache c; mundo := m' |})
          else
            (Some (crear_activo simbolo (_get_yahoo_symbol simbolo)
                     {[ "shortName" := _get_yahoo_symbol simbolo ]}),
             {| _activos_cache :=
                  <[simbolo := crear_activo simbolo (_get_yahoo_symbol simbolo)
                                 {[ "shortName" := _get_yahoo_symbol simbolo ]}]>
                    (_activos_cache c);
                mundo := m' |})
      end in
    cache_clasificado r.2 ∧
    ∀ activo, r.1 = Some activo →
      ∃ info, activo = crear_activo simbolo (_get_yahoo_symbol simbolo) info).
  { intros m. cbv zeta.
    destruct (ticker_history yf _ _ m) as [[e|df] m']; cbn [fst snd].
    - split; [apply Hfallar | done].
    - destruct (df_empty df); cbn [fst snd].
      + split; [apply Hfallar | done].
      + split; [apply Hcrear |]. intros a [= <-]. by eexists. }
  cbv zeta.
  destruct (ticker_info yf _ (mundo c)) as [[e|info] m1].
  { apply Hconfirmar. }
  destruct (bool_decide (info = ∅)).
  - destruct (ticker_history yf _ _ m1) as [[e|df] m2] eqn:E.
    + apply Hconfirmar.
    + destruct (df_empty df); cbn [fst snd].
      * split; [apply Hfallar | done].
      * split; [apply Hcrear |]. intros a [= <-]. by eexists.
  - cbn [fst snd]. split; [apply Hcrear |]. intros a [= <-]. by eexists.
Qed.

Lemma alcanzable_clasificado (c : Cliente W) :
  alcanzable yf c → cache_clasificado c.
Proof.
  induction 1 as [m | c simbolo _ IH | c m _ IH].
  - intros s a. cbn [_activos_cache]. by rewrite lookup_empty.
  - by apply obtener_activo_cache.
  - intros s a. apply IH.
Qed.

(** C9. In every state the client can reach, an [obtener_activo "MERVAL"]
    that succeeds returns an instrument resolved to "^MERV" and classified
    with type BONO, market NYSE and currency USD. *)
Theorem obtener_activo_merval (c c' : Cliente W)
    (activo : ActivoFinanciero.t) :
  alcanzable yf c →
  obtener_activo yf "MERVAL" c = (Some activo, c') →
  ActivoFinanciero.simbolo_yahoo activo = Some "^MERV" ∧
  ActivoFinanciero.tipo activo = BONO ∧
  ActivoFinanciero.mercado activo = NYSE ∧
  ActivoFinanciero.moneda activo = USD.
Proof.
  intros Halc Hret. apply alcanzable_clasificado in Halc.
  destruct (obtener_activo_cache "MERVAL" c Halc) as [_ Hact].
  destruct (Hact activo) as [info ->]; [by rewrite Hret |]. done.
Qed.
End ActivoTeoremas.

(** A successful lookup of "MERVAL" from the initial client, to which
    [obtener_activo_merval] applies. *)
Lemma obtener_activo_merval_witness :
  ∃ activo c',
    obtener_activo proveedor_con_info "MERVAL" cliente_inicial
    = (Some activo, c') ∧
    ActivoFinanciero.denominacion activo = "S&P MERVAL" ∧
    ActivoFinanciero.simbolo_yahoo activo = Some "^MERV" ∧
    ActivoFinanciero.tipo activo = BONO ∧
    ActivoFinanciero.mercado activo = NYSE ∧
    ActivoFinanciero.moneda activo = USD.
Proof.
  eexists _, _. split; [reflexivity |]. split; [reflexivity |].
  eapply (obtener_activo_merval proveedor_con_info cliente_inicial).
  - apply alc_inicio.
  - reflexivity.
Defined.

(** ** Float arithmetic *)

Lemma Rzero_true r : r = 0%R → Rzero r = true.
Proof. intros ->. unfold Rzero. destruct (Req_dec_T 0 0); [done | lra]. Qed.

Lemma Rzero_false r : r ≠ 0%R → Rzero r = false.
Proof. intros H. unfold Rzero. by destruct (Req_dec_T r 0). Qed.

Lemma Rneg_true r : (r < 0)%R → Rneg r = true.
Proof. intros H. unfold Rneg. by destruct (Rlt_dec r 0). Qed.

Lemma Rneg_false r : (0 <= r)%R → Rneg r = false.
Proof. intros H. unfold Rneg. destruct (Rlt_dec r 0); [lra | done]. Qed.


Lemma fadd_comm x y : fadd x y = fadd y x.
Proof.
  destruct x as [| [] | a], y as [| [] | b]; simpl; try done.
  by rewrite Rplus_comm.
Qed.


Lemma fdiv_fin a b : b ≠ 0%R → fdiv (Fin a) (Fin b) = Fin (a / b).
Proof. intros H. simpl. by rewrite Rzero_false. Qed.

Lemma fdiv_NaN_r x : fdiv x NaN = NaN.
Proof. by destruct x. Qed.

Lemma fsum_fin (l : list R) : fsum (Fin <$> l) = Fin (foldr Rplus 0%R l).
Proof.
  induction l as [|x l IH]; [done |].
  rewrite fmap_cons. unfold fsum in *. cbn [foldr]. by rewrite IH.
Qed.

Lemma validos_fin (l : list R) : validos (Fin <$> l) = Fin <$> l.
Proof.
  unfold validos. induction l as [|x l IH]; [done |].
  rewrite fmap_cons, filter_cons, decide_True by done. by rewrite IH.
Qed.

(** The sample variance of fewer than two present values is NaN, and so is
    their standard deviation. *)
Lemma var_pocos l : length (validos l) ≤ 1 → var l = NaN.
Proof.
  intros H. unfold var. cbv zeta.
  destruct (Nat.leb_spec (length (validos l)) 1); [done | lia].
Qed.

Lemma std_pocos l : length (validos l) ≤ 1 → std l = NaN.
Proof. intros H. unfold std. by rewrite var_pocos. Qed.

(** ** Returns *)

Lemma pct_change_una relleno x : pct_change relleno [x] = [NaN].
Proof.
  unfold pct_change. destruct relleno; simpl; by rewrite fdiv_NaN_r.
Qed.

Lemma length_cambios_desde previo l :
  length (cambios_desde previo l) = length l.
Proof.
  revert previo.
  induction l as [|x l IH]; intros previo; simpl; [done | by rewrite IH].
Qed.

Lemma length_ffill_desde previo l :
  length (ffill_desde previo l) = length l.
Proof.
  revert previo.
  induction l as [|x l IH]; intros previo; simpl; [done | by rewrite IH].
Qed.

(** The first change of a series is missing: [n] values have at most [n - 1]
    present changes. *)
Lemma validos_pct_change relleno (l : list f64) :
  length (validos ((λ x, fmul x (Fin 100)) <$> pct_change relleno l))
  ≤ length l - 1.
Proof.
  unfold pct_change.
  set (datos := if relleno then ffill_desde NaN l else l).
  assert (Hlen : length datos = length l).
  { subst datos. destruct relleno; [apply length_ffill_desde | done]. }
  rewrite <- Hlen. destruct datos as [|x datos]; [done |].
  cbn [cambios_desde fmap list_fmap]. rewrite fdiv_NaN_r.
  cbn [fsub fopp fadd fmul]. unfold validos.
  rewrite filter_cons, decide_False by (intros H; by apply H).
  etrans; [apply length_filter |].
  rewrite length_fmap, length_cambios_desde. simpl. lia.
Qed.

(** What [calcular_rendimiento] returns for a series of one bar. *)
Lemma calcular_rendimiento_una_barra relleno (r : Registro.t) :
  calcular_rendimiento relleno (Some [r])
  = (fmul (fdiv (fsub (Registro.cierre r) (Registro.cierre r))
                (Registro.cierre r)) (Fin 100),
     Fin 0, NaN).
Proof.
  unfold calcular_rendimiento. cbn [List.last].
  unfold days_between. rewrite Z.sub_diag, Z.div_0_l by done.
  cbn [Z.ltb Z.compare]. rewrite fmap_cons, fmap_nil, pct_change_una.
  rewrite std_pocos; [done |]. unfold validos.
  etrans; [apply length_filter | done].
Qed.

(** C2, as amended. [calcular_rendimiento] returns 0.0 for the three
    statistics on an absent and on an empty series. On a series of one bar
    the annualised return is 0.0, the total return is 0.0 when the close is
    finite and not zero, and the volatility is NaN: the sample standard
    deviation of fewer than two day-over-day changes is NaN, not 0.0. *)
Theorem calcular_rendimiento_degenerado (relleno : bool) :
  calcular_rendimiento relleno None = (Fin 0, Fin 0, Fin 0) ∧
  calcular_rendimiento relleno (Some []) = (Fin 0, Fin 0, Fin 0) ∧
  (∀ r : Registro.t,
     let '(total, anualizado, volatilidad) :=
       calcular_rendimiento relleno (Some [r]) in
     anualizado = Fin 0 ∧ volatilidad = NaN ∧
     ∀ p, Registro.cierre r = Fin p → p ≠ 0%R → total = Fin 0) ∧
  (∀ cambios, length (validos cambios) ≤ 1 → std cambios = NaN).
Proof.
  split_and!; [done | done | | apply std_pocos].
  intros r. rewrite calcular_rendimiento_una_barra.
  split_and!; [done | done |]. intros p -> Hp.
  cbn [fsub fopp fadd]. rewrite fdiv_fin by done. cbn [fmul].
  f_equal. by field.
Qed.

(** The one-bar series closing at 100, to which
    [calcular_rendimiento_degenerado] applies. *)
Lemma calcular_rendimiento_degenerado_witness :
  (calcular_rendimiento true (Some [registro_unico])).1.1 = Fin 0 ∧
  (calcular_rendimiento true (Some [registro_unico])).1.2 = Fin 0 ∧
  (calcular_rendimiento true (Some [registro_unico])).2 = NaN.
Proof.
  pose proof (proj1 (proj2 (proj2 (calcular_rendimiento_degenerado true)))
                registro_unico) as H.
  destruct (calcular_rendimiento true (Some [registro_unico]))
    as [[total anualizado] volatilidad].
  destruct H as (Ha & Hv & Ht). cbn [fst snd]. split_and!; [| done | done].
  apply (Ht 100%R); [reflexivity | lra].
Defined.

(** C2, as stated, fails: for the series of one bar closing at 100 the
    volatility is NaN, not 0.0 (with and without forward filling). *)
Lemma calcular_rendimiento_una_barra_nan :
  calcular_rendimiento true (Some [registro_unico]) = (Fin 0, Fin 0, NaN) ∧
  calcular_rendimiento false (Some [registro_unico]) = (Fin 0, Fin 0, NaN) ∧
  NaN ≠ Fin 0.
Proof.
  assert (H : fmul (fdiv (fsub (Fin 100) (Fin 100)) (Fin 100)) (Fin 100) = Fin 0).
  { cbn [fsub fopp fadd]. rewrite fdiv_fin by lra. cbn [fmul]. f_equal. lra. }
  split_and!; [| | done];
    rewrite calcular_rendimiento_una_barra; cbn [registro_unico Registro.cierre];
    by rewrite H.
Qed.

(** The specification's two-bar series, closes 100 and 110 one day apart:
    the total return is 10, the annualised return compounds it over 365
    days, and the volatility, with a single change, is again NaN. *)
Example calcular_rendimiento_dos_barras relleno :
  calcular_rendimiento relleno (Some [barra 1 100; barra 2 110])
  = (Fin 10, Fin ((Rpower (11 / 10) 365 - 1) * 100), NaN).
Proof.
  unfold calcular_rendimiento.
  rewrite std_pocos by (etrans; [apply validos_pct_change | done]).
  cbn [List.last barra registro_de cotizacion_de_fila fila_buena fila
       Registro.cierre Registro.fecha Cotizacion.cierre Cotizacion.timestamp
       Close Index].
  replace (days_between (to_pydatetime (timedelta_days 2))
             (to_pydatetime (timedelta_days 1))) with 1%Z by reflexivity.
  cbn [Z.ltb Z.compare fsub fopp fadd]. unfold fZ.
  rewrite !fdiv_fin by lra. cbn [fmul fadd]. rewrite fdiv_fin by lra.
  unfold fpow. rewrite Rzero_false by lra.
  destruct (Rlt_dec 0 (1 + (110 + - (100)) / 100 * 100 / 100)) as [_ | H];
    [| lra].
  cbn [fsub fopp fadd fmul].
  replace (1 + (110 + - (100)) / 100 * 100 / 100)%R with (11 / 10)%R by lra.
  replace (365 / 1)%R with 365%R by lra.
  f_equal. f_equal; f_equal; lra.
Qed.

(** ** Alignment of two frames *)




(** Without rounding, the mean and the sums of products of deviations of
    finite samples are those over the reals. *)
Lemma media_fin (l : list R) :
  l ≠ [] → media (Fin <$> l) = Fin (Rmedia l).
Proof.
  intros Hl. unfold media, Rmedia, fnat. rewrite fsum_fin, length_fmap.
  apply fdiv_fin. apply not_0_INR. by destruct l.
Qed.

Lemma suma_desvios_fin (mx my : R) (pares : list (R * R)) :
  suma_desvios (Fin mx) (Fin my) (prod_map Fin Fin <$> pares)
  = Fin (Rsuma ((λ '(x, y), ((x - mx) * (y - my))%R) <$> pares)).
Proof.
  unfold suma_desvios, Rsuma. rewrite <- fsum_fin, <- !list_fmap_compose.
  f_equal. apply list_fmap_ext. by intros i [x y] _.
Qed.

(** ** Correlation *)




Lemma Rsuma_cuadrados_nonneg (m : R) (l : list R) :
  (0 <= Rsuma ((λ '(x, y), ((x - m) * (y - m))%R) <$> zip l l))%R.
Proof.
  unfold Rsuma. induction l as [|x l IH]; [simpl; lra |].
  cbn [zip zip_with fmap list_fmap foldr].
  pose proof (Rle_0_sqr (x - m)) as Hsq. unfold Rsqr in Hsq.
  fold (zip l l). lra.
Qed.

Lemma zip_fin (l k : list R) :
  zip (Fin <$> l) (Fin <$> k) = prod_map Fin Fin <$> zip l k.
Proof.
  revert k. induction l as [|x l IH]; intros [|y k]; try done.
  cbn [zip zip_with fmap list_fmap]. f_equal. apply IH.
Qed.









Lemma asociado_fmap {A B} (f : string → A → B) nombre
    (l : list (string * A)) :
  asociado nombre ((λ '(n, v), (n, f n v)) <$> l)
  = f nombre <$> asociado nombre l.
Proof.
  induction l as [|[n v] l IH]; [done |]. cbn [fmap list_fmap asociado].
  destruct (String.eqb n nombre) eqn:E; [| apply IH].
  apply String.eqb_eq in E. by subst.
Qed.

(** An entry of [corr] is the correlation of the two columns it names. *)
Lemma entrada_corr (t : Tabla) (a b : string) :
  entrada (corr t) a b
  = x ← asociado a (columnas t); y ← asociado b (columnas t);
    Some (pearson x y).
Proof.
  unfold entrada, corr.
  rewrite (asociado_fmap
             (λ _ x, (λ '(b, y), (b, pearson x y)) <$> columnas t)).
  destruct (asociado a (columnas t)) as [x|]; [| done]. cbn.
  rewrite (asociado_fmap (λ _ y, pearson x y)).
  by destruct (asociado b (columnas t)).
Qed.



Section CorrelacionTeoremas.
Context {W : Type} (yf : Entorno W) (relleno : bool).


(** One iteration of the loop of [calcular_matriz_correlacion]. *)
Local Abbreviation paso desde hasta :=
  (λ '(datos_combinados, m) simbolo,
     let '(df, m') :=
       obtener_dataframe_historico yf simbolo desde (Some hasta) DIA_1 m in
     match df with
     | Some df =>
         (asignar_columna datos_combinados simbolo (serie_cierre df), m')
     | None => (datos_combinados, m')
     end).


End CorrelacionTeoremas.

(** No symbol has data: the matrix is absent. *)
Example calcular_matriz_correlacion_sin_datos :
  (calcular_matriz_correlacion proveedor_vacio true ["GGAL"; "YPF"] 0%Z None
     mundo_inicial).1 = None.
Proof. reflexivity. Qed.





(** ** Variance of finite samples *)

(** The sample variance of finite values is the sum of their squared
    deviations from the mean over [n - 1]. *)
Lemma var_fin (l : list R) :
  2 ≤ length l →
  var (Fin <$> l) = Fin (Rdesvios (zip l l) / INR (length l - 1)).
Proof.
  intros Hn. unfold var. cbv zeta. rewrite validos_fin, length_fmap.
  destruct (Nat.leb_spec (length l) 1) as [| _]; [lia |].
  rewrite zip_fin, media_fin by (intros ->; simpl in Hn; lia).
  rewrite suma_desvios_fin. unfold fnat. rewrite fdiv_fin.
  - unfold Rdesvios. by rewrite fst_zip, snd_zip.
  - apply not_0_INR. lia.
Qed.

(** Equal values have no deviation from their mean. *)
Lemma Rsuma_constante (c : R) (l : list R) :
  Forall (λ x, x = c) l → Rsuma l = (INR (length l) * c)%R.
Proof.
  unfold Rsuma. induction 1 as [|x l -> _ IH]; [simpl; lra |].
  cbn [foldr length]. rewrite IH, S_INR. lra.
Qed.

Lemma Rsuma_cuadrados_constantes (c : R) (l : list R) :
  Forall (λ x, x = c) l →
  Rsuma ((λ '(x, y), ((x - c) * (y - c))%R) <$> zip l l) = 0%R.
Proof.
  unfold Rsuma. induction 1 as [|x l -> _ IH]; [done |].
  cbn [zip zip_with fmap list_fmap foldr]. fold (zip l l). rewrite IH. lra.
Qed.

Lemma Rdesvios_constantes (c : R) (l : list R) :
  Forall (λ x, x = c) l → Rdesvios (zip l l) = 0%R.
Proof.
  intros Hc. unfold Rdesvios. rewrite fst_zip, snd_zip by done.
  destruct l as [|x0 l0]; [done |].
  assert (Hm : Rmedia (x0 :: l0) = c).
  { unfold Rmedia. rewrite (Rsuma_constante c) by done.
    field. by apply not_0_INR. }
  rewrite Hm. by apply Rsuma_cuadrados_constantes.
Qed.

(* ===================================================================== *)
(** * Part III: further properties of the client *)
(* ===================================================================== *)

(** ** The normaliser keeps order and leaves no gap *)


Lemma convert_con_precios (df : list RawRow) simbolo :
  Forall (λ c, con_precios c ∧ Cotizacion.simbolo c = simbolo)
         (_convert_yf_history_to_cotizaciones df simbolo).
Proof.
  rewrite convert_filter. apply Forall_fmap, Forall_forall.
  intros row Hrow. by apply list_elem_of_filter in Hrow as [Hc _].
Qed.

Lemma convert_timestamps (df : list RawRow) simbolo :
  Cotizacion.timestamp <$> _convert_yf_history_to_cotizaciones df simbolo
  = to_pydatetime <$> (Index <$> filter completa df).
Proof. by rewrite convert_filter, <- !list_fmap_compose. Qed.



Lemma to_pydatetime_mono (t u : datetime) :
  (t ≤ u)%Z → (to_pydatetime t ≤ to_pydatetime u)%Z.
Proof.
  intros H. unfold to_pydatetime.
  apply Z.mul_le_mono_nonneg_r; [lia |]. by apply Z.div_le_mono.
Qed.



(** ** The shape of a historical response *)

Lemma last_List_last {A} (l : list A) (d : A) :
  l ≠ [] → last l = Some (List.last l d).
Proof.
  induction l as [|x [|y l] IH]; [done | done |]. intros _.
  rewrite last_cons_cons. by apply IH.
Qed.

Section RespuestaTeoremas.
Context {W : Type} (yf : Entorno W).

Lemma obtener_historico_datos (solicitud : SolicitudHistorico.t)
    (m : Mundo W) :
  let r := (obtener_historico yf solicitud m).1 in
  Forall (λ c, con_precios c
               ∧ Cotizacion.simbolo c = SolicitudHistorico.simbolo solicitud)
         (RespuestaHistorico.datos r) ∧
  (RespuestaHistorico.estado r = OK ↔ RespuestaHistorico.datos r ≠ []).
Proof.
  cbv zeta. unfold obtener_historico.
  destruct (ticker_history yf _ _ m) as [[e|df] m']; cbn [fst].
  { split; [constructor | done]. }
  destruct (df_empty df); cbn [fst]; [split; [constructor | done] |].
  pose proof (convert_con_precios df (SolicitudHistorico.simbolo solicitud))
    as Hp.
  destruct (_convert_yf_history_to_cotizaciones df _) as [|c cs];
    cbn [fst RespuestaHistorico.datos RespuestaHistorico.estado];
    (split; [done |]); done.
Qed.

Lemma obtener_historico_llamadas (solicitud : SolicitudHistorico.t)
    (m : Mundo W) :
  llamadas (obtener_historico yf solicitud m).2
  = llamadas m
    ++ [LlHistory (_get_yahoo_symbol (SolicitudHistorico.simbolo solicitud))
                  (rango_solicitado yf solicitud m)].
Proof.
  unfold obtener_historico, rango_solicitado, default.
  match goal with |- context [ticker_history yf ?sy ?args m] =>
    pose proof (ticker_history_llamadas yf sy args m) as Hll;
    destruct (ticker_history yf sy args m) as [[e|df] m'] end;
    cbn [fst snd] in *; [done |].
  destruct (df_empty df); [done |].
  by destruct (_convert_yf_history_to_cotizaciones df _).
Qed.

(** X2. [obtener_historico] sends exactly one request, for the resolved
    symbol and the requested range, and its response has one of two shapes.
    An OK response has at least one bar, every bar priced and carrying the
    queried symbol, no message and no error code, and a metadata record
    whose [registros] is the number of bars, whose [desde] and [hasta] are
    the timestamps of the first and of the last bar, and whose interval and
    [ajustado] are those of the request. An ERROR response has no bar and
    no metadata, and has both a message and an error code. *)
Theorem obtener_historico_respuesta (solicitud : SolicitudHistorico.t)
    (m : Mundo W) :
  let simbolo := SolicitudHistorico.simbolo solicitud in
  let r := (obtener_historico yf solicitud m).1 in
  llamadas (obtener_historico yf solicitud m).2
  = llamadas m ++ [LlHistory (_get_yahoo_symbol simbolo)
                             (rango_solicitado yf solicitud m)] ∧
  match RespuestaHistorico.estado r with
  | OK =>
      RespuestaHistorico.datos r ≠ [] ∧
      Forall (λ c, con_precios c ∧ Cotizacion.simbolo c = simbolo)
             (RespuestaHistorico.datos r) ∧
      RespuestaHistorico.mensaje r = None ∧
      RespuestaHistorico.codigo_error r = None ∧
      ∃ meta,
        RespuestaHistorico.metadata r = Some meta ∧
        MetadataHistorico.simbolo meta = simbolo ∧
        MetadataHistorico.registros meta = length (RespuestaHistorico.datos r) ∧
        head (Cotizacion.timestamp <$> RespuestaHistorico.datos r)
        = Some (MetadataHistorico.desde meta) ∧
        last (Cotizacion.timestamp <$> RespuestaHistorico.datos r)
        = Some (MetadataHistorico.hasta meta) ∧
        MetadataHistorico.intervalo meta
        = Intervalo_value (SolicitudHistorico.intervalo solicitud) ∧
        MetadataHistorico.ajustado meta = SolicitudHistorico.ajustado solicitud
  | ERROR =>
      RespuestaHistorico.datos r = [] ∧
      RespuestaHistorico.metadata r = None ∧
      is_Some (RespuestaHistorico.mensaje r) ∧
      is_Some (RespuestaHistorico.codigo_error r)
  end.
Proof.
  cbv zeta. unfold obtener_historico, rango_solicitado, default.
  match goal with |- context [ticker_history yf ?sy ?args m] =>
    pose proof (ticker_history_llamadas yf sy args m) as Hll;
    destruct (ticker_history yf sy args m) as [[e|df] m'] end;
    cbn [fst snd] in *.
  { split; [done |]. cbn. eauto. }
  destruct (df_empty df) eqn:Edf; cbn [fst snd].
  { split; [done |]. cbn. eauto. }
  pose proof (convert_con_precios df (SolicitudHistorico.simbolo solicitud))
    as Hprecios.
  destruct (_convert_yf_history_to_cotizaciones df _) as [|c cs] eqn:Ec;
    cbn [fst snd].
  { split; [done |]. cbn. eauto. }
  split; [done |]. cbn [RespuestaHistorico.estado RespuestaHistorico.datos
    RespuestaHistorico.mensaje RespuestaHistorico.codigo_error
    RespuestaHistorico.metadata].
  split_and!; [done | done | done | done |].
  eexists. split; [done |]. cbn [MetadataHistorico.simbolo
    MetadataHistorico.registros MetadataHistorico.desde MetadataHistorico.hasta
    MetadataHistorico.intervalo MetadataHistorico.ajustado].
  split_and!; try done.
  by rewrite fmap_last, (last_List_last _ c).
Qed.
End RespuestaTeoremas.

(** ** The latest bar is the oldest of its window *)

Lemma filter_creciente (df : list RawRow) (P : RawRow → Prop)
    `{∀ row, Decision (P row)} :
  StronglySorted Z.le (Index <$> df) →
  StronglySorted Z.le (Index <$> filter P df).
Proof.
  induction df as [|row df IH]; [done |].
  rewrite fmap_cons. intros Hs. apply StronglySorted_inv in Hs as [Hs Hrow].
  rewrite filter_cons. destruct (decide (P row)); [| by apply IH].
  rewrite fmap_cons. constructor; [by apply IH |].
  rewrite Forall_forall in Hrow. apply Forall_forall.
  intros t Ht. apply Hrow.
  apply list_elem_of_fmap in Ht as (r & -> & Hr).
  apply list_elem_of_filter in Hr as [_ Hr]. apply list_elem_of_fmap; eauto.
Qed.

Lemma creciente_to_pydatetime (l : list datetime) :
  StronglySorted Z.le l → StronglySorted Z.le (to_pydatetime <$> l).
Proof.
  induction 1 as [|t l _ IH Ht]; [constructor |].
  rewrite fmap_cons. constructor; [done |].
  apply Forall_fmap. eapply Forall_impl; [done |].
  intros u Hu. by apply to_pydatetime_mono.
Qed.

Section AntiguaTeoremas.
Context {W : Type} (yf : Entorno W).

(** X3. A bar [obtener_ultima_cotizacion] returns carries the queried
    symbol and has its four prices present; it is a bar of the frame the
    escalation stopped at, and when the index of that frame is ascending, as
    the provider's is, no bar of the frame is older than it: the bar
    returned is the oldest priced session of the window. *)
Theorem obtener_ultima_cotizacion_mas_antigua (simbolo : string)
    (m : Mundo W) (c : Cotizacion.t) :
  (obtener_ultima_cotizacion yf simbolo m).1 = Some c →
  Cotizacion.simbolo c = simbolo ∧ con_precios c ∧
  ∃ df, (escalar yf VENTANAS (_get_yahoo_symbol simbolo) m).1 = VMarco df ∧
        c ∈ _convert_yf_history_to_cotizaciones df simbolo ∧
        (StronglySorted Z.le (Index <$> df) →
         Forall (λ c', (Cotizacion.timestamp c ≤ Cotizacion.timestamp c')%Z)
                (_convert_yf_history_to_cotizaciones df simbolo)).
Proof.
  unfold obtener_ultima_cotizacion.
  rewrite ajuste_ypf_id, ultima_cotizacion_con_escalar. cbn [fst].
  destruct (escalar yf VENTANAS (_get_yahoo_symbol simbolo) m).1
    as [| |df]; [done | done |].
  intros Hhead.
  pose proof (convert_con_precios df simbolo) as Hprecios.
  pose proof (convert_timestamps df simbolo) as Htiempos.
  destruct (_convert_yf_history_to_cotizaciones df simbolo) as [|c0 cs]
    eqn:Ec; [done |].
  injection Hhead as ->. apply Forall_cons in Hprecios as [[Hc Hs] _].
  split_and!; [done | done |]. exists df. rewrite Ec.
  split_and!; [done | apply list_elem_of_here |].
  intros Hord. apply (filter_creciente df completa) in Hord.
  apply (creciente_to_pydatetime _) in Hord.
  rewrite <- Htiempos, fmap_cons in Hord.
  apply StronglySorted_inv in Hord as [_ Hord].
  apply Forall_cons. split; [lia |].
  rewrite Forall_forall in Hord. apply Forall_forall. intros c' Hc'.
  apply Hord, list_elem_of_fmap. eauto.
Qed.
End AntiguaTeoremas.

(** With an empty 1-day window and a 5-day window of three priced sessions,
    the session of day 2 is returned, as [obtener_ultima_cotizacion_mas_antigua]
    describes. *)
Lemma obtener_ultima_cotizacion_mas_antigua_witness :
  let c := cotizacion_de_fila "GGAL" (fila_buena (timedelta_days 2) 90) in
  (obtener_ultima_cotizacion proveedor_semana "GGAL" mundo_inicial).1 = Some c ∧
  Cotizacion.simbolo c = "GGAL" ∧ con_precios c ∧
  ∃ df, (escalar proveedor_semana VENTANAS (_get_yahoo_symbol "GGAL")
           mundo_inicial).1 = VMarco df ∧
        c ∈ _convert_yf_history_to_cotizaciones df "GGAL" ∧
        (StronglySorted Z.le (Index <$> df) →
         Forall (λ c', (Cotizacion.timestamp c ≤ Cotizacion.timestamp c')%Z)
                (_convert_yf_history_to_cotizaciones df "GGAL")).
Proof.
  split; [reflexivity |].
  apply (obtener_ultima_cotizacion_mas_antigua proveedor_semana "GGAL"
           mundo_inicial). reflexivity.
Defined.

(** ** Batches compose *)

Section ComposicionTeoremas.
Context {W : Type} (yf : Entorno W).

Lemma multiples_app previos resto (m : Mundo W) :
  obtener_cotizaciones_multiples yf (previos ++ resto) m
  = let primero := obtener_cotizaciones_multiples yf previos m in
    let segundo := obtener_cotizaciones_multiples yf resto primero.2 in
    (segundo.1 ∪ primero.1, segundo.2).
Proof.
  cbv zeta. induction resto as [|simbolo resto IH] using rev_ind.
  - rewrite app_nil_r. unfold obtener_cotizaciones_multiples at 2 3.
    simpl. rewrite (left_id_L ∅ (∪)).
    by destruct (obtener_cotizaciones_multiples yf previos m).
  - rewrite app_assoc, !multiples_snoc, IH. cbv zeta. cbn [fst snd].
    by rewrite insert_union_l.
Qed.

Lemma ultima_llamadas_cota simbolo (m : Mundo W) :
  ∃ k, 1 ≤ k ≤ 3 ∧
    length (llamadas (obtener_ultima_cotizacion yf simbolo m).2)
    = length (llamadas m) + k.
Proof.
  unfold obtener_ultima_cotizacion.
  rewrite ajuste_ypf_id, ultima_cotizacion_con_escalar. cbn [snd].
  destruct (escalar_llamadas yf VENTANAS (_get_yahoo_symbol simbolo) m)
    as (k & [? | Hk1] & Hk3 & ->); [done |].
  exists k. simpl in Hk3. split; [lia |].
  rewrite length_app, length_fmap, length_take. simpl. lia.
Qed.

(** X4. [obtener_cotizaciones_multiples] on a list split in two is the batch
    of the first part followed, from the world it leaves, by the batch of
    the second, the entries of the second taking precedence on a symbol
    that occurs in both. The empty list gives the empty mapping and sends
    nothing, and a batch sends between one and three requests per
    symbol. *)
Theorem obtener_cotizaciones_multiples_compone (previos resto : list string)
    (m : Mundo W) :
  let primero := obtener_cotizaciones_multiples yf previos m in
  let segundo := obtener_cotizaciones_multiples yf resto primero.2 in
  let lote := obtener_cotizaciones_multiples yf (previos ++ resto) m in
  lote = (segundo.1 ∪ primero.1, segundo.2) ∧
  obtener_cotizaciones_multiples yf [] m = (∅, m) ∧
  length (llamadas m) + length previos
    ≤ length (llamadas primero.2)
    ≤ length (llamadas m) + 3 * length previos.
Proof.
  cbv zeta. split; [apply multiples_app |]. split; [done |].
  clear resto.
  induction previos as [|simbolo previos IH] using rev_ind; [simpl; lia |].
  rewrite multiples_snoc. cbv zeta. cbn [snd].
  destruct (ultima_llamadas_cota simbolo
              (obtener_cotizaciones_multiples yf previos m).2)
    as (k & Hk & ->).
  rewrite length_app. simpl. lia.
Qed.
End ComposicionTeoremas.

(** ** The instrument cache *)

Section CacheTeoremas.
Context {W : Type} (yf : Entorno W).

Lemma ticker_info_llamadas sy (m : Mundo W) :
  llamadas (ticker_info yf sy m).2 = llamadas m ++ [LlInfo sy].
Proof. unfold ticker_info. by destruct (info yf sy (estado m)). Qed.

Lemma obtener_activo_casos simbolo (c : Cliente W) :
  let sy := _get_yahoo_symbol simbolo in
  let r := obtener_activo yf simbolo c in
  match _activos_cache c !! simbolo with
  | Some activo => r = (Some activo, c)
  | None =>
      ∃ k, 1 ≤ k ≤ 3 ∧
        llamadas (mundo r.2)
        = llamadas (mundo c) ++ take k (solicitudes_activo sy) ∧
        match r.1 with
        | Some activo =>
            (∃ info, activo = crear_activo simbolo sy info) ∧
            _activos_cache r.2 = <[simbolo := activo]> (_activos_cache c)
        | None => 2 ≤ k ∧ _activos_cache r.2 = _activos_cache c
        end
  end.
Proof.
  cbv zeta. unfold obtener_activo.
  destruct (_activos_cache c !! simbolo) as [activo|]; [done |].
  set (sy := _get_yahoo_symbol simbolo).
  pose proof (ticker_info_llamadas sy (mundo c)) as Hinfo.
  destruct (ticker_info yf sy (mundo c)) as [[e|info] m1]; cbn [snd] in Hinfo.
  - pose proof (ticker_history_llamadas yf sy (Periodo "1d") m1) as Hh.
    destruct (ticker_history yf sy (Periodo "1d") m1) as [[e'|df] m2];
      cbn [snd] in Hh.
    + exists 2. cbn [fst snd mundo _activos_cache].
      rewrite Hh, Hinfo, <- app_assoc. split_and!; [lia | lia | done | done | done].
    + destruct (df_empty df); exists 2; cbn [fst snd mundo _activos_cache];
        rewrite Hh, Hinfo, <- app_assoc;
        (split_and!; [lia | lia | done | ..]); try done. by eexists.
  - destruct (bool_decide (info = ∅)).
    + pose proof (ticker_history_llamadas yf sy (Periodo "1d") m1) as Hh.
      destruct (ticker_history yf sy (Periodo "1d") m1) as [[e'|df] m2];
        cbn [snd] in Hh.
      * pose proof (ticker_history_llamadas yf sy (Periodo "1d") m2) as Hh2.
        destruct (ticker_history yf sy (Periodo "1d") m2) as [[e''|df] m3];
          cbn [snd] in Hh2.
        -- exists 3. cbn [fst snd mundo _activos_cache].
           rewrite Hh2, Hh, Hinfo, <- !app_assoc.
           split_and!; [lia | lia | done | lia | done].
        -- destruct (df_empty df); exists 3; cbn [fst snd mundo _activos_cache];
             rewrite Hh2, Hh, Hinfo, <- !app_assoc;
             (split_and!; [lia | lia | done | ..]); try done; [lia | by eexists].
      * destruct (df_empty df); exists 2; cbn [fst snd mundo _activos_cache];
          rewrite Hh, Hinfo, <- app_assoc;
          (split_and!; [lia | lia | done | ..]); try done. by eexists.
    + exists 1. cbn [fst snd mundo _activos_cache]. rewrite Hinfo.
      split_and!; [lia | lia | done | by eexists | done].
Qed.

Lemma cache_persiste simbolo otro (c : Cliente W) activo :
  _activos_cache c !! simbolo = Some activo →
  _activos_cache (obtener_activo yf otro c).2 !! simbolo = Some activo.
Proof.
  intros Hs. pose proof (obtener_activo_casos otro c) as H. cbv zeta in H.
  destruct (_activos_cache c !! otro) as [a|] eqn:Ho; [by rewrite H |].
  destruct H as (k & _ & _ & H).
  destruct (obtener_activo yf otro c).1 as [a|].
  - destruct H as [_ ->]. rewrite lookup_insert_ne; [done |]. congruence.
  - destruct H as [_ ->]. done.
Qed.

Lemma sigue_cache (c c' : Cliente W) simbolo activo :
  sigue yf c c' →
  _activos_cache c !! simbolo = Some activo →
  _activos_cache c' !! simbolo = Some activo.
Proof.
  induction 1 as [| c' otro _ IH | c' m _ IH]; intros Hs; [done | | by apply IH].
  by apply cache_persiste, IH.
Qed.

(** X5. Once [obtener_activo] has returned an instrument for a symbol, every
    later call for that symbol, after any number of lookups and whatever the
    provider has become, returns the same instrument without a request and
    without a change of state. *)
Theorem obtener_activo_memoiza (simbolo : string) (c c' : Cliente W)
    (activo : ActivoFinanciero.t) :
  (obtener_activo yf simbolo c).1 = Some activo →
  sigue yf (obtener_activo yf simbolo c).2 c' →
  obtener_activo yf simbolo c' = (Some activo, c').
Proof.
  intros Hr Hsigue.
  assert (Hc : _activos_cache (obtener_activo yf simbolo c).2 !! simbolo
               = Some activo).
  { pose proof (obtener_activo_casos simbolo c) as H. cbv zeta in H.
    destruct (_activos_cache c !! simbolo) as [a|] eqn:Hs.
    - rewrite H in Hr |- *. cbn [fst snd] in *. congruence.
    - destruct H as (k & _ & _ & H). rewrite Hr in H.
      destruct H as [_ ->]. by rewrite lookup_insert_eq. }
  apply (sigue_cache _ _ _ _ Hsigue) in Hc.
  pose proof (obtener_activo_casos simbolo c') as H. cbv zeta in H.
  by rewrite Hc in H.
Qed.

(** X6. A cached symbol is answered from the cache: no request, no change.
    For a symbol that is not cached [obtener_activo] sends a non-empty
    prefix of: the info request, the 1-day history request, the 1-day
    history request again. When it succeeds the cache gains the symbol with
    the instrument returned and nothing else changes in it; when it fails
    at least two requests were sent and the cache is as it was, so a failure
    is never cached. *)
Theorem obtener_activo_solicitudes (simbolo : string) (c : Cliente W) :
  let sy := _get_yahoo_symbol simbolo in
  let r := obtener_activo yf simbolo c in
  match _activos_cache c !! simbolo with
  | Some activo => r = (Some activo, c)
  | None =>
      ∃ k, 1 ≤ k ≤ 3 ∧
        llamadas (mundo r.2)
        = llamadas (mundo c) ++ take k (solicitudes_activo sy) ∧
        match r.1 with
        | Some activo =>
            _activos_cache r.2 = <[simbolo := activo]> (_activos_cache c)
        | None => 2 ≤ k ∧ _activos_cache r.2 = _activos_cache c
        end
  end.
Proof.
  cbv zeta. pose proof (obtener_activo_casos simbolo c) as H. cbv zeta in H.
  destruct (_activos_cache c !! simbolo); [done |].
  destruct H as (k & Hk & Hll & H). exists k. split_and!; [lia | lia | done |].
  destruct (obtener_activo yf simbolo c).1; [by destruct H | done].
Qed.
End CacheTeoremas.

(** "GGAL" looked up, then "YPF", then the world replaced: the second lookup
    of "GGAL" gives the first instrument, as [obtener_activo_memoiza]
    states. *)
Lemma obtener_activo_memoiza_witness :
  let c1 := (obtener_activo proveedor_con_info "GGAL" cliente_inicial).2 in
  let c2 := (obtener_activo proveedor_con_info "YPF" c1).2 in
  let c3 := {| _activos_cache := _activos_cache c2; mundo := mundo_inicial |} in
  ∃ activo,
    (obtener_activo proveedor_con_info "GGAL" cliente_inicial).1 = Some activo ∧
    obtener_activo proveedor_con_info "GGAL" c3 = (Some activo, c3).
Proof.
  cbv zeta. eexists. split; [reflexivity |].
  apply (obtener_activo_memoiza proveedor_con_info "GGAL" cliente_inicial);
    [reflexivity |].
  apply sigue_mundo, sigue_activo, sigue_aqui.
Defined.

(** ** The classification of instruments *)

Lemma denominacion_de_no_vacia simbolo info :
  simbolo ≠ "" → denominacion_de simbolo info ≠ "".
Proof.
  intros Hs. unfold denominacion_de, truthy.
  assert (Hcorto :
    match info !! "shortName" with
    | Some corto => if negb (String.eqb corto "") then corto else simbolo
    | None => simbolo
    end ≠ "").
  { destruct (info !! "shortName") as [corto|]; [| done].
    destruct (String.eqb corto "") eqn:E; [done |]. simpl.
    by apply String.eqb_neq. }
  destruct (bool_decide (info = ∅)); [done |].
  destruct (info !! "longName") as [largo|]; [| done].
  destruct (String.eqb largo "") eqn:E; [done |]. simpl.
  by apply String.eqb_neq.
Qed.

Lemma get_yahoo_symbol_no_listado simbolo :
  simbolo ∉ SIMBOLOS_TABLA.*1 → ¬ has_suffix ".ADR" simbolo →
  has_suffix ".BA" (_get_yahoo_symbol simbolo).
Proof.
  intros Hout Hadr. unfold _get_yahoo_symbol.
  apply SIMBOLOS_MAPPING_None in Hout. rewrite Hout.
  rewrite <- endswith_spec in Hadr. apply not_true_is_false in Hadr.
  rewrite Hadr. destruct (endswith simbolo ".BA") eqn:E; simpl.
  - by apply endswith_spec.
  - by exists simbolo.
Qed.

Section ClasificacionTeoremas.
Context {W : Type} (yf : Entorno W).

(** X7. An instrument [obtener_activo] returns, in any state the client can
    reach, carries the queried symbol and its resolved provider symbol, the
    panel LIDER and no ISIN or CFI code. Its market and currency are BYMA
    with ARS or NYSE with USD, NYSE exactly when the provider symbol does
    not end in ".BA" and either holds no "." or starts with "^". Its type is
    ACCION, BONO, ETF or CEDEAR, CEDEAR only for a queried symbol that ends
    in ".ADR". Its name is not empty unless the queried symbol is. A symbol
    that is not in the table and does not end in ".ADR" is an ACCION of
    BYMA in ARS. *)
Theorem obtener_activo_clasifica (c : Cliente W) (simbolo : string)
    (activo : ActivoFinanciero.t) :
  alcanzable yf c →
  (obtener_activo yf simbolo c).1 = Some activo →
  let sy := _get_yahoo_symbol simbolo in
  ActivoFinanciero.simbolo activo = simbolo ∧
  ActivoFinanciero.simbolo_yahoo activo = Some sy ∧
  ActivoFinanciero.panel activo = LIDER ∧
  ActivoFinanciero.codigo_isin activo = None ∧
  ActivoFinanciero.codigo_cfi activo = None ∧
  (ActivoFinanciero.mercado activo = BYMA ∧ ActivoFinanciero.moneda activo = ARS
   ∨ ActivoFinanciero.mercado activo = NYSE
     ∧ ActivoFinanciero.moneda activo = USD) ∧
  (ActivoFinanciero.mercado activo = NYSE ↔
   ¬ has_suffix ".BA" sy ∧ (¬ occurs_in "." sy ∨ has_prefix "^" sy)) ∧
  ActivoFinanciero.tipo activo ∈ [ACCION; BONO; ETF; CEDEAR] ∧
  (ActivoFinanciero.tipo activo = CEDEAR → has_suffix ".ADR" simbolo) ∧
  (simbolo ≠ "" → ActivoFinanciero.denominacion activo ≠ "") ∧
  (simbolo ∉ SIMBOLOS_TABLA.*1 → ¬ has_suffix ".ADR" simbolo →
   ActivoFinanciero.tipo activo = ACCION ∧
   ActivoFinanciero.mercado activo = BYMA ∧
   ActivoFinanciero.moneda activo = ARS).
Proof.
  intros Halc Hr. apply alcanzable_clasificado in Halc.
  destruct (obtener_activo_cache yf simbolo c Halc) as [_ Hact].
  destruct (Hact activo Hr) as [info ->]. clear Hact Hr Halc. cbv zeta.
  cbn [crear_activo ActivoFinanciero.simbolo ActivoFinanciero.simbolo_yahoo
       ActivoFinanciero.panel ActivoFinanciero.codigo_isin
       ActivoFinanciero.codigo_cfi ActivoFinanciero.mercado
       ActivoFinanciero.moneda ActivoFinanciero.tipo
       ActivoFinanciero.denominacion].
  set (sy := _get_yahoo_symbol simbolo).
  assert (Hmercado : mercado_de sy = NYSE ↔
            ¬ has_suffix ".BA" sy ∧ (¬ occurs_in "." sy ∨ has_prefix "^" sy)).
  { unfold mercado_de, startswith.
    rewrite <- endswith_spec, <- contains_spec, <- prefix_spec.
    destruct (endswith sy ".BA"), (contains "." sy), (String.prefix "^" sy);
      simpl;
      (split; [intros ?; first [done | split; [by intros ? | auto]]
              | intros [Hx [Hy | Hy]];
                first [done | by destruct Hx | by destruct Hy]]). }
  split_and!; try done.
  - unfold moneda_de, mercado_de.
    destruct (endswith sy ".BA"); [by left |].
    destruct (negb (contains "." sy) || startswith sy "^"); [by right | by left].
  - unfold tipo_de.
    destruct (String.eqb sy "^MERV"), (String.eqb sy "ARGT"),
      (endswith simbolo ".ADR");
      by repeat first [apply list_elem_of_here | apply list_elem_of_further].
  - unfold tipo_de.
    destruct (String.eqb sy "^MERV"); [done |].
    destruct (String.eqb sy "ARGT"); [done |].
    destruct (endswith simbolo ".ADR") eqn:E; [| done].
    intros _. by apply endswith_spec.
  - apply denominacion_de_no_vacia.
  - intros Hout Hadr.
    pose proof (get_yahoo_symbol_no_listado simbolo Hout Hadr) as Hba.
    fold sy in Hba. apply endswith_spec in Hba.
    assert (Ht : tipo_de simbolo sy = ACCION).
    { unfold tipo_de.
      destruct (String.eqb sy "^MERV") eqn:E1.
      { apply String.eqb_eq in E1. rewrite E1 in Hba. done. }
      destruct (String.eqb sy "ARGT") eqn:E2.
      { apply String.eqb_eq in E2. rewrite E2 in Hba. done. }
      rewrite <- endswith_spec in Hadr. by destruct (endswith simbolo ".ADR"). }
    unfold moneda_de, mercado_de. by rewrite Hba.
Qed.
End ClasificacionTeoremas.

(** "TSLA" is not in the table: it is looked up as "TSLA.BA" and classified
    as [obtener_activo_clasifica] states. *)
Lemma obtener_activo_clasifica_witness :
  ∃ activo,
    (obtener_activo proveedor_con_info "TSLA" cliente_inicial).1 = Some activo ∧
    ActivoFinanciero.simbolo_yahoo activo = Some "TSLA.BA" ∧
    ActivoFinanciero.tipo activo = ACCION ∧
    ActivoFinanciero.mercado activo = BYMA ∧
    ActivoFinanciero.moneda activo = ARS.
Proof.
  eexists. split; [reflexivity |].
  destruct (obtener_activo_clasifica proveedor_con_info cliente_inicial "TSLA"
              _ (alc_inicio _ _) eq_refl)
    as (_ & _ & _ & _ & _ & _ & _ & _ & _ & _ & H).
  split; [reflexivity |]. apply H.
  - by apply (bool_decide_unpack _); vm_compute.
  - intros Hs. apply endswith_spec in Hs. by vm_compute in Hs.
Defined.

(** ** Instruments to dictionaries and back *)

Lemma miembro_value {E : Type} (value : E → string) (miembros : list E)
    (e : E) :
  List.find (λ e', String.eqb (value e') (value e)) miembros = Some e →
  miembro value miembros (Some (value e)) = inr e.
Proof. intros H. unfold miembro. by rewrite H. Qed.

Lemma miembro_inr {E : Type} (value : E → string) (miembros : list E)
    (valor : option string) (e : E) :
  miembro value miembros valor = inr e → valor = Some (value e).
Proof.
  unfold miembro. destruct valor as [s|]; [| done].
  destruct (List.find _ miembros) as [e'|] eqn:F; [| done].
  intros [= <-]. apply List.find_some in F as [_ F].
  apply String.eqb_eq in F. by rewrite F.
Qed.

Lemma miembro_o_inr {E : Type} (value : E → string) (miembros : list E)
    (data : Dict) (clave : string) (omision e : E) :
  miembro_o value miembros data clave omision = inr e →
  match data !! clave with
  | Some valor => valor = Some (value e)
  | None => e = omision
  end.
Proof.
  unfold miembro_o. destruct (data !! clave) as [valor|].
  - apply miembro_inr.
  - by intros [= <-].
Qed.

Lemma from_dict_inv (data : Dict) (activo : ActivoFinanciero.t) :
  ActivoFinanciero_from_dict data = Devuelve activo →
  data !! "simbolo" = Some (Some (ActivoFinanciero.simbolo activo)) ∧
  data !! "tipo"
  = Some (Some (TipoActivo_value (ActivoFinanciero.tipo activo))) ∧
  data !! "denominacion"
  = Some (Some (ActivoFinanciero.denominacion activo)) ∧
  match data !! "panel" with
  | Some valor =>
      valor = Some (PanelMercado_value (ActivoFinanciero.panel activo))
  | None => ActivoFinanciero.panel activo = LIDER
  end ∧
  match data !! "mercado" with
  | Some valor => valor = Some (Mercado_value (ActivoFinanciero.mercado activo))
  | None => ActivoFinanciero.mercado activo = BYMA
  end ∧
  match data !! "moneda" with
  | Some valor => valor = Some (Moneda_value (ActivoFinanciero.moneda activo))
  | None => ActivoFinanciero.moneda activo = ARS
  end ∧
  ActivoFinanciero.codigo_isin activo = get data "codigoISIN" ∧
  ActivoFinanciero.codigo_cfi activo = get data "codigoCFI" ∧
  ActivoFinanciero.simbolo_yahoo activo = get data "simboloYahoo".
Proof.
  unfold ActivoFinanciero_from_dict, item.
  destruct (data !! "simbolo") as [simbolo|]; [| done].
  destruct (data !! "tipo") as [tipo|]; [| done].
  destruct (miembro TipoActivo_value _ tipo) as [e|t] eqn:Ht; [done |].
  destruct (data !! "denominacion") as [denominacion|]; [| done].
  destruct (miembro_o PanelMercado_value _ data "panel" LIDER)
    as [e|p] eqn:Hp; [done |].
  destruct (miembro_o Mercado_value _ data "mercado" BYMA)
    as [e|me] eqn:Hme; [done |].
  destruct (miembro_o Moneda_value _ data "moneda" ARS)
    as [e|mo] eqn:Hmo; [done |].
  destruct simbolo as [simbolo|]; [| done].
  destruct denominacion as [denominacion|]; [| done].
  intros [= <-]. apply miembro_inr in Ht. apply miembro_o_inr in Hp, Hme, Hmo.
  cbn [ActivoFinanciero.simbolo ActivoFinanciero.tipo
       ActivoFinanciero.denominacion ActivoFinanciero.panel
       ActivoFinanciero.mercado ActivoFinanciero.moneda
       ActivoFinanciero.codigo_isin ActivoFinanciero.codigo_cfi
       ActivoFinanciero.simbolo_yahoo].
  by rewrite Ht.
Qed.

Lemma to_dict_lookup (activo : ActivoFinanciero.t) :
  let data := ActivoFinanciero_to_dict activo in
  data !! "simbolo" = Some (Some (ActivoFinanciero.simbolo activo)) ∧
  data !! "tipo"
  = Some (Some (TipoActivo_value (ActivoFinanciero.tipo activo))) ∧
  data !! "denominacion"
  = Some (Some (ActivoFinanciero.denominacion activo)) ∧
  data !! "panel"
  = Some (Some (PanelMercado_value (ActivoFinanciero.panel activo))) ∧
  data !! "mercado"
  = Some (Some (Mercado_value (ActivoFinanciero.mercado activo))) ∧
  data !! "moneda"
  = Some (Some (Moneda_value (ActivoFinanciero.moneda activo))) ∧
  data !! "codigoISIN" = Some (ActivoFinanciero.codigo_isin activo) ∧
  data !! "codigoCFI" = Some (ActivoFinanciero.codigo_cfi activo) ∧
  data !! "simboloYahoo" = Some (ActivoFinanciero.simbolo_yahoo activo).
Proof.
  cbv zeta. unfold ActivoFinanciero_to_dict, list_to_map.
  cbn [foldr fst snd]. split_and!;
    repeat first [ apply lookup_insert_eq
                 | rewrite lookup_insert_ne by done ].
Qed.

Lemma to_dict_dom (activo : ActivoFinanciero.t) :
  dom (ActivoFinanciero_to_dict activo)
  = ({[ "simbolo"; "tipo"; "denominacion"; "panel"; "mercado"; "moneda";
        "codigoISIN"; "codigoCFI"; "simboloYahoo" ]} : gset string).
Proof.
  unfold ActivoFinanciero_to_dict, list_to_map. cbn [foldr fst snd].
  rewrite !dom_insert_L, dom_empty_L.
  apply (bool_decide_unpack _). by vm_compute.
Qed.

Lemma to_dict_from_dict (activo : ActivoFinanciero.t) :
  ActivoFinanciero_from_dict (ActivoFinanciero_to_dict activo)
  = Devuelve activo.
Proof.
  destruct (to_dict_lookup activo)
    as (Hs & Ht & Hd & Hp & Hme & Hmo & Hisin & Hcfi & Hsy).
  unfold ActivoFinanciero_from_dict, miembro_o, item, get.
  rewrite Hs, Ht, Hd, Hp, Hme, Hmo, Hisin, Hcfi, Hsy.
  rewrite (miembro_value TipoActivo_value)
    by by destruct (ActivoFinanciero.tipo activo).
  rewrite (miembro_value PanelMercado_value)
    by by destruct (ActivoFinanciero.panel activo).
  rewrite (miembro_value Mercado_value)
    by by destruct (ActivoFinanciero.mercado activo).
  rewrite (miembro_value Moneda_value)
    by by destruct (ActivoFinanciero.moneda activo).
  by destruct activo.
Qed.

(** X8. [from_dict] undoes [to_dict]: reading back the dictionary of an
    instrument returns that instrument, and the dictionary has exactly the
    nine keys of the format. When [from_dict] returns, the dictionary held
    the symbol, the type and the name it returns; a missing "panel",
    "mercado" or "moneda" is read as LIDER, BYMA or ARS and a missing
    "codigoISIN" as absent; and on every key the dictionary shares with the
    format it agrees with [to_dict] of what was returned. Without "simbolo"
    the method raises KeyError on "simbolo", and with it but without "tipo"
    KeyError on "tipo". *)
Theorem ActivoFinanciero_dict_ida_y_vuelta (activo : ActivoFinanciero.t)
    (data : Dict) :
  ActivoFinanciero_from_dict (ActivoFinanciero_to_dict activo)
  = Devuelve activo ∧
  dom (ActivoFinanciero_to_dict activo)
  = ({[ "simbolo"; "tipo"; "denominacion"; "panel"; "mercado"; "moneda";
        "codigoISIN"; "codigoCFI"; "simboloYahoo" ]} : gset string) ∧
  (ActivoFinanciero_from_dict data = Devuelve activo →
   data !! "simbolo" = Some (Some (ActivoFinanciero.simbolo activo)) ∧
   data !! "tipo"
   = Some (Some (TipoActivo_value (ActivoFinanciero.tipo activo))) ∧
   data !! "denominacion"
   = Some (Some (ActivoFinanciero.denominacion activo)) ∧
   (data !! "panel" = None → ActivoFinanciero.panel activo = LIDER) ∧
   (data !! "mercado" = None → ActivoFinanciero.mercado activo = BYMA) ∧
   (data !! "moneda" = None → ActivoFinanciero.moneda activo = ARS) ∧
   (data !! "codigoISIN" = None → ActivoFinanciero.codigo_isin activo = None) ∧
   ∀ clave, clave ∈ dom data → clave ∈ dom (ActivoFinanciero_to_dict activo) →
     data !! clave = ActivoFinanciero_to_dict activo !! clave) ∧
  (data !! "simbolo" = None →
   ActivoFinanciero_from_dict data = Lanza (KeyError "simbolo")) ∧
  (is_Some (data !! "simbolo") → data !! "tipo" = None →
   ActivoFinanciero_from_dict data = Lanza (KeyError "tipo")).
Proof.
  split_and!.
  - apply to_dict_from_dict.
  - apply to_dict_dom.
  - intros H. apply from_dict_inv in H
      as (Hs & Ht & Hd & Hp & Hme & Hmo & Hisin & Hcfi & Hsy).
    split_and!; [done | done | done | | | | |].
    + intros E. by rewrite E in Hp.
    + intros E. by rewrite E in Hme.
    + intros E. by rewrite E in Hmo.
    + intros E. rewrite Hisin. unfold get. by rewrite E.
    + intros clave Hdata Hclave.
      destruct (to_dict_lookup activo)
        as (Hs' & Ht' & Hd' & Hp' & Hme' & Hmo' & Hisin' & Hcfi' & Hsy').
      apply elem_of_dom in Hdata as [v Hv].
      rewrite to_dict_dom in Hclave. unfold get in *.
      repeat (apply elem_of_union in Hclave as [Hclave | Hclave]);
        apply elem_of_singleton in Hclave; subst clave;
        rewrite Hv in *; simpl in *; congruence.
  - intros H. unfold ActivoFinanciero_from_dict, item. by rewrite H.
  - intros [v Hv] H. unfold ActivoFinanciero_from_dict, item. by rewrite Hv, H.
Qed.

(** ** The search *)

Lemma buscar_foldl (tickers : list Info) (acc : list ActivoFinanciero.t) :
  foldl (λ resultados ticker_info,
           let ticker_symbol := default "" (ticker_info !! "symbol") in
           if es_argentino ticker_symbol
           then resultados ++ [activo_de_resultado ticker_info]
           else resultados) acc tickers
  = acc ++ (activo_de_resultado <$>
              filter (λ ticker_info,
                        es_argentino (default "" (ticker_info !! "symbol")))
                     tickers).
Proof.
  revert acc. induction tickers as [|t tickers IH]; intros acc; cbn [foldl].
  - by rewrite app_nil_r.
  - rewrite IH, filter_cons. cbv zeta.
    destruct (es_argentino (default "" (t !! "symbol"))) eqn:E.
    + rewrite decide_True by by apply Is_true_true.
      by rewrite fmap_cons, <- app_assoc.
    + by rewrite decide_False by by apply Is_true_false.
Qed.

Lemma simbolo_original_listado (sy : string) :
  sy ∈ SIMBOLOS_TABLA.*2 →
  (simbolo_original sy, sy) ∈ SIMBOLOS_TABLA.
Proof.
  intros Hin. unfold simbolo_original.
  destruct (List.find _ SIMBOLOS_TABLA) as [[k v]|] eqn:F.
  - apply List.find_some in F as [Hkv Hv]. cbn [fst snd] in *.
    apply String.eqb_eq in Hv. subst v. by apply list_elem_of_In.
  - apply list_elem_of_fmap in Hin as ([k v] & -> & Hkv).
    apply list_elem_of_In in Hkv.
    apply (List.find_none _ _ F) in Hkv. cbn [snd] in Hkv.
    by rewrite String.eqb_refl in Hkv.
Qed.

Lemma simbolo_original_no_listado (sy : string) :
  sy ∉ SIMBOLOS_TABLA.*2 → simbolo_original sy = sy.
Proof.
  intros Hout. unfold simbolo_original.
  destruct (List.find _ SIMBOLOS_TABLA) as [[k v]|] eqn:F; [| done].
  apply List.find_some in F as [Hkv Hv]. cbn [fst snd] in *.
  apply String.eqb_eq in Hv. subst v. destruct Hout.
  apply list_elem_of_fmap. exists (k, sy). split; [done |].
  by apply list_elem_of_In.
Qed.

Section BusquedaTeoremas.
Context {W : Type} (search : string → W → (Exc + list Info) * W).

Lemma buscar_activos_filter (query : string) (w : W) :
  (buscar_activos search query w).1
  = match (search query w).1 with
    | inl _ => []
    | inr tickers =>
        activo_de_resultado <$>
          filter (λ ticker_info,
                    es_argentino (default "" (ticker_info !! "symbol")))
                 (take 10 tickers)
    end.
Proof.
  unfold buscar_activos.
  destruct (search query w) as [[e|tickers] w']; cbn [fst]; [done |].
  apply (buscar_foldl (take 10 tickers) []).
Qed.

(** X9. [buscar_activos] returns at most ten instruments, none when the
    provider raises, and otherwise one for each of the first ten hits whose
    provider symbol holds ".BA" or is a value of the table, in the order of
    the hits. Each has type ACCION and is of BYMA in ARS when its provider
    symbol holds ".BA", of NYSE in USD otherwise. When the provider symbol is
    a value of the table the symbol returned resolves back to it; otherwise
    the symbol returned is the provider symbol itself. *)
Theorem buscar_activos_filtra (query : string) (w : W) :
  let resultados := (buscar_activos search query w).1 in
  length resultados ≤ 10 ∧
  (∀ e, (search query w).1 = inl e → resultados = []) ∧
  (∀ tickers, (search query w).1 = inr tickers →
     resultados
     = activo_de_resultado <$>
         filter (λ ticker_info,
                   es_argentino (default "" (ticker_info !! "symbol")))
                (take 10 tickers)) ∧
  Forall (λ activo,
    ∃ sy, ActivoFinanciero.simbolo_yahoo activo = Some sy ∧
      (occurs_in ".BA" sy ∨ sy ∈ SIMBOLOS_TABLA.*2) ∧
      ActivoFinanciero.tipo activo = ACCION ∧
      (occurs_in ".BA" sy →
       ActivoFinanciero.mercado activo = BYMA ∧
       ActivoFinanciero.moneda activo = ARS) ∧
      (¬ occurs_in ".BA" sy →
       ActivoFinanciero.mercado activo = NYSE ∧
       ActivoFinanciero.moneda activo = USD) ∧
      (sy ∈ SIMBOLOS_TABLA.*2 →
       _get_yahoo_symbol (ActivoFinanciero.simbolo activo) = sy) ∧
      (sy ∉ SIMBOLOS_TABLA.*2 → ActivoFinanciero.simbolo activo = sy))
    resultados.
Proof.
  cbv zeta. rewrite buscar_activos_filter.
  destruct (search query w).1 as [e|tickers].
  { split_and!; [simpl; lia | done | done | done]. }
  split_and!.
  - rewrite length_fmap. etrans; [apply length_filter |].
    rewrite length_take. lia.
  - done.
  - by intros ? [= <-].
  - apply Forall_fmap, Forall_forall. intros t Ht.
    apply list_elem_of_filter in Ht as [Harg _].
    set (sy := default "" (t !! "symbol")) in *.
    exists sy. cbn [activo_de_resultado ActivoFinanciero.simbolo_yahoo
      ActivoFinanciero.tipo ActivoFinanciero.mercado ActivoFinanciero.moneda
      ActivoFinanciero.simbolo]. fold sy.
    split_and!; [done | | done | | | |].
    + unfold es_argentino in Harg. apply Is_true_true in Harg.
      apply orb_true_iff in Harg as [H | H].
      * left. by apply contains_spec.
      * right. by apply bool_decide_eq_true in H.
    + intros H. apply contains_spec in H. by rewrite H.
    + intros H. rewrite <- contains_spec in H.
      by destruct (contains ".BA" sy).
    + intros H. apply simbolo_original_listado in H.
      unfold _get_yahoo_symbol.
      apply SIMBOLOS_MAPPING_lookup in H. by rewrite H.
    + apply simbolo_original_no_listado.
Qed.
End BusquedaTeoremas.

(** Three hits: a listed share of the Buenos Aires exchange, a symbol that is
    neither, and the provider symbol of a listed ADR. *)
Example buscar_activos_ejemplo :
  (buscar_activos buscador_ejemplo "ypf" ()).1
  = [ {| ActivoFinanciero.simbolo := "YPF";
         ActivoFinanciero.tipo := ACCION;
         ActivoFinanciero.denominacion := "YPF";
         ActivoFinanciero.panel := LIDER;
         ActivoFinanciero.mercado := BYMA;
         ActivoFinanciero.moneda := ARS;
         ActivoFinanciero.codigo_isin := None;
         ActivoFinanciero.codigo_cfi := None;
         ActivoFinanciero.simbolo_yahoo := Some "YPFD.BA" |};
      {| ActivoFinanciero.simbolo := "GGAL.ADR";
         ActivoFinanciero.tipo := ACCION;
         ActivoFinanciero.denominacion := "GGAL";
         ActivoFinanciero.panel := LIDER;
         ActivoFinanciero.mercado := NYSE;
         ActivoFinanciero.moneda := USD;
         ActivoFinanciero.codigo_isin := None;
         ActivoFinanciero.codigo_cfi := None;
         ActivoFinanciero.simbolo_yahoo := Some "GGAL" |} ].
Proof. by vm_compute. Qed.

(** ** The [/historico] endpoint *)

Section ServidorTeoremas.
Context {W : Type} (yf : Entorno W).

(** X10. On an argument that has every attribute [obtener_historico] reads
    the method is the one modelled for [SolicitudHistorico]. The handler of
    [POST /historico] passes a [HistoricoRequest], which has no [ajustado]:
    whatever the request, the response is an ERROR with code DATA_003, no
    bar and no metadata, its message names the resolved symbol and ends
    with the text of the missing attribute, and the provider is never
    asked. *)
Theorem endpoint_historico_sin_datos (req : HistoricoRequest.t)
    (solicitud : SolicitudHistorico.t) (m : Mundo W) :
  obtener_historico_de yf (atributos_de_solicitud solicitud) m
  = obtener_historico yf solicitud m ∧
  let r := endpoint_historico yf req m in
  r.2 = m ∧
  RespuestaHistorico.estado r.1 = ERROR ∧
  RespuestaHistorico.codigo_error r.1 = Some DATA_003 ∧
  RespuestaHistorico.datos r.1 = [] ∧
  RespuestaHistorico.metadata r.1 = None ∧
  ∃ msg, RespuestaHistorico.mensaje r.1 = Some msg ∧
         occurs_in (_get_yahoo_symbol (HistoricoRequest.simbolo req)) msg ∧
         has_suffix "has no attribute 'ajustado'" msg.
Proof.
  split; [by destruct solicitud |]. cbv zeta.
  unfold endpoint_historico, obtener_historico_de, atributos_de_request.
  cbn [Atributos.simbolo Atributos.desde Atributos.hasta Atributos.intervalo
       Atributos.ajustado fst snd respuesta_error RespuestaHistorico.estado
       RespuestaHistorico.codigo_error RespuestaHistorico.datos
       RespuestaHistorico.metadata RespuestaHistorico.mensaje].
  split_and!; [reflexivity | reflexivity | reflexivity | reflexivity
              | reflexivity |].
  eexists. split; [reflexivity |]. split.
  - apply occurs_in_middle.
  - exists ("Error al obtener datos de Yahoo Finance para el símbolo "
              +:+ _get_yahoo_symbol (HistoricoRequest.simbolo req)
              +:+ ": 'HistoricoRequest' object ").
    rewrite <- !string_app_assoc. reflexivity.
Qed.
End ServidorTeoremas.

(** ** The shape of a resolved symbol *)

Lemma SIMBOLOS_TABLA_claves_sin_BA :
  Forall (λ kv, endswith kv.1 ".BA" = false) SIMBOLOS_TABLA.
Proof. by apply (bool_decide_unpack _); vm_compute. Qed.

Lemma SIMBOLOS_TABLA_valores_no_vacios :
  Forall (λ kv, kv.2 ≠ "") SIMBOLOS_TABLA.
Proof. by apply (bool_decide_unpack _); vm_compute. Qed.

Lemma has_suffix_no_vacio (suf s : string) :
  suf ≠ "" → has_suffix suf s → s ≠ "".
Proof.
  intros Hsuf [p ->] E. destruct p as [|c p]; [by apply Hsuf |].
  by rewrite string_app_cons in E.
Qed.

(** X19. A resolved provider symbol is never empty. It ends in ".BA", or it
    ends in ".ADR", or it is a value of the table. A provider symbol that
    ends in ".BA" resolves to itself, and so does the provider symbol of
    every symbol that is not in the table; resolving twice is not resolving
    once in general: "GGAL.ADR" resolves to "GGAL", which resolves to
    "GGAL.BA". *)
Theorem get_yahoo_symbol_forma (simbolo : string) :
  let yahoo := _get_yahoo_symbol simbolo in
  yahoo ≠ "" ∧
  (has_suffix ".BA" yahoo ∨ has_suffix ".ADR" yahoo
   ∨ yahoo ∈ SIMBOLOS_TABLA.*2) ∧
  (has_suffix ".BA" yahoo → _get_yahoo_symbol yahoo = yahoo) ∧
  (simbolo ∉ SIMBOLOS_TABLA.*1 → _get_yahoo_symbol yahoo = yahoo) ∧
  _get_yahoo_symbol (_get_yahoo_symbol "GGAL.ADR")
  ≠ _get_yahoo_symbol "GGAL.ADR".
Proof.
  cbv zeta.
  assert (Hestable : ∀ r, has_suffix ".BA" r → _get_yahoo_symbol r = r).
  { intros r Hr. apply endswith_spec in Hr. unfold _get_yahoo_symbol.
    destruct (SIMBOLOS_MAPPING !! r) as [y|] eqn:E; [| by rewrite Hr].
    apply SIMBOLOS_MAPPING_lookup in E.
    pose proof (proj1 (Forall_forall _ _) SIMBOLOS_TABLA_claves_sin_BA _ E)
      as Hk. cbn [fst] in Hk. congruence. }
  assert (Hforma :
    (_get_yahoo_symbol simbolo ∈ SIMBOLOS_TABLA.*2
     ∧ simbolo ∈ SIMBOLOS_TABLA.*1)
    ∨ ((simbolo ∉ SIMBOLOS_TABLA.*1)
       ∧ (has_suffix ".BA" (_get_yahoo_symbol simbolo)
          ∨ (has_suffix ".ADR" (_get_yahoo_symbol simbolo)
             ∧ _get_yahoo_symbol simbolo = simbolo)))).
  { unfold _get_yahoo_symbol.
    destruct (SIMBOLOS_MAPPING !! simbolo) as [y|] eqn:E.
    - apply SIMBOLOS_MAPPING_lookup in E. left. split.
      + apply list_elem_of_fmap. by exists (simbolo, y).
      + apply list_elem_of_fmap. by exists (simbolo, y).
    - apply SIMBOLOS_MAPPING_None in E. right. split; [done |].
      destruct (endswith simbolo ".BA") eqn:Hba; cbn [negb andb].
      + left. by apply endswith_spec.
      + destruct (endswith simbolo ".ADR") eqn:Hadr; cbn [negb].
        * right. split; [by apply endswith_spec | done].
        * left. by exists simbolo. }
  split_and!.
  - destruct Hforma as [[Hv _] | [_ [H | [H _]]]].
    + apply list_elem_of_fmap in Hv as (kv & -> & Hkv).
      by apply (proj1 (Forall_forall _ _) SIMBOLOS_TABLA_valores_no_vacios).
    + by apply (has_suffix_no_vacio ".BA").
    + by apply (has_suffix_no_vacio ".ADR").
  - destruct Hforma as [[Hv _] | [_ [H | [H _]]]]; auto.
  - apply Hestable.
  - intros Hout. destruct Hforma as [[_ Hin] | [_ [H | [H Heq]]]]; [done | |].
    + by apply Hestable.
    + by rewrite !Heq.
  - by vm_compute.
Qed.

(* ===================================================================== *)
(** * Part IV: further properties of the analytics *)
(* ===================================================================== *)

(** ** The frame of a symbol *)

Section MarcoTeoremas.
Context {W : Type} (yf : Entorno W).

Lemma obtener_dataframe_historico_filas simbolo desde hasta intervalo
    (m : Mundo W) (df : Historico) :
  (obtener_dataframe_historico yf simbolo desde hasta intervalo m).1 = Some df →
  df ≠ [] ∧
  Forall (λ r, Registro.simbolo r = simbolo ∧
               ¬ ausente (Registro.apertura r) ∧
               ¬ ausente (Registro.maximo r) ∧
               ¬ ausente (Registro.minimo r) ∧
               ¬ ausente (Registro.cierre r)) df.
Proof.
  unfold obtener_dataframe_historico. cbv zeta.
  match goal with |- context [obtener_historico yf ?s m] =>
    pose proof (obtener_historico_datos yf s m) as [Hd _];
    destruct (obtener_historico yf s m) as [r m'] end.
  cbn [fst] in *.
  destruct (bool_decide (RespuestaHistorico.estado r ≠ OK)); [done |].
  cbn [orb]. case_bool_decide as Hne; [done |]. cbn [fst]. intros [= <-].
  split.
  - by destruct (RespuestaHistorico.datos r).
  - apply Forall_fmap. eapply Forall_impl; [exact Hd |].
    intros c [(Ha & Hmx & Hmn & Hc) Hs]. by split_and!.
Qed.

(** X11. [obtener_dataframe_historico] is [obtener_historico] on the request
    it builds: it gives a frame exactly when the response is OK, with one
    row per bar in the order of the bars, and sends the one request of that
    call, always with [auto_adjust] set. A frame it returns is never empty,
    and each of its rows carries the queried symbol and has its open, high,
    low and close present. *)
Theorem obtener_dataframe_historico_marco (simbolo : string)
    (desde : datetime) (hasta : option datetime) (intervalo : Intervalo)
    (m : Mundo W) :
  let solicitud := solicitud_marco yf simbolo desde hasta intervalo m in
  let r := obtener_historico yf solicitud m in
  let marco := obtener_dataframe_historico yf simbolo desde hasta intervalo m in
  marco
  = (match RespuestaHistorico.estado r.1 with
     | OK => Some (registro_de <$> RespuestaHistorico.datos r.1)
     | ERROR => None
     end, r.2) ∧
  llamadas marco.2
  = llamadas m
    ++ [LlHistory (_get_yahoo_symbol simbolo)
          (Rango (fecha_de desde)
                 (fecha_de (default (now yf (estado m)) hasta))
                 (Intervalo_value intervalo) true)] ∧
  match marco.1 with
  | Some df =>
      df ≠ [] ∧
      Forall (λ r, Registro.simbolo r = simbolo ∧
                   ¬ ausente (Registro.apertura r) ∧
                   ¬ ausente (Registro.maximo r) ∧
                   ¬ ausente (Registro.minimo r) ∧
                   ¬ ausente (Registro.cierre r)) df
  | None => True
  end.
Proof.
  cbv zeta.
  assert (Hr : obtener_dataframe_historico yf simbolo desde hasta intervalo m
    = (match RespuestaHistorico.estado
               (obtener_historico yf
                  (solicitud_marco yf simbolo desde hasta intervalo m) m).1
       with
       | OK =>
           Some (registro_de <$>
                   RespuestaHistorico.datos
                     (obtener_historico yf
                        (solicitud_marco yf simbolo desde hasta intervalo m)
                        m).1)
       | ERROR => None
       end,
       (obtener_historico yf
          (solicitud_marco yf simbolo desde hasta intervalo m) m).2)).
  { unfold obtener_dataframe_historico, solicitud_marco. cbv zeta.
    match goal with |- context [obtener_historico yf ?s m] =>
      pose proof (obtener_historico_datos yf s m) as [_ H];
      destruct (obtener_historico yf s m) as [r m'] end.
    cbn [fst snd] in *. destruct (RespuestaHistorico.estado r).
    - rewrite bool_decide_eq_false_2 by (by intros ?). cbn [orb].
      rewrite bool_decide_eq_false_2; [done |]. by apply H.
    - by rewrite bool_decide_eq_true_2. }
  split_and!; [done | |].
  - rewrite Hr. cbn [snd]. by rewrite obtener_historico_llamadas.
  - pose proof (obtener_dataframe_historico_filas simbolo desde hasta
                  intervalo m) as H.
    destruct (obtener_dataframe_historico yf simbolo desde hasta intervalo m).1;
      [by apply H | done].
Qed.
End MarcoTeoremas.

(** ** Beta *)











Section BetaTeoremas.
Context {W : Type} (yf : Entorno W) (relleno : bool) (A : Aritmetica).

End BetaTeoremas.








(** ** Returns of a series of prices *)

Lemma precios_reales (l : list f64) :
  Forall precio l → ∃ ps, l = Fin <$> ps ∧ Forall (λ p, (0 < p)%R) ps.
Proof.
  induction 1 as [|x l (p & -> & Hp) _ (ps & -> & Hps)].
  - by exists [].
  - exists (p :: ps). split; [done | by constructor].
Qed.

Lemma ffill_desde_fin (previo : f64) (l : list R) :
  ffill_desde previo (Fin <$> l) = Fin <$> l.
Proof.
  revert previo. induction l as [|x l IH]; intros previo; [done |].
  cbn [fmap list_fmap ffill_desde isna]. f_equal. apply IH.
Qed.

Lemma cambios_desde_fin (previo : R) (l : list R) :
  Forall (λ p, (0 < p)%R) (previo :: l) →
  cambios_desde (Fin previo) (Fin <$> l) = Fin <$> Rcambios previo l.
Proof.
  revert previo. induction l as [|x l IH]; intros previo Hp; [done |].
  apply Forall_cons in Hp as [Hprevio Hl].
  cbn [fmap list_fmap cambios_desde Rcambios].
  rewrite fdiv_fin by lra. f_equal. by apply IH.
Qed.

Lemma length_Rcambios (previo : R) (l : list R) :
  length (Rcambios previo l) = length l.
Proof.
  revert previo. induction l as [|x l IH]; intros previo; [done |].
  simpl. by rewrite IH.
Qed.

Lemma pct_change_precios (relleno : bool) (p0 : R) (ps : list R) :
  Forall (λ p, (0 < p)%R) (p0 :: ps) →
  pct_change relleno (Fin <$> p0 :: ps) = NaN :: (Fin <$> Rcambios p0 ps).
Proof.
  intros Hp. unfold pct_change.
  replace (if relleno then ffill_desde NaN (Fin <$> p0 :: ps)
           else Fin <$> p0 :: ps) with (Fin <$> p0 :: ps)
    by (destruct relleno; [by rewrite ffill_desde_fin | done]).
  cbn [fmap list_fmap cambios_desde]. rewrite fdiv_NaN_r.
  f_equal. by apply cambios_desde_fin.
Qed.

Lemma Rdesvios_nonneg (l : list R) : (0 <= Rdesvios (zip l l))%R.
Proof.
  unfold Rdesvios. rewrite fst_zip, snd_zip by done.
  apply Rsuma_cuadrados_nonneg.
Qed.

(** The standard deviation of two or more finite values is finite and not
    negative. *)
Lemma std_fin (l : list R) :
  2 ≤ length l → ∃ v, std (Fin <$> l) = Fin v ∧ (0 <= v)%R.
Proof.
  intros Hn. unfold std. rewrite var_fin by done.
  assert (Hv : (0 <= Rdesvios (zip l l) / INR (length l - 1))%R).
  { apply Rmult_le_pos; [apply Rdesvios_nonneg |].
    apply Rlt_le, Rinv_0_lt_compat, lt_0_INR. lia. }
  cbn [fsqrt]. rewrite Rneg_false by done.
  eexists. split; [done |]. apply sqrt_pos.
Qed.

(** Without rounding, on a frame whose closes are finite and positive the
    total return is [(last - first) / first * 100], the annualised return
    is [((last / first) ^ (365 / dias) - 1) * 100] when the frame spans at
    least one whole day and 0 otherwise, both above -100, and the volatility
    is NaN when the frame has one or two rows and finite and not negative
    when it has three or more. *)
Lemma calcular_rendimiento_reales (relleno : bool) (primera : Registro.t)
    (resto : list Registro.t) :
  let filas := primera :: resto in
  let ultima := List.last filas primera in
  let dias := days_between (Registro.fecha ultima) (Registro.fecha primera) in
  Forall (λ r, precio (Registro.cierre r)) filas →
  ∃ p0 pn anualizado volatilidad,
    Registro.cierre primera = Fin p0 ∧ Registro.cierre ultima = Fin pn ∧
    calcular_rendimiento relleno (Some filas)
    = (Fin ((pn - p0) / p0 * 100), Fin anualizado, volatilidad) ∧
    (-100 < (pn - p0) / p0 * 100)%R ∧
    (if (0 <? dias)%Z
     then anualizado = ((Rpower (pn / p0) (365 / IZR dias) - 1) * 100)%R
     else anualizado = 0%R) ∧
    (-100 < anualizado)%R ∧
    (length filas ≤ 2 → volatilidad = NaN) ∧
    (3 ≤ length filas → ∃ v, volatilidad = Fin v ∧ (0 <= v)%R).
Proof.
  cbv zeta. intros Hprecios.
  assert (Hultima : precio (Registro.cierre (List.last (primera :: resto) primera))).
  { apply (proj1 (Forall_forall _ _) Hprecios).
    apply last_Some_elem_of. by apply last_List_last. }
  pose proof (proj1 (Forall_forall _ _) Hprecios primera
                (list_elem_of_here _ _)) as (p0 & Hp0 & Hpos0).
  destruct Hultima as (pn & Hpn & Hposn).
  assert (Htotal : (-100 < (pn - p0) / p0 * 100)%R).
  { replace ((pn - p0) / p0 * 100)%R with (pn / p0 * 100 - 100)%R
      by (field; lra).
    assert (0 < pn / p0)%R by (by apply Rdiv_lt_0_compat). lra. }
  set (dias := days_between _ _).
  set (anualizado :=
    if (0 <? dias)%Z
    then ((Rpower (pn / p0) (365 / IZR dias) - 1) * 100)%R else 0%R).
  exists p0, pn, anualizado.
  eexists. split_and!; [done | done | | done | | | |].
  - unfold calcular_rendimiento. fold dias. rewrite Hp0, Hpn.
    cbn [fsub fopp fadd]. rewrite fdiv_fin by lra. cbn [fmul].
    f_equal. f_equal.
    subst anualizado. destruct (Z.ltb_spec 0 dias) as [Hd | Hd]; [| done].
    unfold fZ.
    assert (Hz : IZR dias ≠ 0%R) by (apply not_0_IZR; lia).
    rewrite !fdiv_fin by (lra || done). unfold fpow.
    rewrite Rzero_false.
    2:{ apply Rmult_integral_contrapositive_currified; [lra |].
        by apply Rinv_neq_0_compat. }
    replace (1 + (pn + - p0) / p0 * 100 / 100)%R with (pn / p0)%R
      by (field; lra).
    destruct (Rlt_dec 0 (pn / p0)) as [_ | Hn];
      [| destruct Hn; by apply Rdiv_lt_0_compat].
    reflexivity.
  - subst anualizado. by destruct (0 <? dias)%Z.
  - subst anualizado. destruct (0 <? dias)%Z; [| lra].
    assert (0 < Rpower (pn / p0) (365 / IZR dias))%R by apply exp_pos. lra.
  - intros Hlen. apply std_pocos. etrans; [apply validos_pct_change |].
    rewrite length_fmap. simpl in *. lia.
  - intros Hlen.
    apply Forall_fmap in Hprecios.
    change (Forall precio (Registro.cierre <$> primera :: resto)) in Hprecios.
    destruct (precios_reales _ Hprecios) as (ps & Hps & Hpos).
    destruct ps as [|q0 ps]; [done |].
    rewrite Hps, pct_change_precios by done.
    cbn [fmap list_fmap fmul]. rewrite <- list_fmap_compose.
    change ((λ x, fmul x (Fin 100)) ∘ Fin) with (Fin ∘ (λ r, r * 100)%R).
    rewrite list_fmap_compose.
    assert (Hstd : ∀ l, std (NaN :: l) = std l).
    { intros l. unfold std, var, validos.
      by rewrite filter_cons, decide_False by (intros H; by apply H). }
    rewrite Hstd. apply std_fin.
    rewrite length_fmap, length_Rcambios.
    apply (f_equal length) in Hps. rewrite !length_fmap in Hps.
    simpl in *. lia.
Qed.

(** X12. On a frame whose closes are finite and positive, neither the total
    nor the annualised return [calcular_rendimiento] gives is NaN or below
    -100 (a loss is at most the whole price); the annualised return is 0.0
    when the frame spans less than one whole day; the volatility is NaN when
    the frame has one or two rows, and is never negative. *)
Theorem calcular_rendimiento_precios (relleno : bool) (primera : Registro.t)
    (resto : list Registro.t) :
  let filas := primera :: resto in
  let ultima := List.last filas primera in
  let dias := days_between (Registro.fecha ultima) (Registro.fecha primera) in
  Forall (λ r, precio (Registro.cierre r)) filas →
  let '(total, anualizado, volatilidad) :=
    calcular_rendimiento relleno (Some filas) in
  fle (Fin (-100)) total ∧ fle (Fin (-100)) anualizado ∧
  ((dias ≤ 0)%Z → anualizado = Fin 0) ∧
  (length filas ≤ 2 → volatilidad = NaN) ∧
  (volatilidad = NaN ∨ fle (Fin 0) volatilidad).
Proof.
  cbv zeta. intros Hprecios.
  destruct (calcular_rendimiento_reales relleno primera resto Hprecios)
    as (p0 & pn & a & vol & _ & _ & -> & Ht & Hd & Ha & Hpocas & Hvol).
  split_and!.
  - cbn [fle]. lra.
  - cbn [fle]. lra.
  - intros Hdias. destruct (Z.ltb_spec 0 (days_between
      (Registro.fecha (List.last (primera :: resto) primera))
      (Registro.fecha primera))); [lia | by rewrite Hd].
  - done.
  - destruct (decide (length (primera :: resto) ≤ 2)) as [H | H];
      [left; by apply Hpocas |].
    right. destruct Hvol as (v & -> & Hv); [lia | done].
Qed.

Lemma precio_fin (p : R) : (0 < p)%R → precio (Fin p).
Proof. intros Hp. by exists p. Qed.
Lemma historico_tres_dias_precios :
  Forall (λ r, precio (Registro.cierre r)) historico_tres_dias.
Proof. repeat constructor; apply precio_fin; simpl; lra. Qed.

(** Closes of 100, 110 and 132 on three days, to which
    [calcular_rendimiento_precios] applies. *)
Lemma calcular_rendimiento_precios_witness :
  let '(total, anualizado, volatilidad) :=
    calcular_rendimiento true (Some historico_tres_dias) in
  fle (Fin (-100)) total ∧ fle (Fin (-100)) anualizado ∧
  (volatilidad = NaN ∨ fle (Fin 0) volatilidad).
Proof.
  pose proof (calcular_rendimiento_precios true (barra 1 100)
                [barra 2 110; barra 3 132] historico_tres_dias_precios) as H.
  cbv zeta in H. fold historico_tres_dias in H.
  destruct (calcular_rendimiento true (Some historico_tres_dias))
    as [[total anualizado] volatilidad].
  by destruct H as (? & ? & _ & _ & ?).
Defined.

(** ** The shape of a correlation matrix *)

Lemma poner_columna_nombres nombre valores (cols : list (string * list f64)) :
  (poner_columna nombre valores cols).*1
  = if bool_decide (nombre ∈ cols.*1) then cols.*1 else cols.*1 ++ [nombre].
Proof.
  induction cols as [|[n v] cols IH]; [done |].
  cbn [poner_columna fmap list_fmap fst].
  destruct (String.eqb n nombre) eqn:E.
  - apply String.eqb_eq in E. subst n.
    rewrite bool_decide_eq_true_2 by apply list_elem_of_here. done.
  - apply String.eqb_neq in E. cbn [fmap list_fmap fst]. rewrite IH.
    destruct (bool_decide (nombre ∈ cols.*1)) eqn:B.
    + apply bool_decide_eq_true in B.
      by rewrite bool_decide_eq_true_2 by by apply list_elem_of_further.
    + apply bool_decide_eq_false in B.
      rewrite bool_decide_eq_false_2; [done |].
      intros H. apply elem_of_cons in H as [-> | H]; done.
Qed.

Lemma asignar_columna_nombres (t : Tabla) nombre (serie : Serie) :
  (columnas (asignar_columna t nombre serie)).*1
  = if bool_decide (nombre ∈ (columnas t).*1) then (columnas t).*1
    else (columnas t).*1 ++ [nombre].
Proof.
  unfold asignar_columna.
  destruct (indice t) as [|f idx], serie as [|p serie]; cbn [columnas];
    rewrite poner_columna_nombres; try done.
  assert (H : ((λ '(n, _), (n, replicate (length (p :: serie)) NaN))
                 <$> columnas t).*1 = (columnas t).*1).
  { rewrite <- list_fmap_compose. apply list_fmap_ext. by intros i [n v] _. }
  by rewrite H.
Qed.

Lemma asociado_is_Some {A} nombre (l : list (string * A)) :
  is_Some (asociado nombre l) ↔ nombre ∈ l.*1.
Proof.
  induction l as [|[n v] l IH]; cbn [asociado fmap list_fmap fst].
  - split; [by intros [? ?] | by intros ?%elem_of_nil].
  - destruct (String.eqb n nombre) eqn:E.
    + apply String.eqb_eq in E. subst. split; [intros _; apply list_elem_of_here | eauto].
    + apply String.eqb_neq in E. rewrite IH. split.
      * by apply list_elem_of_further.
      * intros H. apply elem_of_cons in H as [-> | H]; done.
Qed.

Lemma corr_nombres (t : Tabla) :
  (corr t).*1 = (columnas t).*1 ∧
  Forall (λ fila, fila.2.*1 = (columnas t).*1) (corr t).
Proof.
  unfold corr. split.
  - rewrite <- list_fmap_compose. apply list_fmap_ext. by intros i [a x] _.
  - apply Forall_fmap, Forall_forall. intros [a x] _. unfold compose.
    cbn [snd]. rewrite <- list_fmap_compose. apply list_fmap_ext.
    by intros i [b y] _.
Qed.

Lemma tabla_rendimientos_nombres relleno (t : Tabla) :
  (columnas (tabla_dropna (tabla_pct_change relleno t))).*1 = (columnas t).*1.
Proof.
  unfold tabla_dropna, tabla_pct_change. cbn [columnas].
  rewrite <- !list_fmap_compose. apply list_fmap_ext. by intros i [n v] _.
Qed.

Section FormaTeoremas.
Context {W : Type} (yf : Entorno W) (relleno : bool).

(** One iteration of the loop of [calcular_matriz_correlacion]. *)
Local Abbreviation paso desde hasta :=
  (λ '(datos_combinados, m) simbolo,
     let '(df, m') :=
       obtener_dataframe_historico yf simbolo desde (Some hasta) DIA_1 m in
     match df with
     | Some df =>
         (asignar_columna datos_combinados simbolo (serie_cierre df), m')
     | None => (datos_combinados, m')
     end).
Lemma combinar_nombres simbolos desde hasta (t : Tabla) (m : Mundo W) :
  NoDup (columnas t).*1 →
  let nombres := (columnas (foldl (paso desde hasta) (t, m) simbolos).1).*1 in
  NoDup nombres ∧
  ∀ s, s ∈ nombres ↔ s ∈ (columnas t).*1 ∨ con_datos yf simbolos desde hasta m s.
Proof.
  revert t m. induction simbolos as [|simbolo resto IH]; intros t m Hnd.
  - cbn [foldl fst]. split; [done |]. intros s. split; [by left |].
    intros [H | (i & df & H & _)]; [done | by destruct i].
  - cbn [foldl]. cbv zeta.
    assert (Hcd : ∀ s (x : option Historico) m',
      obtener_dataframe_historico yf simbolo desde (Some hasta) DIA_1 m
      = (x, m') →
      con_datos yf (simbolo :: resto) desde hasta m s
      ↔ (s = simbolo ∧ is_Some x) ∨ con_datos yf resto desde hasta m' s).
    { intros s x m' E. unfold con_datos. cbn [descargas]. rewrite E. split.
      - intros (i & df & Hi & Hd). destruct i as [|i]; cbn in Hi, Hd.
        + left. split; [congruence |]. injection Hd as ->. eauto.
        + right. eauto.
      - intros [[-> [df ->]] | (i & df & Hi & Hd)].
        + by exists 0, df.
        + by exists (S i), df. }
    destruct (obtener_dataframe_historico yf simbolo desde (Some hasta) DIA_1 m)
      as [[df|] m'] eqn:E.
    + specialize (IH (asignar_columna t simbolo (serie_cierre df)) m').
      rewrite asignar_columna_nombres in IH.
      destruct (bool_decide (simbolo ∈ (columnas t).*1)) eqn:B.
      * apply bool_decide_eq_true in B.
        destruct (IH Hnd) as [IH1 IH2]. split; [done |].
        intros s. rewrite IH2, (Hcd s (Some df) m' eq_refl).
        split; [intros [? | ?]; auto |]. intros [H | [[-> _] | H]]; auto.
      * apply bool_decide_eq_false in B.
        destruct IH as [IH1 IH2].
        { apply NoDup_app. split_and!; [done | | apply NoDup_singleton].
          intros x Hx ?%list_elem_of_singleton. by subst. }
        split; [done |].
        intros s. rewrite IH2, (Hcd s (Some df) m' eq_refl).
        rewrite elem_of_app, list_elem_of_singleton.
        split; [intros [[? | ->] | ?]; eauto |].
        intros [H | [[-> _] | H]]; eauto.
    + destruct (IH t m' Hnd) as [IH1 IH2]. split; [done |].
      intros s. rewrite IH2, (Hcd s None m' eq_refl).
      split; [intros [? | ?]; auto |].
      intros [H | [[_ [? ?]] | H]]; auto. done.
Qed.

(** X14. A matrix [calcular_matriz_correlacion] returns is square: its row
    labels have no repetition, they are exactly the symbols of the input
    whose retrieval gave data (a symbol asked twice has one row), every row
    has the same labels for its columns, and the entry of two symbols
    exists exactly when both are labels. *)
Theorem calcular_matriz_correlacion_forma (simbolos : list string)
    (desde : datetime) (hasta : option datetime) (m : Mundo W) :
  let hasta' := default (now yf (estado m)) hasta in
  match (calcular_matriz_correlacion yf relleno simbolos desde hasta m).1 with
  | None => True
  | Some matriz =>
      NoDup matriz.*1 ∧
      (∀ s, s ∈ matriz.*1 ↔ con_datos yf simbolos desde hasta' m s) ∧
      Forall (λ fila, fila.2.*1 = matriz.*1) matriz ∧
      (∀ a b, is_Some (entrada matriz a b) ↔ a ∈ matriz.*1 ∧ b ∈ matriz.*1)
  end.
Proof.
  cbv zeta. unfold calcular_matriz_correlacion. cbv zeta.
  pose proof (combinar_nombres simbolos desde
                (default (now yf (estado m)) hasta) tabla_vacia m
                (NoDup_nil_2)) as Hn.
  cbv zeta in Hn. unfold combinar.
  destruct (foldl _ (tabla_vacia, m) simbolos) as [datos m'].
  cbn [fst] in *. destruct (tabla_empty datos); cbn [fst]; [done |].
  destruct Hn as [Hnd Hin].
  set (t := tabla_dropna (tabla_pct_change relleno datos)).
  pose proof (tabla_rendimientos_nombres relleno datos) as Ht. fold t in Ht.
  destruct (corr_nombres t) as [Hc1 Hc2]. rewrite Ht in Hc1, Hc2.
  rewrite Hc1. split_and!; [done | | done |].
  - intros s. rewrite Hin. split; [| by right].
    intros [H | H]; [by apply elem_of_nil in H | done].
  - intros a b. rewrite entrada_corr, <- Ht, <- !asociado_is_Some.
    clearbody t.
    destruct (asociado a (columnas t)) as [x|],
      (asociado b (columnas t)) as [y|]; cbn.
    + split; [intros _; split; eauto | eauto].
    + split; [by intros [? ?] | by intros [_ [? ?]]].
    + split; [by intros [? ?] | by intros [[? ?] _]].
    + split; [by intros [? ?] | by intros [[? ?] _]].
Qed.
End FormaTeoremas.

(** ** Ratios *)

Lemma length_validos_pct_change relleno (l : list f64) :
  length (validos (pct_change relleno l)) ≤ length l - 1.
Proof.
  unfold pct_change.
  set (datos := if relleno then ffill_desde NaN l else l).
  assert (Hlen : length datos = length l).
  { subst datos. destruct relleno; [apply length_ffill_desde | done]. }
  rewrite <- Hlen. destruct datos as [|x datos]; [done |].
  cbn [cambios_desde]. rewrite fdiv_NaN_r. cbn [fsub fopp fadd]. unfold validos.
  rewrite filter_cons, decide_False by (intros H; by apply H).
  etrans; [apply length_filter |]. rewrite length_cambios_desde. simpl. lia.
Qed.

Lemma std_uno (l : list f64) : length l ≤ 1 → std l = NaN.
Proof.
  intros H. apply std_pocos. etrans; [apply length_filter | done].
Qed.

Lemma fmul_NaN_l x : fmul NaN x = NaN.
Proof. done. Qed.

Lemma ratios_de_pocas_barras (relleno : bool) (tasa : f64) (df : Historico) :
  let ratios := ratios_de relleno tasa df in
  (length df ≤ 2 →
   volatilidad_anualizada ratios = NaN ∧ ratio_sharpe ratios = NaN ∧
   ratio_sortino ratios = NaN) ∧
  (length (filter (λ x, flt0 x) (rendimientos_diarios relleno df)) = 1 →
   ratio_sortino ratios = NaN) ∧
  (length df ≤ 1 →
   rendimiento_anualizado ratios = NaN ∧ maximo_drawdown ratios = NaN).
Proof.
  cbv zeta. unfold ratios_de. cbv zeta.
  cbn [volatilidad_anualizada ratio_sharpe ratio_sortino rendimiento_anualizado
       maximo_drawdown].
  set (r := rendimientos_diarios relleno df).
  assert (Hr : length r ≤ length df - 1).
  { subst r. unfold rendimientos_diarios.
    etrans; [apply length_validos_pct_change |]. by rewrite length_fmap. }
  split_and!.
  - intros Hlen. rewrite (std_uno r) by lia. rewrite fmul_NaN_l.
    cbn [fne0 feq0 negb]. rewrite fdiv_NaN_r. split_and!; [done | done |].
    case_bool_decide as Hneg.
    + rewrite (std_uno (filter _ r)), fmul_NaN_l.
      * cbn [fne0 feq0 negb]. apply fdiv_NaN_r.
      * etrans; [apply length_filter | lia].
    + cbn [fne0 feq0 negb]. apply fdiv_NaN_r.
  - intros Hneg. rewrite bool_decide_eq_true_2.
    2:{ intros E. by rewrite E in Hneg. }
    rewrite (std_uno (filter _ r)), fmul_NaN_l by lia.
    cbn [fne0 feq0 negb]. apply fdiv_NaN_r.
  - intros Hlen. assert (r = []) as -> by (destruct r; [done | simpl in Hr; lia]).
    split; [| reflexivity].
    unfold mean, media, fsum, fnat, fpow, validos. rewrite filter_nil.
    cbn [foldr length INR fdiv].
    rewrite (Rzero_true 0) by done. cbn [fadd].
    by rewrite (Rzero_false 252) by lra.
Qed.

Section RatiosTeoremas.
Context {W : Type} (yf : Entorno W) (relleno : bool).

(** X15. [calcular_ratios] gives the ratios of the frame it retrieves, and
    none without a frame. On a frame of one or two rows the annualised
    volatility, the Sharpe ratio and the Sortino ratio are NaN: the guards
    on a zero volatility do not catch NaN. When exactly one daily return is
    negative the Sortino ratio is NaN, the deviation of a single return
    being NaN. On a frame of at most one row the annualised return and the
    maximum drawdown are NaN as well. *)
Theorem calcular_ratios_pocas_barras (simbolo : string) (tasa : f64)
    (desde hasta : option datetime) (m : Mundo W) :
  let desde' := default (now yf (estado m) - timedelta_days 365)%Z desde in
  let hasta' := default (now yf (estado m)) hasta in
  let descarga :=
    obtener_dataframe_historico yf simbolo desde' (Some hasta') DIA_1 m in
  calcular_ratios yf relleno simbolo tasa desde hasta m
  = (ratios_de relleno tasa <$> descarga.1, descarga.2) ∧
  ∀ df : Historico,
    let ratios := ratios_de relleno tasa df in
    (length df ≤ 2 →
     volatilidad_anualizada ratios = NaN ∧ ratio_sharpe ratios = NaN ∧
     ratio_sortino ratios = NaN) ∧
    (length (filter (λ x, flt0 x) (rendimientos_diarios relleno df)) = 1 →
     ratio_sortino ratios = NaN) ∧
    (length df ≤ 1 →
     rendimiento_anualizado ratios = NaN ∧ maximo_drawdown ratios = NaN).
Proof.
  cbv zeta. split; [| intros df; apply ratios_de_pocas_barras].
  unfold calcular_ratios. cbv zeta.
  by destruct (obtener_dataframe_historico yf simbolo _ _ _ m) as [[df|] m'].
Qed.
End RatiosTeoremas.

Lemma rendimientos_diarios_precios relleno (df : Historico) p0 ps :
  Registro.cierre <$> df = Fin <$> p0 :: ps →
  Forall (λ p, (0 < p)%R) (p0 :: ps) →
  rendimientos_diarios relleno df = Fin <$> Rcambios p0 ps.
Proof.
  intros Hc Hp. unfold rendimientos_diarios.
  rewrite Hc, pct_change_precios by done. unfold validos.
  rewrite filter_cons, decide_False by (intros H; by apply H).
  apply validos_fin.
Qed.

Lemma Rcambios_factores (p0 : R) (ps : list R) :
  Forall (λ p, (0 < p)%R) (p0 :: ps) →
  Forall precio (fadd (Fin 1) <$> (Fin <$> Rcambios p0 ps)).
Proof.
  revert p0. induction ps as [|x ps IH]; intros p0 Hp; [constructor |].
  apply Forall_cons in Hp as [Hp0 Hp]. pose proof Hp as Hp'.
  apply Forall_cons in Hp' as [Hx _].
  cbn [Rcambios fmap list_fmap fadd]. constructor; [| by apply IH].
  eexists. split; [done |].
  replace (1 + (x / p0 - 1))%R with (x / p0)%R by lra.
  by apply Rdiv_lt_0_compat.
Qed.

Lemma cumprod_desde_precios (acumulado : f64) (l : list f64) :
  precio acumulado → Forall precio l →
  Forall precio (cumprod_desde acumulado l).
Proof.
  intros Ha Hl. revert acumulado Ha.
  induction Hl as [|x l (b & -> & Hb) _ IH]; intros acumulado (a & -> & Ha);
    [constructor |].
  cbn [cumprod_desde isna fmul].
  assert (precio (Fin (a * b))).
  { eexists. split; [done |]. by apply Rmult_lt_0_compat. }
  constructor; [done | by apply IH].
Qed.

(** Under a running maximum that starts below every value, each value of a
    series of prices is positive and at most its running maximum. *)
Lemma cummax_desde_precios (maximo : f64) (l : list f64) :
  maximo = Inf true ∨ precio maximo → Forall precio l →
  Forall2 (λ a mx, ∃ ra rm, a = Fin ra ∧ mx = Fin rm ∧ (0 < ra <= rm)%R)
          l (cummax_desde maximo l).
Proof.
  intros Hm Hl. revert maximo Hm.
  induction Hl as [|x l (b & -> & Hb) _ IH]; intros maximo Hm; [constructor |].
  cbn [cummax_desde isna].
  destruct Hm as [-> | (a & -> & Ha)]; cbn [fmax].
  - constructor.
    + exists b, b. split_and!; [done | done | lra | lra].
    + apply IH. right. by exists b.
  - constructor.
    + exists b, (Rmax a b). split_and!; [done | done | lra | apply Rmax_r].
    + apply IH. right. exists (Rmax a b). split; [done |].
      pose proof (Rmax_l a b). lra.
Qed.

Lemma drawdown_caidas (acumulado maximo_valor : list f64) :
  Forall2 (λ a mx, ∃ ra rm, a = Fin ra ∧ mx = Fin rm ∧ (0 < ra <= rm)%R)
          acumulado maximo_valor →
  Forall caida
    (zip_with (λ a mx, fdiv (fsub a mx) mx) acumulado maximo_valor).
Proof.
  induction 1 as [|a mx la lm (ra & rm & -> & -> & H0 & Hle) _ IH];
    [constructor |].
  cbn [zip_with]. constructor; [| done].
  cbn [fsub fopp fadd]. rewrite fdiv_fin by lra. eexists. split; [done |].
  replace ((ra + - rm) / rm)%R with (ra / rm - 1)%R by (field; lra).
  assert (0 < ra / rm)%R by (apply Rdiv_lt_0_compat; lra).
  assert (ra / rm <= 1)%R.
  { apply (Rmult_le_reg_r rm); [lra |].
    replace (ra / rm * rm)%R with ra by (field; lra). lra. }
  lra.
Qed.

Lemma minimo_caidas (l : list f64) :
  l ≠ [] → Forall caida l → caida (serie_min l).
Proof.
  intros Hne Hl. unfold serie_min.
  assert (Hv : validos l = l).
  { unfold validos. clear Hne. induction Hl as [|x l (d & -> & _) _ IH]; [done |].
    by rewrite filter_cons, decide_True, IH. }
  rewrite Hv. destruct Hl as [|x l Hx Hl]; [done |]. clear Hne Hv.
  revert x Hx. induction Hl as [|y l (e & -> & He) _ IH]; intros x Hx; [done |].
  cbn [foldl]. apply IH. destruct Hx as (d & -> & Hd). cbn [fmin].
  eexists. split; [done |]. unfold Rmin. destruct (Rle_dec d e); lra.
Qed.

(** Without rounding, on a frame of two or more rows whose closes are finite
    and positive the maximum drawdown is a finite percentage, above -100 and
    at most 0. *)
Lemma drawdown_real (relleno : bool) (tasa : f64) (df : Historico) :
  2 ≤ length df →
  Forall (λ r, precio (Registro.cierre r)) df →
  ∃ d, maximo_drawdown (ratios_de relleno tasa df) = Fin d ∧
       (-100 < d <= 0)%R.
Proof.
  intros Hlen Hprecios. apply Forall_fmap in Hprecios.
  change (Forall precio (Registro.cierre <$> df)) in Hprecios.
  destruct (precios_reales _ Hprecios) as (ps & Hps & Hpos).
  assert (Hl : length ps = length df).
  { apply (f_equal length) in Hps. by rewrite !length_fmap in Hps. }
  destruct ps as [|p0 [|p1 ps]]; [simpl in Hl; lia | simpl in Hl; lia |].
  unfold ratios_de. cbv zeta. cbn [maximo_drawdown].
  rewrite (rendimientos_diarios_precios relleno df p0 (p1 :: ps)) by done.
  pose proof (Rcambios_factores p0 (p1 :: ps) Hpos) as Hf.
  set (factores := fadd (Fin 1) <$> (Fin <$> Rcambios p0 (p1 :: ps))) in *.
  assert (Ha : Forall precio (cumprod factores)).
  { apply cumprod_desde_precios; [| done]. exists 1%R. split; [done | lra]. }
  pose proof (cummax_desde_precios (Inf true) (cumprod factores)
                (or_introl eq_refl) Ha) as Hm.
  fold (cummax (cumprod factores)) in Hm.
  apply drawdown_caidas in Hm.
  apply minimo_caidas in Hm as (d & -> & Hd).
  - cbn [fmul]. eexists. split; [done |]. lra.
  - subst factores. cbn [Rcambios fmap list_fmap cumprod cumprod_desde isna fadd
      fmul cummax cummax_desde fmax zip_with]. done.
Qed.

(** X16. On a frame of two or more rows whose closes are finite and positive
    the maximum drawdown [calcular_ratios] reports is NaN or a percentage
    from -100 to 0: a fall from a running maximum is never a gain and never
    more than the whole maximum. *)
Theorem ratios_de_drawdown (relleno : bool) (tasa : f64) (df : Historico) :
  2 ≤ length df →
  Forall (λ r, precio (Registro.cierre r)) df →
  let maximo := maximo_drawdown (ratios_de relleno tasa df) in
  maximo = NaN ∨ (fle (Fin (-100)) maximo ∧ fle maximo (Fin 0)).
Proof.
  intros Hlen Hprecios. cbv zeta. right.
  destruct (drawdown_real relleno tasa df Hlen Hprecios) as (d & -> & Hd).
  cbn [fle]. lra.
Qed.

(** Closes of 100, 110 and 132, to which [ratios_de_drawdown] applies. *)
Lemma ratios_de_drawdown_witness :
  let maximo :=
    maximo_drawdown (ratios_de true (Fin (1 / 100)) historico_tres_dias) in
  maximo = NaN ∨ (fle (Fin (-100)) maximo ∧ fle maximo (Fin 0)).
Proof.
  apply ratios_de_drawdown; [simpl; lia | apply historico_tres_dias_precios].
Defined.

Lemma Rcambios_plano (p : R) (ps : list R) :
  p ≠ 0%R → Forall (λ x, x = p) ps →
  Rcambios p ps = replicate (length ps) 0%R.
Proof.
  intros Hp. induction 1 as [|x ps -> _ IH]; [done |].
  cbn [Rcambios length replicate]. f_equal; [by field | done].
Qed.

Lemma Rpower_uno (y : R) : Rpower 1 y = 1%R.
Proof. unfold Rpower. by rewrite ln_1, Rmult_0_r, exp_0. Qed.

Lemma cumprod_desde_unos (a : R) (n : nat) :
  a = 1%R →
  cumprod_desde (Fin a) (replicate n (Fin 1)) = replicate n (Fin 1).
Proof.
  intros ->. induction n as [|n IH]; [done |].
  cbn [replicate cumprod_desde isna fmul].
  replace (1 * 1)%R with 1%R by lra. by rewrite IH.
Qed.

Lemma cummax_desde_unos (n : nat) :
  cummax_desde (Fin 1) (replicate n (Fin 1)) = replicate n (Fin 1).
Proof.
  induction n as [|n IH]; [done |].
  cbn [replicate cummax_desde isna fmax].
  replace (Rmax 1 1) with 1%R by (symmetry; apply Rmax_left; lra).
  by rewrite IH.
Qed.

Lemma foldl_fmin_ceros (n : nat) :
  foldl fmin (Fin 0) (replicate n (Fin 0)) = Fin 0.
Proof.
  induction n as [|n IH]; [done |]. cbn [replicate foldl fmin].
  replace (Rmin 0 0) with 0%R by (symmetry; apply Rmin_left; lra). done.
Qed.

(** X17. On a frame of three or more rows that all close at the same positive
    price every ratio is 0: the returns are all 0, the volatility is 0, and
    the guards give a Sharpe and a Sortino ratio of 0 instead of a division
    by zero, whatever the risk-free rate. *)
Theorem ratios_de_serie_plana (relleno : bool) (tasa : f64) (df : Historico)
    (p : R) :
  3 ≤ length df → (0 < p)%R →
  Forall (λ r, Registro.cierre r = Fin p) df →
  ratios_de relleno tasa df
  = {| rendimiento_anualizado := Fin 0;
       volatilidad_anualizada := Fin 0;
       ratio_sharpe := Fin 0;
       ratio_sortino := Fin 0;
       maximo_drawdown := Fin 0 |}.
Proof.
  intros Hlen Hp Hplano.
  assert (Hc : Registro.cierre <$> df = Fin <$> replicate (length df) p).
  { clear Hlen. induction Hplano as [|r df Hr _ IH]; [done |].
    cbn [fmap list_fmap length replicate]. by rewrite Hr, IH. }
  destruct df as [|r0 df]; [simpl in Hlen; lia |].
  cbn [length replicate] in Hc.
  set (n := length df) in *. assert (Hn : 2 ≤ n) by (simpl in Hlen; lia).
  assert (Hr : rendimientos_diarios relleno (r0 :: df)
               = Fin <$> replicate n 0%R).
  { rewrite (rendimientos_diarios_precios relleno _ p (replicate n p)).
    - rewrite Rcambios_plano, length_replicate; [done | lra |].
      apply Forall_replicate. done.
    - done.
    - constructor; [done |]. by apply Forall_replicate. }
  unfold ratios_de. cbv zeta. rewrite Hr. clear Hr Hc Hplano Hlen.
  assert (Hmean : mean (Fin <$> replicate n 0%R) = Fin 0).
  { unfold mean. rewrite validos_fin, media_fin.
    - f_equal. unfold Rmedia.
      rewrite (Rsuma_constante 0) by by apply Forall_replicate.
      rewrite length_replicate. field. apply not_0_INR. lia.
    - destruct n; [lia | done]. }
  assert (Hstd : std (Fin <$> replicate n 0%R) = Fin 0).
  { unfold std. rewrite var_fin by (rewrite length_replicate; lia).
    rewrite (Rdesvios_constantes 0) by by apply Forall_replicate.
    rewrite length_replicate. cbn [fsqrt].
    replace (0 / INR (n - 1))%R with 0%R
      by (field; apply not_0_INR; lia).
    rewrite Rneg_false by lra. by rewrite sqrt_0. }
  assert (Hneg : filter (λ x, flt0 x) (Fin <$> replicate n 0%R) = []).
  { clear. induction n as [|n IH]; [done |].
    cbn [replicate fmap list_fmap]. rewrite filter_cons, decide_False; [done |].
    cbn [flt0]. rewrite Rneg_false by lra. by intros ?. }
  rewrite Hmean, Hstd, Hneg. clear Hmean Hstd Hneg.
  cbn [fadd fmul]. unfold fpow.
  rewrite (Rzero_false 252) by lra.
  destruct (Rlt_dec 0 (1 + 0)) as [_ | H]; [| lra].
  replace (1 + 0)%R with 1%R by lra. rewrite Rpower_uno.
  cbn [fsub fopp fadd fmul].
  replace (1 + - (1))%R with 0%R by lra.
  replace (0 * sqrt 252)%R with 0%R by lra.
  replace (0 * 100)%R with 0%R by lra.
  unfold fne0. cbn [feq0]. rewrite (Rzero_true 0) by done. cbn [negb].
  rewrite bool_decide_eq_false_2 by (by intros H; apply H).
  cbn [feq0 negb]. rewrite (Rzero_true 0) by done. cbn [negb].
  f_equal.
  assert (Hfac : fadd (Fin 1) <$> (Fin <$> replicate n 0%R)
                 = replicate n (Fin 1)).
  { clear. induction n as [|n IH]; [done |].
    cbn [replicate fmap list_fmap fadd]. rewrite IH.
    by replace (1 + 0)%R with 1%R by lra. }
  rewrite Hfac. unfold cumprod, cummax.
  rewrite cumprod_desde_unos by done.
  destruct n as [|n]; [lia |].
  cbn [replicate cummax_desde isna fmax]. rewrite cummax_desde_unos.
  cbn [zip_with fsub fopp fadd]. rewrite fdiv_fin by lra.
  replace ((1 + - (1)) / 1)%R with 0%R by lra.
  assert (Hz : zip_with (λ a mx, fdiv (fsub a mx) mx)
                 (replicate n (Fin 1)) (replicate n (Fin 1))
               = replicate n (Fin 0)).
  { clear. induction n as [|n IH]; [done |].
    cbn [replicate zip_with fsub fopp fadd]. rewrite fdiv_fin by lra.
    replace ((1 + - (1)) / 1)%R with 0%R by lra. by rewrite IH. }
  rewrite Hz. unfold serie_min, validos.
  rewrite filter_cons, decide_True by done.
  assert (Hv : filter (λ x, ¬ ausente x) (replicate n (Fin 0))
               = replicate n (Fin 0)).
  { clear. induction n as [|n IH]; [done |].
    cbn [replicate]. by rewrite filter_cons, decide_True, IH. }
  rewrite Hv, foldl_fmin_ceros. cbn [fmul].
  by replace (0 * 100)%R with 0%R by lra.
Qed.

(** Thirty-one sessions closing at 100, to which [ratios_de_serie_plana]
    applies. *)
Lemma ratios_de_serie_plana_witness :
  ratios_de true (Fin (1 / 100)) (historico_plano "GGAL")
  = {| rendimiento_anualizado := Fin 0;
       volatilidad_anualizada := Fin 0;
       ratio_sharpe := Fin 0;
       ratio_sortino := Fin 0;
       maximo_drawdown := Fin 0 |}.
Proof.
  apply (ratios_de_serie_plana true (Fin (1 / 100)) (historico_plano "GGAL")
           100%R).
  - unfold historico_plano, sesiones_planas. rewrite !length_fmap, length_seq.
    lia.
  - lra.
  - unfold historico_plano, sesiones_planas.
    rewrite <- !list_fmap_compose. apply Forall_fmap, Forall_forall.
    by intros k _.
Defined.

(** ** The comparison of instruments *)

Lemma fle_refl (x : f64) : ¬ ausente x → fle x x.
Proof.
  destruct x as [| [] | a]; cbn [fle]; intros Hx;
    first [by destruct Hx | done | lra].
Qed.

Lemma fle_trans (x y z : f64) : fle x y → fle y z → fle x z.
Proof.
  destruct x as [| [] | a], y as [| [] | b], z as [| [] | c]; cbn [fle];
    first [done | lra].
Qed.

Lemma fmin_le (x y : f64) :
  ¬ ausente x → ¬ ausente y →
  ¬ ausente (fmin x y) ∧ fle (fmin x y) x ∧ fle (fmin x y) y.
Proof.
  unfold ausente.
  destruct x as [| [] | a], y as [| [] | b]; cbn [fmin fle]; intros Hx Hy;
    try (by destruct Hx); try (by destruct Hy);
    try (unfold Rmin; destruct (Rle_dec a b));
    split_and!; first [done | lra].
Qed.

Lemma fmax_le (x y : f64) :
  ¬ ausente x → ¬ ausente y →
  ¬ ausente (fmax x y) ∧ fle x (fmax x y) ∧ fle y (fmax x y).
Proof.
  unfold ausente.
  destruct x as [| [] | a], y as [| [] | b]; cbn [fmax fle]; intros Hx Hy;
    try (by destruct Hx); try (by destruct Hy);
    try (unfold Rmax; destruct (Rle_dec a b));
    split_and!; first [done | lra].
Qed.

Lemma foldl_fmin_le (x : f64) (l : list f64) :
  Forall (λ y, ¬ ausente y) (x :: l) →
  ¬ ausente (foldl fmin x l) ∧
  Forall (λ y, fle (foldl fmin x l) y) (x :: l).
Proof.
  revert x. induction l as [|y l IH]; intros x Hx.
  - apply Forall_cons in Hx as [Hx _]. split; [done |].
    constructor; [by apply fle_refl | constructor].
  - apply Forall_cons in Hx as [Hx Hl]. pose proof Hl as Hl'.
    apply Forall_cons in Hl' as [Hy Hl'].
    destruct (fmin_le x y Hx Hy) as (Hm & Hmx & Hmy).
    cbn [foldl]. destruct (IH (fmin x y)) as [Hn Hall].
    { by constructor. }
    split; [done |]. apply Forall_cons in Hall as [Hfirst Hrest].
    constructor; [by eapply fle_trans |].
    constructor; [by eapply fle_trans | done].
Qed.

Lemma foldl_fmax_le (x : f64) (l : list f64) :
  Forall (λ y, ¬ ausente y) (x :: l) →
  ¬ ausente (foldl fmax x l) ∧
  Forall (λ y, fle y (foldl fmax x l)) (x :: l).
Proof.
  revert x. induction l as [|y l IH]; intros x Hx.
  - apply Forall_cons in Hx as [Hx _]. split; [done |].
    constructor; [by apply fle_refl | constructor].
  - apply Forall_cons in Hx as [Hx Hl]. pose proof Hl as Hl'.
    apply Forall_cons in Hl' as [Hy Hl'].
    destruct (fmax_le x y Hx Hy) as (Hm & Hmx & Hmy).
    cbn [foldl]. destruct (IH (fmax x y)) as [Hn Hall].
    { by constructor. }
    split; [done |]. apply Forall_cons in Hall as [Hfirst Hrest].
    constructor; [by eapply fle_trans |].
    constructor; [by eapply fle_trans | done].
Qed.

Lemma validos_todos (l : list f64) :
  Forall (λ y, ¬ ausente y) l → validos l = l.
Proof.
  unfold validos. induction 1 as [|x l Hx _ IH]; [done |].
  by rewrite filter_cons, decide_True, IH.
Qed.

(** In a series without missing values, each value lies between the
    minimum and the maximum. *)
Lemma serie_min_max (l : list f64) (x : f64) :
  Forall (λ y, ¬ ausente y) l → x ∈ l →
  fle (serie_min l) x ∧ fle x (serie_max l).
Proof.
  intros Hl Hx. unfold serie_min, serie_max. rewrite validos_todos by done.
  destruct l as [|x0 l]; [by apply elem_of_nil in Hx |].
  destruct (foldl_fmin_le x0 l Hl) as [_ Hmin].
  destruct (foldl_fmax_le x0 l Hl) as [_ Hmax].
  rewrite Forall_forall in Hmin, Hmax. auto.
Qed.

Section CompararTeoremas.
Context {W : Type} (yf : Entorno W) (relleno : bool).

Lemma indicadores_coherentes (df : Historico) :
  df ≠ [] → Forall (λ r, ¬ ausente (Registro.cierre r)) df →
  ∃ e, indicadores relleno df = Some e ∧ entrada_coherente e ∧
       Comparacion.cantidad_datos e = length df.
Proof.
  intros Hne Hc. unfold indicadores.
  destruct (calcular_rendimiento relleno (Some df)) as [[rt ra] vol].
  destruct df as [|primera resto]; [done |].
  eexists. split; [done |]. split; [| done].
  unfold entrada_coherente.
  cbn [Comparacion.cantidad_datos Comparacion.precio_minimo
       Comparacion.precio_actual Comparacion.precio_maximo
       Comparacion.denominacion Comparacion.tipo Comparacion.mercado
       Comparacion.moneda].
  destruct (serie_min_max (Registro.cierre <$> primera :: resto)
              (Registro.cierre (List.last (primera :: resto) primera)))
    as [Hmin Hmax].
  - by apply Forall_fmap.
  - apply list_elem_of_fmap. eexists. split; [done |].
    apply last_Some_elem_of. by apply last_List_last.
  - split_and!; [simpl; lia | done | done | by left].
Qed.

Lemma describir_coherente (e : Comparacion.t)
    (activo : option ActivoFinanciero.t) :
  entrada_coherente e → entrada_coherente (describir e activo).
Proof.
  intros He. destruct activo as [a|]; [| done].
  destruct He as (Hn & Hmin & Hmax & _). cbn [describir].
  split_and!; [done | done | done |]. right. cbn. eauto.
Qed.

Lemma obtener_activo_cache_crece simbolo (c : Cliente W) :
  _activos_cache c ⊆ _activos_cache (obtener_activo yf simbolo c).2.
Proof.
  pose proof (obtener_activo_casos yf simbolo c) as H. cbv zeta in H.
  destruct (_activos_cache c !! simbolo) as [a|] eqn:Hs; [by rewrite H |].
  destruct H as (k & _ & _ & H).
  destruct (obtener_activo yf simbolo c).1 as [a|]; destruct H as [_ ->];
    [by apply insert_subseteq | done].
Qed.

Lemma comparar_desde_entradas simbolos desde hasta
    (resultados : gmap string Comparacion.t) (c : Cliente W) :
  map_Forall (λ _ e, entrada_coherente e) resultados →
  ∃ resultados' c',
    comparar_desde yf relleno simbolos desde hasta resultados c
    = Some (resultados', c') ∧
    (∀ s, s ∈ dom resultados' → s ∈ dom resultados ∨ s ∈ simbolos) ∧
    map_Forall (λ _ e, entrada_coherente e) resultados' ∧
    _activos_cache c ⊆ _activos_cache c'.
Proof.
  revert resultados c.
  induction simbolos as [|simbolo resto IH]; intros resultados c Hres.
  { exists resultados, c. split_and!; [done | by left | done | done]. }
  cbn [comparar_desde].
  pose proof (obtener_dataframe_historico_filas yf simbolo desde (Some hasta)
                DIA_1 (mundo c)) as Hfilas.
  destruct (obtener_dataframe_historico yf simbolo desde (Some hasta) DIA_1
              (mundo c)) as [[df|] m'].
  - destruct (Hfilas df eq_refl) as [Hne Hrows].
    destruct (indicadores_coherentes df Hne) as (e & -> & He & _).
    { eapply Forall_impl; [exact Hrows |]. by intros r (_ & _ & _ & _ & ?). }
    set (c1 := {| _activos_cache := _activos_cache c; mundo := m' |}).
    pose proof (obtener_activo_cache_crece simbolo c1) as Hcache.
    destruct (obtener_activo yf simbolo c1) as [activo c2]. cbn [snd] in Hcache.
    destruct (IH (<[simbolo := describir e activo]> resultados) c2)
      as (r' & c' & -> & Hdom & Hall & Hsub).
    { apply map_Forall_insert_2; [by apply describir_coherente | done]. }
    exists r', c'. split_and!; [done | | done | by etrans].
    intros s Hs. destruct (Hdom s Hs) as [H | H].
    + rewrite dom_insert in H. apply elem_of_union in H as [H | H].
      * apply elem_of_singleton in H. subst. right. apply list_elem_of_here.
      * by left.
    + right. by apply list_elem_of_further.
  - destruct (IH resultados
                {| _activos_cache := _activos_cache c; mundo := m' |} Hres)
      as (r' & c' & -> & Hdom & Hall & Hsub).
    exists r', c'. split_and!; [done | | done | done].
    intros s Hs. destruct (Hdom s Hs) as [H | H]; [by left |].
    right. by apply list_elem_of_further.
Qed.

(** X18. [comparar_activos] always returns: the last close it reads is of a
    frame that is never empty. The keys of its result are symbols of the
    input. Every entry counts at least one row, has its current price
    between its minimum and its maximum price, none of the three missing,
    and has the four keys that describe the instrument all present or all
    missing. The instruments cached before the call are still cached after
    it. *)
Theorem comparar_activos_entradas (simbolos : list string) (desde : datetime)
    (hasta : option datetime) (c : Cliente W) :
  ∃ resultados c',
    comparar_activos yf relleno simbolos desde hasta c
    = Some (resultados, c') ∧
    (∀ s, s ∈ dom resultados → s ∈ simbolos) ∧
    map_Forall (λ _ e, entrada_coherente e) resultados ∧
    _activos_cache c ⊆ _activos_cache c'.
Proof.
  unfold comparar_activos. cbv zeta.
  destruct (comparar_desde_entradas simbolos desde
              (default (now yf (estado (mundo c))) hasta) ∅ c)
    as (r' & c' & Hr & Hdom & Hall & Hsub).
  { apply map_Forall_empty. }
  exists r', c'. split_and!; [done | | done | done].
  intros s Hs. destruct (Hdom s Hs) as [H | H]; [| done].
  rewrite dom_empty in H. by apply elem_of_empty in H.
Qed.
End CompararTeoremas.

(** ** The requests of the analytics *)

Section SolicitudesTeoremas.
Context {W : Type} (yf : Entorno W) (relleno : bool) (A : Aritmetica).

Lemma obtener_dataframe_historico_llamadas simbolo desde hasta (m : Mundo W) :
  llamadas (obtener_dataframe_historico yf simbolo desde (Some hasta) DIA_1 m).2
  = llamadas m ++ [solicitud_diaria desde hasta simbolo].
Proof.
  unfold obtener_dataframe_historico. cbv zeta.
  match goal with |- context [obtener_historico yf ?s m] =>
    pose proof (obtener_historico_llamadas yf s m) as H;
    destruct (obtener_historico yf s m) as [r m'] end.
  cbn [snd] in H. by destruct (_ || _).
Qed.

(** One iteration of the loop of [calcular_matriz_correlacion]. *)
Local Abbreviation paso desde hasta :=
  (λ '(datos_combinados, m) simbolo,
     let '(df, m') :=
       obtener_dataframe_historico yf simbolo desde (Some hasta) DIA_1 m in
     match df with
     | Some df =>
         (asignar_columna datos_combinados simbolo (serie_cierre df), m')
     | None => (datos_combinados, m')
     end).

Lemma combinar_llamadas simbolos desde hasta (t : Tabla) (m : Mundo W) :
  llamadas (foldl (paso desde hasta) (t, m) simbolos).2
  = llamadas m ++ (solicitud_diaria desde hasta <$> simbolos).
Proof.
  revert t m. induction simbolos as [|simbolo resto IH]; intros t m.
  - by rewrite app_nil_r.
  - cbn [foldl]. cbv zeta.
    pose proof (obtener_dataframe_historico_llamadas simbolo desde hasta m)
      as H.
    destruct (obtener_dataframe_historico yf simbolo desde (Some hasta) DIA_1 m)
      as [[df|] m']; cbn [snd] in H; rewrite IH, H, <- app_assoc; done.
Qed.

(** X20. The analytics ask the provider for daily, adjusted frames over one
    range, fixed when the call starts. [calcular_beta] sends two requests,
    for the instrument and then for the benchmark, the second also when the
    first gave nothing; [calcular_matriz_correlacion] sends one request for
    each symbol of its input, in order, repetitions included;
    [calcular_ratios] sends one. None of them sends anything else, whatever
    the provider answers. *)
Theorem analitica_solicitudes (simbolo indice : string)
    (simbolos : list string) (tasa : f64) (desde : datetime)
    (desde_o hasta : option datetime) (m : Mundo W) :
  let hasta' := default (now yf (estado m)) hasta in
  let desde' := default (now yf (estado m) - timedelta_days 365)%Z desde_o in
  llamadas (calcular_beta yf relleno A simbolo indice desde_o hasta m).2
  = llamadas m ++ [solicitud_diaria desde' hasta' simbolo;
                   solicitud_diaria desde' hasta' indice] ∧
  llamadas (calcular_matriz_correlacion yf relleno simbolos desde hasta m).2
  = llamadas m ++ (solicitud_diaria desde hasta' <$> simbolos) ∧
  llamadas (calcular_ratios yf relleno simbolo tasa desde_o hasta m).2
  = llamadas m ++ [solicitud_diaria desde' hasta' simbolo].
Proof.
  cbv zeta. split_and!.
  - unfold calcular_beta. cbv zeta.
    pose proof (obtener_dataframe_historico_llamadas simbolo
      (default (now yf (estado m) - timedelta_days 365)%Z desde_o)
      (default (now yf (estado m)) hasta) m) as H1.
    destruct (obtener_dataframe_historico yf simbolo _ _ _ m) as [a m1].
    pose proof (obtener_dataframe_historico_llamadas indice
      (default (now yf (estado m) - timedelta_days 365)%Z desde_o)
      (default (now yf (estado m)) hasta) m1) as H2.
    destruct (obtener_dataframe_historico yf indice _ _ _ m1) as [b m2].
    cbn [snd] in *.
    assert (Hm2 : llamadas m2
      = llamadas m ++ [solicitud_diaria
                         (default (now yf (estado m) - timedelta_days 365)%Z
                                  desde_o)
                         (default (now yf (estado m)) hasta) simbolo;
                       solicitud_diaria
                         (default (now yf (estado m) - timedelta_days 365)%Z
                                  desde_o)
                         (default (now yf (estado m)) hasta) indice]).
    { by rewrite H2, H1, <- app_assoc. }
    destruct a as [df_a|], b as [df_b|]; try done.
    destruct (_ <? 30); [done |]. cbv zeta.
    by destruct (feq0 _).
  - unfold calcular_matriz_correlacion, combinar. cbv zeta.
    pose proof (combinar_llamadas simbolos desde
                  (default (now yf (estado m)) hasta) tabla_vacia m) as H.
    destruct (foldl _ (tabla_vacia, m) simbolos) as [datos m'].
    cbn [snd] in H. by destruct (tabla_empty datos).
  - unfold calcular_ratios. cbv zeta.
    pose proof (obtener_dataframe_historico_llamadas simbolo
      (default (now yf (estado m) - timedelta_days 365)%Z desde_o)
      (default (now yf (estado m)) hasta) m) as H1.
    by destruct (obtener_dataframe_historico yf simbolo _ _ _ m) as [[df|] m1].
Qed.
End SolicitudesTeoremas.
